(** * Flutter autolocalizer: a shallow embedding of the rewrite engine

    The development follows the Python sources:
    - [flutter_localization_automation.py] (class FlutterLocalizationAutomator),
    - [apply_localization_suggestions.py] (class LocalizationApplier),
    - [fix_localization_issues.py] (class LocalizationIssuesFixer),
    - [fix_const_context_issues.py] (the const-context test of fix_remaining_issues).

    A Python [str] is a sequence of code points, so text is a list of
    code points and [len] is the length of the list.  The character
    classes behind [str.strip], [str.isupper] and the regex classes [\d]
    and [\s] are those of the Unicode Character Database.  A number read
    by [json.load] or by argparse is a rational, an infinity or NaN.
    Python dictionaries keep insertion order: they are association lists
    with unique keys, updated in place or extended at the end. *)

From Stdlib Require Import Ascii String Bool Arith Lia ZArith QArith List.
Import ListNotations.
Close Scope Q_scope.
Close Scope Z_scope.
Open Scope nat_scope.
Open Scope list_scope.
Open Scope bool_scope.

Set Implicit Arguments.

#[local] Arguments N.eqb : simpl never.
#[local] Arguments N.leb : simpl never.
#[local] Arguments N_of_ascii : simpl never.

(** ** Python strings *)

Module Py.

(** A character is its code point. *)
Abbreviation char := N (only parsing).

Definition str := list char.

(** The code point of a character written as a one-byte literal. *)
Definition ch (a : ascii) : char := N_of_ascii a.

Definition lit (s : string) : str := map ch (list_ascii_of_string s).

Definition newline : char := ch "010".

Fixpoint str_eqb (a b : str) : bool :=
  match a, b with
  | [], [] => true
  | x :: a', y :: b' => N.eqb x y && str_eqb a' b'
  | _, _ => false
  end.

Arguments str_eqb : simpl never.

(** *** The character classes

    The tables are those of the Unicode Character Database 14.0.0, the
    one that CPython 3.11 carries ([unicodedata.unidata_version]); each
    entry is a range of code points, both ends included. *)

(** [str.isspace], which [str.strip] and the regex class [\s] use *)
Definition space_ranges : list (N * N) :=
  [(9, 13); (28, 32); (133, 133); (160, 160); (5760, 5760); (8192, 8202);
   (8232, 8233); (8239, 8239); (8287, 8287); (12288, 12288)]%N.

(** [str.isdecimal]: the decimal digits, which the regex class [\d] matches *)
Definition decimal_ranges : list (N * N) :=
  [(48, 57); (1632, 1641); (1776, 1785); (1984, 1993); (2406, 2415);
   (2534, 2543); (2662, 2671); (2790, 2799); (2918, 2927); (3046, 3055);
   (3174, 3183); (3302, 3311); (3430, 3439); (3558, 3567); (3664, 3673);
   (3792, 3801); (3872, 3881); (4160, 4169); (4240, 4249); (6112, 6121);
   (6160, 6169); (6470, 6479); (6608, 6617); (6784, 6793); (6800, 6809);
   (6992, 7001); (7088, 7097); (7232, 7241); (7248, 7257); (42528, 42537);
   (43216, 43225); (43264, 43273); (43472, 43481); (43504, 43513);
   (43600, 43609); (44016, 44025); (65296, 65305); (66720, 66729);
   (68912, 68921); (69734, 69743); (69872, 69881); (69942, 69951);
   (70096, 70105); (70384, 70393); (70736, 70745); (70864, 70873);
   (71248, 71257); (71360, 71369); (71472, 71481); (71904, 71913);
   (72016, 72025); (72784, 72793); (73040, 73049); (73120, 73129);
   (92768, 92777); (92864, 92873); (93008, 93017); (120782, 120831);
   (123200, 123209); (123632, 123641); (125264, 125273); (130032, 130041)]%N.

(** The uppercase characters *)
Definition uppercase_ranges : list (N * N) :=
  [(65, 90); (192, 214); (216, 222); (256, 256); (258, 258); (260, 260);
   (262, 262); (264, 264); (266, 266); (268, 268); (270, 270); (272, 272);
   (274, 274); (276, 276); (278, 278); (280, 280); (282, 282); (284, 284);
   (286, 286); (288, 288); (290, 290); (292, 292); (294, 294); (296, 296);
   (298, 298); (300, 300); (302, 302); (304, 304); (306, 306); (308, 308);
   (310, 310); (313, 313); (315, 315); (317, 317); (319, 319); (321, 321);
   (323, 323); (325, 325); (327, 327); (330, 330); (332, 332); (334, 334);
   (336, 336); (338, 338); (340, 340); (342, 342); (344, 344); (346, 346);
   (348, 348); (350, 350); (352, 352); (354, 354); (356, 356); (358, 358);
   (360, 360); (362, 362); (364, 364); (366, 366); (368, 368); (370, 370);
   (372, 372); (374, 374); (376, 377); (379, 379); (381, 381); (385, 386);
   (388, 388); (390, 391); (393, 395); (398, 401); (403, 404); (406, 408);
   (412, 413); (415, 416); (418, 418); (420, 420); (422, 423); (425, 425);
   (428, 428); (430, 431); (433, 435); (437, 437); (439, 440); (444, 444);
   (452, 452); (455, 455); (458, 458); (461, 461); (463, 463); (465, 465);
   (467, 467); (469, 469); (471, 471); (473, 473); (475, 475); (478, 478);
   (480, 480); (482, 482); (484, 484); (486, 486); (488, 488); (490, 490);
   (492, 492); (494, 494); (497, 497); (500, 500); (502, 504); (506, 506);
   (508, 508); (510, 510); (512, 512); (514, 514); (516, 516); (518, 518);
   (520, 520); (522, 522); (524, 524); (526, 526); (528, 528); (530, 530);
   (532, 532); (534, 534); (536, 536); (538, 538); (540, 540); (542, 542);
   (544, 544); (546, 546); (548, 548); (550, 550); (552, 552); (554, 554);
   (556, 556); (558, 558); (560, 560); (562, 562); (570, 571); (573, 574);
   (577, 577); (579, 582); (584, 584); (586, 586); (588, 588); (590, 590);
   (880, 880); (882, 882); (886, 886); (895, 895); (902, 902); (904, 906);
   (908, 908); (910, 911); (913, 929); (931, 939); (975, 975); (978, 980);
   (984, 984); (986, 986); (988, 988); (990, 990); (992, 992); (994, 994);
   (996, 996); (998, 998); (1000, 1000); (1002, 1002); (1004, 1004);
   (1006, 1006); (1012, 1012); (1015, 1015); (1017, 1018); (1021, 1071);
   (1120, 1120); (1122, 1122); (1124, 1124); (1126, 1126); (1128, 1128);
   (1130, 1130); (1132, 1132); (1134, 1134); (1136, 1136); (1138, 1138);
   (1140, 1140); (1142, 1142); (1144, 1144); (1146, 1146); (1148, 1148);
   (1150, 1150); (1152, 1152); (1162, 1162); (1164, 1164); (1166, 1166);
   (1168, 1168); (1170, 1170); (1172, 1172); (1174, 1174); (1176, 1176);
   (1178, 1178); (1180, 1180); (1182, 1182); (1184, 1184); (1186, 1186);
   (1188, 1188); (1190, 1190); (1192, 1192); (1194, 1194); (1196, 1196);
   (1198, 1198); (1200, 1200); (1202, 1202); (1204, 1204); (1206, 1206);
   (1208, 1208); (1210, 1210); (1212, 1212); (1214, 1214); (1216, 1217);
   (1219, 1219); (1221, 1221); (1223, 1223); (1225, 1225); (1227, 1227);
   (1229, 1229); (1232, 1232); (1234, 1234); (1236, 1236); (1238, 1238);
   (1240, 1240); (1242, 1242); (1244, 1244); (1246, 1246); (1248, 1248);
   (1250, 1250); (1252, 1252); (1254, 1254); (1256, 1256); (1258, 1258);
   (1260, 1260); (1262, 1262); (1264, 1264); (1266, 1266); (1268, 1268);
   (1270, 1270); (1272, 1272); (1274, 1274); (1276, 1276); (1278, 1278);
   (1280, 1280); (1282, 1282); (1284, 1284); (1286, 1286); (1288, 1288);
   (1290, 1290); (1292, 1292); (1294, 1294); (1296, 1296); (1298, 1298);
   (1300, 1300); (1302, 1302); (1304, 1304); (1306, 1306); (1308, 1308);
   (1310, 1310); (1312, 1312); (1314, 1314); (1316, 1316); (1318, 1318);
   (1320, 1320); (1322, 1322); (1324, 1324); (1326, 1326); (1329, 1366);
   (4256, 4293); (4295, 4295); (4301, 4301); (5024, 5109); (7312, 7354);
   (7357, 7359); (7680, 7680); (7682, 7682); (7684, 7684); (7686, 7686);
   (7688, 7688); (7690, 7690); (7692, 7692); (7694, 7694); (7696, 7696);
   (7698, 7698); (7700, 7700); (7702, 7702); (7704, 7704); (7706, 7706);
   (7708, 7708); (7710, 7710); (7712, 7712); (7714, 7714); (7716, 7716);
   (7718, 7718); (7720, 7720); (7722, 7722); (7724, 7724); (7726, 7726);
   (7728, 7728); (7730, 7730); (7732, 7732); (7734, 7734); (7736, 7736);
   (7738, 7738); (7740, 7740); (7742, 7742); (7744, 7744); (7746, 7746);
   (7748, 7748); (7750, 7750); (7752, 7752); (7754, 7754); (7756, 7756);
   (7758, 7758); (7760, 7760); (7762, 7762); (7764, 7764); (7766, 7766);
   (7768, 7768); (7770, 7770); (7772, 7772); (7774, 7774); (7776, 7776);
   (7778, 7778); (7780, 7780); (7782, 7782); (7784, 7784); (7786, 7786);
   (7788, 7788); (7790, 7790); (7792, 7792); (7794, 7794); (7796, 7796);
   (7798, 7798); (7800, 7800); (7802, 7802); (7804, 7804); (7806, 7806);
   (7808, 7808); (7810, 7810); (7812, 7812); (7814, 7814); (7816, 7816);
   (7818, 7818); (7820, 7820); (7822, 7822); (7824, 7824); (7826, 7826);
   (7828, 7828); (7838, 7838); (7840, 7840); (7842, 7842); (7844, 7844);
   (7846, 7846); (7848, 7848); (7850, 7850); (7852, 7852); (7854, 7854);
   (7856, 7856); (7858, 7858); (7860, 7860); (7862, 7862); (7864, 7864);
   (7866, 7866); (7868, 7868); (7870, 7870); (7872, 7872); (7874, 7874);
   (7876, 7876); (7878, 7878); (7880, 7880); (7882, 7882); (7884, 7884);
   (7886, 7886); (7888, 7888); (7890, 7890); (7892, 7892); (7894, 7894);
   (7896, 7896); (7898, 7898); (7900, 7900); (7902, 7902); (7904, 7904);
   (7906, 7906); (7908, 7908); (7910, 7910); (7912, 7912); (7914, 7914);
   (7916, 7916); (7918, 7918); (7920, 7920); (7922, 7922); (7924, 7924);
   (7926, 7926); (7928, 7928); (7930, 7930); (7932, 7932); (7934, 7934);
   (7944, 7951); (7960, 7965); (7976, 7983); (7992, 7999); (8008, 8013);
   (8025, 8025); (8027, 8027); (8029, 8029); (8031, 8031); (8040, 8047);
   (8120, 8123); (8136, 8139); (8152, 8155); (8168, 8172); (8184, 8187);
   (8450, 8450); (8455, 8455); (8459, 8461); (8464, 8466); (8469, 8469);
   (8473, 8477); (8484, 8484); (8486, 8486); (8488, 8488); (8490, 8493);
   (8496, 8499); (8510, 8511); (8517, 8517); (8544, 8559); (8579, 8579);
   (9398, 9423); (11264, 11311); (11360, 11360); (11362, 11364);
   (11367, 11367); (11369, 11369); (11371, 11371); (11373, 11376);
   (11378, 11378); (11381, 11381); (11390, 11392); (11394, 11394);
   (11396, 11396); (11398, 11398); (11400, 11400); (11402, 11402);
   (11404, 11404); (11406, 11406); (11408, 11408); (11410, 11410);
   (11412, 11412); (11414, 11414); (11416, 11416); (11418, 11418);
   (11420, 11420); (11422, 11422); (11424, 11424); (11426, 11426);
   (11428, 11428); (11430, 11430); (11432, 11432); (11434, 11434);
   (11436, 11436); (11438, 11438); (11440, 11440); (11442, 11442);
   (11444, 11444); (11446, 11446); (11448, 11448); (11450, 11450);
   (11452, 11452); (11454, 11454); (11456, 11456); (11458, 11458);
   (11460, 11460); (11462, 11462); (11464, 11464); (11466, 11466);
   (11468, 11468); (11470, 11470); (11472, 11472); (11474, 11474);
   (11476, 11476); (11478, 11478); (11480, 11480); (11482, 11482);
   (11484, 11484); (11486, 11486); (11488, 11488); (11490, 11490);
   (11499, 11499); (11501, 11501); (11506, 11506); (42560, 42560);
   (42562, 42562); (42564, 42564); (42566, 42566); (42568, 42568);
   (42570, 42570); (42572, 42572); (42574, 42574); (42576, 42576);
   (42578, 42578); (42580, 42580); (42582, 42582); (42584, 42584);
   (42586, 42586); (42588, 42588); (42590, 42590); (42592, 42592);
   (42594, 42594); (42596, 42596); (42598, 42598); (42600, 42600);
   (42602, 42602); (42604, 42604); (42624, 42624); (42626, 42626);
   (42628, 42628); (42630, 42630); (42632, 42632); (42634, 42634);
   (42636, 42636); (42638, 42638); (42640, 42640); (42642, 42642);
   (42644, 42644); (42646, 42646); (42648, 42648); (42650, 42650);
   (42786, 42786); (42788, 42788); (42790, 42790); (42792, 42792);
   (42794, 42794); (42796, 42796); (42798, 42798); (42802, 42802);
   (42804, 42804); (42806, 42806); (42808, 42808); (42810, 42810);
   (42812, 42812); (42814, 42814); (42816, 42816); (42818, 42818);
   (42820, 42820); (42822, 42822); (42824, 42824); (42826, 42826);
   (42828, 42828); (42830, 42830); (42832, 42832); (42834, 42834);
   (42836, 42836); (42838, 42838); (42840, 42840); (42842, 42842);
   (42844, 42844); (42846, 42846); (42848, 42848); (42850, 42850);
   (42852, 42852); (42854, 42854); (42856, 42856); (42858, 42858);
   (42860, 42860); (42862, 42862); (42873, 42873); (42875, 42875);
   (42877, 42878); (42880, 42880); (42882, 42882); (42884, 42884);
   (42886, 42886); (42891, 42891); (42893, 42893); (42896, 42896);
   (42898, 42898); (42902, 42902); (42904, 42904); (42906, 42906);
   (42908, 42908); (42910, 42910); (42912, 42912); (42914, 42914);
   (42916, 42916); (42918, 42918); (42920, 42920); (42922, 42926);
   (42928, 42932); (42934, 42934); (42936, 42936); (42938, 42938);
   (42940, 42940); (42942, 42942); (42944, 42944); (42946, 42946);
   (42948, 42951); (42953, 42953); (42960, 42960); (42966, 42966);
   (42968, 42968); (42997, 42997); (65313, 65338); (66560, 66599);
   (66736, 66771); (66928, 66938); (66940, 66954); (66956, 66962);
   (66964, 66965); (68736, 68786); (71840, 71871); (93760, 93791);
   (119808, 119833); (119860, 119885); (119912, 119937); (119964, 119964);
   (119966, 119967); (119970, 119970); (119973, 119974); (119977, 119980);
   (119982, 119989); (120016, 120041); (120068, 120069); (120071, 120074);
   (120077, 120084); (120086, 120092); (120120, 120121); (120123, 120126);
   (120128, 120132); (120134, 120134); (120138, 120144); (120172, 120197);
   (120224, 120249); (120276, 120301); (120328, 120353); (120380, 120405);
   (120432, 120457); (120488, 120512); (120546, 120570); (120604, 120628);
   (120662, 120686); (120720, 120744); (120778, 120778); (125184, 125217);
   (127280, 127305); (127312, 127337); (127344, 127369)]%N.

(** The lowercase characters *)
Definition lowercase_ranges : list (N * N) :=
  [(97, 122); (170, 170); (181, 181); (186, 186); (223, 246); (248, 255);
   (257, 257); (259, 259); (261, 261); (263, 263); (265, 265); (267, 267);
   (269, 269); (271, 271); (273, 273); (275, 275); (277, 277); (279, 279);
   (281, 281); (283, 283); (285, 285); (287, 287); (289, 289); (291, 291);
   (293, 293); (295, 295); (297, 297); (299, 299); (301, 301); (303, 303);
   (305, 305); (307, 307); (309, 309); (311, 312); (314, 314); (316, 316);
   (318, 318); (320, 320); (322, 322); (324, 324); (326, 326); (328, 329);
   (331, 331); (333, 333); (335, 335); (337, 337); (339, 339); (341, 341);
   (343, 343); (345, 345); (347, 347); (349, 349); (351, 351); (353, 353);
   (355, 355); (357, 357); (359, 359); (361, 361); (363, 363); (365, 365);
   (367, 367); (369, 369); (371, 371); (373, 373); (375, 375); (378, 378);
   (380, 380); (382, 384); (387, 387); (389, 389); (392, 392); (396, 397);
   (402, 402); (405, 405); (409, 411); (414, 414); (417, 417); (419, 419);
   (421, 421); (424, 424); (426, 427); (429, 429); (432, 432); (436, 436);
   (438, 438); (441, 442); (445, 447); (454, 454); (457, 457); (460, 460);
   (462, 462); (464, 464); (466, 466); (468, 468); (470, 470); (472, 472);
   (474, 474); (476, 477); (479, 479); (481, 481); (483, 483); (485, 485);
   (487, 487); (489, 489); (491, 491); (493, 493); (495, 496); (499, 499);
   (501, 501); (505, 505); (507, 507); (509, 509); (511, 511); (513, 513);
   (515, 515); (517, 517); (519, 519); (521, 521); (523, 523); (525, 525);
   (527, 527); (529, 529); (531, 531); (533, 533); (535, 535); (537, 537);
   (539, 539); (541, 541); (543, 543); (545, 545); (547, 547); (549, 549);
   (551, 551); (553, 553); (555, 555); (557, 557); (559, 559); (561, 561);
   (563, 569); (572, 572); (575, 576); (578, 578); (583, 583); (585, 585);
   (587, 587); (589, 589); (591, 659); (661, 696); (704, 705); (736, 740);
   (837, 837); (881, 881); (883, 883); (887, 887); (890, 893); (912, 912);
   (940, 974); (976, 977); (981, 983); (985, 985); (987, 987); (989, 989);
   (991, 991); (993, 993); (995, 995); (997, 997); (999, 999); (1001, 1001);
   (1003, 1003); (1005, 1005); (1007, 1011); (1013, 1013); (1016, 1016);
   (1019, 1020); (1072, 1119); (1121, 1121); (1123, 1123); (1125, 1125);
   (1127, 1127); (1129, 1129); (1131, 1131); (1133, 1133); (1135, 1135);
   (1137, 1137); (1139, 1139); (1141, 1141); (1143, 1143); (1145, 1145);
   (1147, 1147); (1149, 1149); (1151, 1151); (1153, 1153); (1163, 1163);
   (1165, 1165); (1167, 1167); (1169, 1169); (1171, 1171); (1173, 1173);
   (1175, 1175); (1177, 1177); (1179, 1179); (1181, 1181); (1183, 1183);
   (1185, 1185); (1187, 1187); (1189, 1189); (1191, 1191); (1193, 1193);
   (1195, 1195); (1197, 1197); (1199, 1199); (1201, 1201); (1203, 1203);
   (1205, 1205); (1207, 1207); (1209, 1209); (1211, 1211); (1213, 1213);
   (1215, 1215); (1218, 1218); (1220, 1220); (1222, 1222); (1224, 1224);
   (1226, 1226); (1228, 1228); (1230, 1231); (1233, 1233); (1235, 1235);
   (1237, 1237); (1239, 1239); (1241, 1241); (1243, 1243); (1245, 1245);
   (1247, 1247); (1249, 1249); (1251, 1251); (1253, 1253); (1255, 1255);
   (1257, 1257); (1259, 1259); (1261, 1261); (1263, 1263); (1265, 1265);
   (1267, 1267); (1269, 1269); (1271, 1271); (1273, 1273); (1275, 1275);
   (1277, 1277); (1279, 1279); (1281, 1281); (1283, 1283); (1285, 1285);
   (1287, 1287); (1289, 1289); (1291, 1291); (1293, 1293); (1295, 1295);
   (1297, 1297); (1299, 1299); (1301, 1301); (1303, 1303); (1305, 1305);
   (1307, 1307); (1309, 1309); (1311, 1311); (1313, 1313); (1315, 1315);
   (1317, 1317); (1319, 1319); (1321, 1321); (1323, 1323); (1325, 1325);
   (1327, 1327); (1376, 1416); (4304, 4346); (4349, 4351); (5112, 5117);
   (7296, 7304); (7424, 7615); (7681, 7681); (7683, 7683); (7685, 7685);
   (7687, 7687); (7689, 7689); (7691, 7691); (7693, 7693); (7695, 7695);
   (7697, 7697); (7699, 7699); (7701, 7701); (7703, 7703); (7705, 7705);
   (7707, 7707); (7709, 7709); (7711, 7711); (7713, 7713); (7715, 7715);
   (7717, 7717); (7719, 7719); (7721, 7721); (7723, 7723); (7725, 7725);
   (7727, 7727); (7729, 7729); (7731, 7731); (7733, 7733); (7735, 7735);
   (7737, 7737); (7739, 7739); (7741, 7741); (7743, 7743); (7745, 7745);
   (7747, 7747); (7749, 7749); (7751, 7751); (7753, 7753); (7755, 7755);
   (7757, 7757); (7759, 7759); (7761, 7761); (7763, 7763); (7765, 7765);
   (7767, 7767); (7769, 7769); (7771, 7771); (7773, 7773); (7775, 7775);
   (7777, 7777); (7779, 7779); (7781, 7781); (7783, 7783); (7785, 7785);
   (7787, 7787); (7789, 7789); (7791, 7791); (7793, 7793); (7795, 7795);
   (7797, 7797); (7799, 7799); (7801, 7801); (7803, 7803); (7805, 7805);
   (7807, 7807); (7809, 7809); (7811, 7811); (7813, 7813); (7815, 7815);
   (7817, 7817); (7819, 7819); (7821, 7821); (7823, 7823); (7825, 7825);
   (7827, 7827); (7829, 7837); (7839, 7839); (7841, 7841); (7843, 7843);
   (7845, 7845); (7847, 7847); (7849, 7849); (7851, 7851); (7853, 7853);
   (7855, 7855); (7857, 7857); (7859, 7859); (7861, 7861); (7863, 7863);
   (7865, 7865); (7867, 7867); (7869, 7869); (7871, 7871); (7873, 7873);
   (7875, 7875); (7877, 7877); (7879, 7879); (7881, 7881); (7883, 7883);
   (7885, 7885); (7887, 7887); (7889, 7889); (7891, 7891); (7893, 7893);
   (7895, 7895); (7897, 7897); (7899, 7899); (7901, 7901); (7903, 7903);
   (7905, 7905); (7907, 7907); (7909, 7909); (7911, 7911); (7913, 7913);
   (7915, 7915); (7917, 7917); (7919, 7919); (7921, 7921); (7923, 7923);
   (7925, 7925); (7927, 7927); (7929, 7929); (7931, 7931); (7933, 7933);
   (7935, 7943); (7952, 7957); (7968, 7975); (7984, 7991); (8000, 8005);
   (8016, 8023); (8032, 8039); (8048, 8061); (8064, 8071); (8080, 8087);
   (8096, 8103); (8112, 8116); (8118, 8119); (8126, 8126); (8130, 8132);
   (8134, 8135); (8144, 8147); (8150, 8151); (8160, 8167); (8178, 8180);
   (8182, 8183); (8305, 8305); (8319, 8319); (8336, 8348); (8458, 8458);
   (8462, 8463); (8467, 8467); (8495, 8495); (8500, 8500); (8505, 8505);
   (8508, 8509); (8518, 8521); (8526, 8526); (8560, 8575); (8580, 8580);
   (9424, 9449); (11312, 11359); (11361, 11361); (11365, 11366);
   (11368, 11368); (11370, 11370); (11372, 11372); (11377, 11377);
   (11379, 11380); (11382, 11389); (11393, 11393); (11395, 11395);
   (11397, 11397); (11399, 11399); (11401, 11401); (11403, 11403);
   (11405, 11405); (11407, 11407); (11409, 11409); (11411, 11411);
   (11413, 11413); (11415, 11415); (11417, 11417); (11419, 11419);
   (11421, 11421); (11423, 11423); (11425, 11425); (11427, 11427);
   (11429, 11429); (11431, 11431); (11433, 11433); (11435, 11435);
   (11437, 11437); (11439, 11439); (11441, 11441); (11443, 11443);
   (11445, 11445); (11447, 11447); (11449, 11449); (11451, 11451);
   (11453, 11453); (11455, 11455); (11457, 11457); (11459, 11459);
   (11461, 11461); (11463, 11463); (11465, 11465); (11467, 11467);
   (11469, 11469); (11471, 11471); (11473, 11473); (11475, 11475);
   (11477, 11477); (11479, 11479); (11481, 11481); (11483, 11483);
   (11485, 11485); (11487, 11487); (11489, 11489); (11491, 11492);
   (11500, 11500); (11502, 11502); (11507, 11507); (11520, 11557);
   (11559, 11559); (11565, 11565); (42561, 42561); (42563, 42563);
   (42565, 42565); (42567, 42567); (42569, 42569); (42571, 42571);
   (42573, 42573); (42575, 42575); (42577, 42577); (42579, 42579);
   (42581, 42581); (42583, 42583); (42585, 42585); (42587, 42587);
   (42589, 42589); (42591, 42591); (42593, 42593); (42595, 42595);
   (42597, 42597); (42599, 42599); (42601, 42601); (42603, 42603);
   (42605, 42605); (42625, 42625); (42627, 42627); (42629, 42629);
   (42631, 42631); (42633, 42633); (42635, 42635); (42637, 42637);
   (42639, 42639); (42641, 42641); (42643, 42643); (42645, 42645);
   (42647, 42647); (42649, 42649); (42651, 42653); (42787, 42787);
   (42789, 42789); (42791, 42791); (42793, 42793); (42795, 42795);
   (42797, 42797); (42799, 42801); (42803, 42803); (42805, 42805);
   (42807, 42807); (42809, 42809); (42811, 42811); (42813, 42813);
   (42815, 42815); (42817, 42817); (42819, 42819); (42821, 42821);
   (42823, 42823); (42825, 42825); (42827, 42827); (42829, 42829);
   (42831, 42831); (42833, 42833); (42835, 42835); (42837, 42837);
   (42839, 42839); (42841, 42841); (42843, 42843); (42845, 42845);
   (42847, 42847); (42849, 42849); (42851, 42851); (42853, 42853);
   (42855, 42855); (42857, 42857); (42859, 42859); (42861, 42861);
   (42863, 42872); (42874, 42874); (42876, 42876); (42879, 42879);
   (42881, 42881); (42883, 42883); (42885, 42885); (42887, 42887);
   (42892, 42892); (42894, 42894); (42897, 42897); (42899, 42901);
   (42903, 42903); (42905, 42905); (42907, 42907); (42909, 42909);
   (42911, 42911); (42913, 42913); (42915, 42915); (42917, 42917);
   (42919, 42919); (42921, 42921); (42927, 42927); (42933, 42933);
   (42935, 42935); (42937, 42937); (42939, 42939); (42941, 42941);
   (42943, 42943); (42945, 42945); (42947, 42947); (42952, 42952);
   (42954, 42954); (42961, 42961); (42963, 42963); (42965, 42965);
   (42967, 42967); (42969, 42969); (42998, 42998); (43000, 43002);
   (43824, 43866); (43868, 43880); (43888, 43967); (64256, 64262);
   (64275, 64279); (65345, 65370); (66600, 66639); (66776, 66811);
   (66967, 66977); (66979, 66993); (66995, 67001); (67003, 67004);
   (67456, 67456); (67459, 67461); (67463, 67504); (67506, 67514);
   (68800, 68850); (71872, 71903); (93792, 93823); (119834, 119859);
   (119886, 119892); (119894, 119911); (119938, 119963); (119990, 119993);
   (119995, 119995); (119997, 120003); (120005, 120015); (120042, 120067);
   (120094, 120119); (120146, 120171); (120198, 120223); (120250, 120275);
   (120302, 120327); (120354, 120379); (120406, 120431); (120458, 120485);
   (120514, 120538); (120540, 120545); (120572, 120596); (120598, 120603);
   (120630, 120654); (120656, 120661); (120688, 120712); (120714, 120719);
   (120746, 120770); (120772, 120777); (120779, 120779); (122624, 122633);
   (122635, 122654); (125218, 125251)]%N.

(** The titlecase characters (category Lt) *)
Definition titlecase_ranges : list (N * N) :=
  [(453, 453); (456, 456); (459, 459); (498, 498); (8072, 8079); (8088, 8095);
   (8104, 8111); (8124, 8124); (8140, 8140); (8188, 8188)]%N.

Definition in_ranges (ranges : list (N * N)) (c : char) : bool :=
  existsb (fun r => (fst r <=? c)%N && (c <=? snd r)%N) ranges.

(** [c.isspace()] *)
Definition is_space (c : char) : bool := in_ranges space_ranges c.

(** [c.isdecimal()], the class [\d] of a [str] pattern *)
Definition is_decimal (c : char) : bool := in_ranges decimal_ranges c.

Definition is_uppercase (c : char) : bool := in_ranges uppercase_ranges c.
Definition is_lowercase (c : char) : bool := in_ranges lowercase_ranges c.
Definition is_titlecase (c : char) : bool := in_ranges titlecase_ranges c.

(** The ranges [0-9], [A-Z] and [a-z] of a regex set. *)
Definition is_digit (c : char) : bool := (48 <=? c)%N && (c <=? 57)%N.
Definition is_upper (c : char) : bool := (65 <=? c)%N && (c <=? 90)%N.
Definition is_lower (c : char) : bool := (97 <=? c)%N && (c <=? 122)%N.

(** [c in cs] for one character. *)
Definition in_chars (cs : string) (c : char) : bool :=
  existsb (N.eqb c) (lit cs).

Fixpoint lstrip (s : str) : str :=
  match s with
  | c :: s' => if is_space c then lstrip s' else s
  | [] => []
  end.

Definition rstrip (s : str) : str := rev (lstrip (rev s)).

(** [s.strip()] *)
Definition strip (s : str) : str := rstrip (lstrip s).

(** [s.startswith(p)] *)
Fixpoint startswith (p s : str) : bool :=
  match p, s with
  | [], _ => true
  | a :: p', b :: s' => N.eqb a b && startswith p' s'
  | _ :: _, [] => false
  end.

(** [p in s] *)
Fixpoint contains (p s : str) : bool :=
  startswith p s ||
  match s with
  | [] => false
  | _ :: s' => contains p s'
  end.

(** [s.endswith(p)] *)
Definition endswith (p s : str) : bool := startswith (rev p) (rev s).

(** [s.isupper()]: no lowercase and no titlecase character, and at least
    one uppercase one. *)
Definition isupper (s : str) : bool :=
  forallb (fun c => negb (is_lowercase c || is_titlecase c)) s
  && existsb is_uppercase s.

(** [s.count(c)] for a single character [c]. *)
Definition count_char (c : char) (s : str) : nat :=
  length (filter (N.eqb c) s).

(** Left-to-right replacement of the non-overlapping occurrences of a
    non-empty [old]; [skip] characters of a match just replaced are still
    to be dropped. *)
Fixpoint replace_from (old new : str) (skip : nat) (s : str) : str :=
  match s with
  | [] => []
  | c :: s' =>
      match skip with
      | S k => replace_from old new k s'
      | O => if startswith old s
             then new ++ replace_from old new (length old - 1) s'
             else c :: replace_from old new 0 s'
      end
  end.

(** [s.replace(old, new)]; with an empty [old] Python puts [new] before
    every character and at the end. *)
Definition replace (old new s : str) : str :=
  match old with
  | [] => new ++ flat_map (fun c => c :: new) s
  | _ :: _ => replace_from old new 0 s
  end.

(** Number of matches that [replace_from] replaces. *)
Fixpoint count_from (old : str) (skip : nat) (s : str) : nat :=
  match s with
  | [] => 0
  | _ :: s' =>
      match skip with
      | S k => count_from old k s'
      | O => if startswith old s
             then S (count_from old (length old - 1) s')
             else count_from old 0 s'
      end
  end.

(** A text without a line break. *)
Definition nl_free (l : str) : Prop := ~ In newline l.

(** [s.split('\n')] *)
Fixpoint split_lines (s : str) : list str :=
  match s with
  | [] => [[]]
  | c :: s' =>
      if N.eqb c newline then [] :: split_lines s'
      else match split_lines s' with
           | l :: ls => (c :: l) :: ls
           | [] => [[c]]
           end
  end.

(** ['\n'.join(ls)] *)
Fixpoint join_lines (ls : list str) : str :=
  match ls with
  | [] => []
  | l :: ls' =>
      match ls' with
      | [] => l
      | _ :: _ => l ++ newline :: join_lines ls'
      end
  end.

(** *** Dictionaries *)

Section Dict.
Variable V : Type.

Definition dict := list (str * V).

Fixpoint dict_get (d : dict) (k : str) : option V :=
  match d with
  | [] => None
  | (k', v) :: d' => if str_eqb k k' then Some v else dict_get d' k
  end.

(** [k in d] *)
Definition dict_mem (d : dict) (k : str) : bool :=
  existsb (fun kv => str_eqb k (fst kv)) d.

(** [d[k] = v] *)
Fixpoint dict_set (d : dict) (k : str) (v : V) : dict :=
  match d with
  | [] => [(k, v)]
  | (k', v') :: d' =>
      if str_eqb k k' then (k', v) :: d' else (k', v') :: dict_set d' k v
  end.

Definition dict_keys (d : dict) : list str := map fst d.

(** A dictionary built by inserting, in order, the entries of [d] that
    satisfy [keep]. *)
Definition dict_select (keep : str -> V -> bool) (d : dict) : dict :=
  fold_left
    (fun acc kv => if keep (fst kv) (snd kv) then dict_set acc (fst kv) (snd kv) else acc)
    d [].

(** [dict(items)] *)
Definition dict_of_items (items : list (str * V)) : dict :=
  fold_left (fun d kv => dict_set d (fst kv) (snd kv)) items [].
End Dict.

(** [l[:n]] for a Python integer [n]: a negative [n] counts from the end. *)
Definition slice_to (A : Type) (n : Z) (l : list A) : list A :=
  if (0 <=? n)%Z then firstn (Z.to_nat n) l
  else firstn (length l - Z.to_nat (- n)) l.

(** [l.insert(i, x)] for [i >= 0]. *)
Definition list_insert (A : Type) (i : nat) (x : A) (l : list A) : list A :=
  firstn i l ++ x :: skipn i l.

Definition get_default (A : Type) (o : option A) (d : A) : A :=
  match o with
  | Some x => x
  | None => d
  end.

(** *** Numbers

    A number as [json.load] and argparse give it: an [int] or a finite
    [float] is the rational it stands for; the other floats are the two
    infinities and NaN. *)
Inductive number : Type :=
| Num (q : Q)
| PosInf
| NegInf
| NaN.

Coercion Num : Q >-> number.

Definition Qltb (x y : Q) : bool := negb (Qle_bool y x).

(** [x < y]: false as soon as one side is NaN. *)
Definition num_ltb (x y : number) : bool :=
  match x with
  | NaN => false
  | NegInf => match y with Num _ => true | PosInf => true | _ => false end
  | Num a => match y with Num b => Qltb a b | PosInf => true | _ => false end
  | PosInf => false
  end.

(** [x >= y]: false as soon as one side is NaN. *)
Definition num_geb (x y : number) : bool :=
  match x, y with
  | NaN, _ => false
  | _, NaN => false
  | _, _ => negb (num_ltb x y)
  end.

End Py.

(** ** Regular expressions, as far as the skip patterns need them *)

Module Regex.
Import Py.

Inductive re : Type :=
| Void
| Eps
| Class (p : char -> bool)
| Cat (r1 r2 : re)
| Alt (r1 r2 : re)
| Star (r : re).

Definition Chr (c : char) : re := Class (N.eqb c).
Definition Plus (r : re) : re := Cat r (Star r).
Definition Opt (r : re) : re := Alt Eps r.

Fixpoint Lit (s : str) : re :=
  match s with
  | [] => Eps
  | c :: s' => Cat (Chr c) (Lit s')
  end.

Fixpoint nullable (r : re) : bool :=
  match r with
  | Void => false
  | Eps => true
  | Class _ => false
  | Cat r1 r2 => nullable r1 && nullable r2
  | Alt r1 r2 => nullable r1 || nullable r2
  | Star _ => true
  end.

Fixpoint deriv (c : char) (r : re) : re :=
  match r with
  | Void => Void
  | Eps => Void
  | Class p => if p c then Eps else Void
  | Cat r1 r2 =>
      if nullable r1 then Alt (Cat (deriv c r1) r2) (deriv c r2)
      else Cat (deriv c r1) r2
  | Alt r1 r2 => Alt (deriv c r1) (deriv c r2)
  | Star r1 => Cat (deriv c r1) (Star r1)
  end.

(** [re.match(r, s)] succeeds: some prefix of [s] is matched by [r]. *)
Fixpoint match_prefix (r : re) (s : str) : bool :=
  nullable r ||
  match s with
  | [] => false
  | c :: s' => match_prefix (deriv c r) s'
  end.

(** [re.match(r + '$', s)] succeeds: [r] matches [s] up to its end, or up
    to a line break that ends [s]. *)
Fixpoint match_dollar (r : re) (s : str) : bool :=
  match s with
  | [] => nullable r
  | c :: s' =>
      (nullable r && str_eqb s [newline]) || match_dollar (deriv c r) s'
  end.

(** A pattern of the code: its body and whether it ends in [$].  All the
    patterns start with [^], which [re.match] implies. *)
Record pattern : Type := { body : re; dollar : bool }.

Definition re_match (p : pattern) (s : str) : bool :=
  if dollar p then match_dollar (body p) s else match_prefix (body p) s.

(** The texts that a regular expression matches as a whole. *)
Inductive matches : re -> str -> Prop :=
| MEps : matches Eps []
| MClass (p : char -> bool) (c : char) : p c = true -> matches (Class p) [c]
| MCat (r1 r2 : re) (s1 s2 : str) :
    matches r1 s1 -> matches r2 s2 -> matches (Cat r1 r2) (s1 ++ s2)
| MAltL (r1 r2 : re) (s : str) : matches r1 s -> matches (Alt r1 r2) s
| MAltR (r1 r2 : re) (s : str) : matches r2 s -> matches (Alt r1 r2) s
| MStar0 (r : re) : matches (Star r) []
| MStarS (r : re) (s1 s2 : str) :
    matches r s1 -> matches (Star r) s2 -> matches (Star r) (s1 ++ s2).

End Regex.

(** ** What the scripts share: ARB documents, Dart files, the lookup *)

Module Dart.
Import Py.

(** A value of an ARB document as [json.load] returns it: a translation
    text, or the metadata object of an [@key] entry. *)
Inductive arb_value : Type :=
| ArbText (text : str)
| ArbMeta (description : str).

Definition squote : char := ch "'".
Definition dquote : char := ch "034".

Definition marker : str := lit "AppLocalizations.of(context)".

(** A source file on disk; [None] stands for a file that cannot be read. *)
Record file : Type := { content : str; writable : bool }.

End Dart.

(** ** flutter_localization_automation.py *)

Module Automator.
Import Py Regex Dart.

Definition create_english_to_key_mapping
    (english_translations : dict arb_value) : dict str :=
  fold_left
    (fun mapping kv =>
       match snd kv with
       | ArbText value =>
           if negb (startswith (lit "@") (fst kv)) then
             let clean_value := strip value in
             match clean_value with
             | [] => mapping
             | _ :: _ => dict_set mapping clean_value (fst kv)
             end
           else mapping
       | ArbMeta _ => mapping
       end)
    english_translations [].

Definition word_class (c : char) : bool := is_digit c || is_upper c || is_lower c.

Definition skip_patterns : list pattern :=
  [ (* ^https?://  *)
    {| body := Cat (Lit (lit "http")) (Cat (Opt (Chr (ch "s"))) (Lit (lit "://")));
       dollar := false |};
    (* ^\d+$ *)
    {| body := Plus (Class is_decimal); dollar := true |};
    (* ^[\d\s\-\+\(\)]+$ *)
    {| body := Plus (Class (fun c => is_decimal c || is_space c || in_chars "-+()" c));
       dollar := true |};
    (* ^[a-zA-Z0-9._%+-]+@[a-zA-Z0-9.-]+\.[a-zA-Z]{2,}$ *)
    {| body :=
         Cat (Plus (Class (fun c => word_class c || in_chars "._%+-" c)))
        (Cat (Chr (ch "@"))
        (Cat (Plus (Class (fun c => word_class c || in_chars ".-" c)))
        (Cat (Chr (ch "."))
        (Cat (Class (fun c => is_upper c || is_lower c))
        (Cat (Class (fun c => is_upper c || is_lower c))
             (Star (Class (fun c => is_upper c || is_lower c))))))));
       dollar := true |};
    (* ^\$\{.*\}$ *)
    {| body := Cat (Lit (lit "${"))
              (Cat (Star (Class (fun c => negb (N.eqb c newline)))) (Chr (ch "}")));
       dollar := true |};
    (* ^[A-Z_][A-Z0-9_]*$ *)
    {| body := Cat (Class (fun c => is_upper c || N.eqb c (ch "_")))
                   (Star (Class (fun c => is_upper c || is_digit c || N.eqb c (ch "_"))));
       dollar := true |};
    (* ^[a-z][a-zA-Z0-9]*$ *)
    {| body := Cat (Class is_lower) (Star (Class word_class)); dollar := true |} ].

Definition should_skip_string (text : str) : bool :=
  if length (strip text) <? 2 then true
  else existsb (fun pattern => re_match pattern (strip text)) skip_patterns.

(** The pattern [rf"'({escaped_text})'"] (or with double quotes):
    [re.escape] makes the text literal, so the pattern matches exactly
    the quote, the text and the quote again. *)
Definition quoted (quote : char) (english_text : str) : str :=
  quote :: english_text ++ [quote].

(** What [replace_func] returns for a match that starts with [quote]. *)
Definition replacement (quote : char) (key english_text : str) : str :=
  marker ++ lit "?." ++ key ++ lit " ?? " ++ quoted quote english_text.

(** One line of the inner loop: [re.sub] with [replace_func] on a line
    that has the literal and no lookup yet; the second component counts
    the calls of [replace_func]. *)
Definition localize_line (quote : char) (english_text key line : str)
  : str * nat :=
  if contains (quoted quote english_text) line && negb (contains marker line)
  then (replace_from (quoted quote english_text)
          (replacement quote key english_text) 0 line,
        count_from (quoted quote english_text) 0 line)
  else (line, 0).

(** One pattern of one catalog entry over the whole content. *)
Definition localize_pattern (quote : char) (english_text key : str)
    (st : str * nat) : str * nat :=
  if contains (quoted quote english_text) (fst st) then
    let new_lines :=
      map (localize_line quote english_text key) (split_lines (fst st)) in
    (join_lines (map fst new_lines),
     fold_left Nat.add (map snd new_lines) (snd st))
  else st.

(** The loop over [english_to_key.items()]: the rewritten content and
    the number of changes. *)
Definition localize_content (english_to_key : dict str) (content : str)
  : str * nat :=
  fold_left
    (fun st tk =>
       localize_pattern dquote (fst tk) (snd tk)
         (localize_pattern squote (fst tk) (snd tk) st))
    english_to_key (content, 0).

Definition apply_localization_to_file (english_translations : dict arb_value)
    (f : option file) (dry_run : bool) : nat * option file :=
  match f with
  | None => (0, f)
  | Some fl =>
      let english_to_key := create_english_to_key_mapping english_translations in
      let res := localize_content english_to_key (content fl) in
      let changes := snd res in
      if (0 <? changes) && negb dry_run then
        if writable fl
        then (changes, Some {| content := fst res; writable := true |})
        else (0, f)
      else (changes, f)
  end.

(** What one pattern, one catalog entry and then all the entries do to
    one line; used to state how [localize_content] acts line by line. *)
Definition pattern_line (q : char) (tk : str * str) (line : str) : str :=
  fst (localize_line q (fst tk) (snd tk) line).

Definition entry_line (tk : str * str) (line : str) : str :=
  pattern_line dquote tk (pattern_line squote tk line).

Definition lines_pass (m : dict str) (line : str) : str :=
  fold_left (fun l tk => entry_line tk l) m line.

End Automator.

(** ** apply_localization_suggestions.py *)

Module Applier.
Import Py Dart.

(** An entry of strings_to_localize.json: three texts and a number; a
    field that the document leaves out is [None]. *)
Record suggestion : Type := {
  value : option str;
  confidence : option number;
  description : option str;
  widget_type : option str
}.

(** An ARB file on disk. *)
Inductive arb_state : Type :=
| Absent
| Malformed
| Doc (arb_data : dict arb_value).

Record arb_file : Type := { arb : arb_state; arb_writable : bool }.

(** [json.load] raises on a malformed document; the handler of
    [load_existing_arb_keys] logs the error and returns the empty set. *)
Definition load_existing_arb_keys (f : arb_file) : list str :=
  match arb f with
  | Absent => []
  | Malformed => []
  | Doc arb_data =>
      filter (fun key => negb (startswith (lit "@@") key)
                         && negb (startswith (lit "@") key))
             (dict_keys arb_data)
  end.

(** The state that [__init__] loads. *)
Record applier : Type := {
  existing_en_keys : list str;
  existing_ru_keys : list str
}.

(** The body of the loop of [filter_high_confidence_suggestions]:
    [false] where the code says [continue]. *)
Definition retained (self : applier) (min_confidence : number)
    (key : str) (data : suggestion) : bool :=
  let confidence := get_default (confidence data) (Num 0) in
  let widget_type := get_default (widget_type data) [] in
  let value := get_default (value data) [] in
  if num_ltb confidence min_confidence then false
  else if contains (lit "${") value || contains (lit "$") value then false
  else if (length (strip value) <? 3)
          && negb (existsb (str_eqb widget_type) [lit "button"; lit "label"])
       then false
  else if isupper value && negb (contains (lit " ") value) then false
  else if existsb (str_eqb key) (existing_en_keys self) then false
  else true.

Definition filter_high_confidence_suggestions (self : applier)
    (suggestions : dict suggestion) (min_confidence : number)
  : dict suggestion :=
  dict_select (retained self min_confidence) suggestions.

(** [re.escape]: a backslash before each character that is special in a
    regular expression. *)
Definition re_special (c : char) : bool :=
  in_chars "()[]{}?*+-|^$\.&~# " c
  || existsb (N.eqb c) [(ch "009"); (ch "010"); (ch "011"); (ch "012"); (ch "013")].

Definition re_escape (s : str) : str :=
  flat_map (fun c => if re_special c then [(ch "\"); c] else [c]) s.

Definition quoted (quote : char) (value : str) : str :=
  quote :: value ++ [quote].

Definition patterns (value : str) : list str :=
  [ re_escape (quoted squote value);
    re_escape (quoted dquote value);
    re_escape (lit "const Text(" ++ squote :: value ++ [squote]);
    re_escape (lit "const Text(" ++ dquote :: value ++ [dquote]);
    re_escape (lit "Text(" ++ squote :: value ++ [squote]);
    re_escape (lit "Text(" ++ dquote :: value ++ [dquote]) ].

Definition replacement (key value : str) : str :=
  marker ++ lit "?." ++ key ++ lit " ?? " ++ quoted squote value.

(** The loop over [patterns], left at the first pattern found in the
    content; [None] when no pattern is found. *)
Fixpoint replace_first_pattern (ps : list str) (key value content : str)
  : option str :=
  match ps with
  | [] => None
  | pattern :: ps' =>
      if contains pattern content then
        if contains (lit "const Text(") pattern then
          let new_pattern := replace (lit "const Text(") (lit "Text(") pattern in
          Some (replace pattern
                  (replace (quoted dquote value) (replacement key value)
                     (replace (quoted squote value) (replacement key value)
                        new_pattern))
                  content)
        else Some (replace pattern (replacement key value) content)
      else replace_first_pattern ps' key value content
  end.

(** The loop over [file_suggestions]; [None] is the [KeyError] of
    [data['value']] or [data['confidence']]. *)
Fixpoint apply_replacements (file_suggestions : dict suggestion)
    (content : str) (changes_made : nat) : option (str * nat) :=
  match file_suggestions with
  | [] => Some (content, changes_made)
  | (key, data) :: rest =>
      match value data, confidence data with
      | Some value, Some _ =>
          match replace_first_pattern (patterns value) key value content with
          | Some content' => apply_replacements rest content' (S changes_made)
          | None => apply_replacements rest content changes_made
          end
      | _, _ => None
      end
  end.

Definition suggestions_of_file (relative_path : str)
    (suggestions : dict suggestion) : dict suggestion :=
  dict_select
    (fun _ data => contains relative_path (get_default (description data) []))
    suggestions.

(** [apply_localization_to_file]; the file is [None] when it does not
    exist.  Every exception ends in the handler that returns 0 and leaves
    the file as it is. *)
Definition apply_localization_to_file (relative_path : str)
    (f : option file) (suggestions : dict suggestion) : nat * option file :=
  match f with
  | None => (0, f)
  | Some fl =>
      match suggestions_of_file relative_path suggestions with
      | [] => (0, f)
      | file_suggestions =>
          match apply_replacements file_suggestions (content fl) 0 with
          | None => (0, f)
          | Some (content', changes_made) =>
              if 0 <? changes_made then
                if writable fl
                then (changes_made, Some {| content := content'; writable := true |})
                else (0, f)
              else (changes_made, f)
          end
      end
  end.

(** The loop of [add_keys_to_arb_file]; [None] is the [KeyError] of
    [data['value']]. *)
Fixpoint add_keys (suggestions : dict suggestion) (locale : str)
    (arb_data : dict arb_value) (keys_added : nat)
  : option (dict arb_value * nat) :=
  match suggestions with
  | [] => Some (arb_data, keys_added)
  | (key, data) :: rest =>
      if negb (dict_mem arb_data key) then
        match value data with
        | None => None
        | Some value =>
            let description := get_default (description data) [] in
            let value :=
              if str_eqb locale (lit "ru") then lit "[RU] " ++ value else value in
            let arb_data := dict_set arb_data key (ArbText value) in
            let arb_data :=
              dict_set arb_data (lit "@" ++ key)
                (ArbMeta (lit "Auto-generated from " ++ description)) in
            add_keys rest locale arb_data (S keys_added)
        end
      else add_keys rest locale arb_data keys_added
  end.

(** The document that [add_keys_to_arb_file] starts from; [None] when
    [json.load] raises. *)
Definition initial_arb_data (f : arb_file) (locale : str)
  : option (dict arb_value) :=
  match arb f with
  | Absent => Some [(lit "@@locale", ArbText locale)]
  | Malformed => None
  | Doc arb_data => Some arb_data
  end.

Definition add_keys_to_arb_file (f : arb_file)
    (suggestions : dict suggestion) (locale : str) : arb_file :=
  match initial_arb_data f locale with
  | None => f
  | Some arb_data =>
      match add_keys suggestions locale arb_data 0 with
      | None => f
      | Some (arb_data', keys_added) =>
          if (0 <? keys_added) && arb_writable f
          then {| arb := Doc arb_data'; arb_writable := true |}
          else f
      end
  end.

(** The project on disk: the Dart files under lib in the order of
    [rglob], the two catalogs, the backup directory, whether the backup
    can be made, and strings_to_localize.json ([None] when it is missing
    or unreadable). *)
Record world : Type := {
  lib : list (str * file);
  en_arb : arb_file;
  ru_arb : arb_file;
  backup : option (list (str * file));
  backup_ok : bool;
  suggestions_doc : option (dict suggestion)
}.

Definition init (w : world) : applier :=
  {| existing_en_keys := load_existing_arb_keys (en_arb w);
     existing_ru_keys := load_existing_arb_keys (ru_arb w) |}.

(** The cap of [apply_suggestions]. *)
Definition limit_changes (filtered_suggestions : dict suggestion)
    (max_changes : Z) : dict suggestion :=
  if (Z.of_nat (length filtered_suggestions) >? max_changes)%Z
  then dict_of_items (slice_to max_changes filtered_suggestions)
  else filtered_suggestions.

Definition rewrite_file (filtered_suggestions : dict suggestion)
    (pf : str * file) : str * file :=
  match snd (apply_localization_to_file (fst pf) (Some (snd pf)) filtered_suggestions) with
  | Some fl => (fst pf, fl)
  | None => pf
  end.

(** [apply_suggestions]; [None] when [create_backup] raises. *)
Definition apply_suggestions (self : applier) (w : world)
    (min_confidence : number) (max_changes : Z) : option world :=
  if backup_ok w then
    let w1 := {| lib := lib w; en_arb := en_arb w; ru_arb := ru_arb w;
                 backup := Some (lib w); backup_ok := true;
                 suggestions_doc := suggestions_doc w |} in
    match suggestions_doc w with
    | None => Some w1
    | Some [] => Some w1
    | Some suggestions =>
        let filtered_suggestions :=
          limit_changes
            (filter_high_confidence_suggestions self suggestions min_confidence)
            max_changes in
        Some {| lib := map (rewrite_file filtered_suggestions) (lib w);
                en_arb := add_keys_to_arb_file (en_arb w) filtered_suggestions (lit "en");
                ru_arb := add_keys_to_arb_file (ru_arb w) filtered_suggestions (lit "ru");
                backup := Some (lib w); backup_ok := true;
                suggestions_doc := suggestions_doc w |}
    end
  else None.

(** A text that [re.escape] leaves as it is. *)
Definition plain (s : str) : bool := forallb (fun c => negb (re_special c)) s.

End Applier.

(** ** fix_localization_issues.py *)

Module Fixer.
Import Py Dart.

(** [s.find(p)], [None] for -1, counted from [i]. *)
Fixpoint find_from (p s : str) (i : nat) : option nat :=
  if startswith p s then Some i
  else match s with
       | [] => None
       | _ :: s' => find_from p s' (S i)
       end.

Definition calculate_import_path (file_path : str) : str :=
  let slashed :=
    map (fun c => if N.eqb c (ch "\") then (ch "/") else c) file_path in
  match find_from (lit "lib/") slashed 0 with
  | None => lit "../l10n/app_localizations.dart"
  | Some lib_index =>
      let path_after_lib := skipn (lib_index + 4) file_path in
      let depth := count_char (ch "/") path_after_lib in
      concat (repeat (lit "../") depth) ++ lit "l10n/app_localizations.dart"
  end.

Definition already_imported (content : str) : bool :=
  contains (lit "import '../l10n/app_localizations.dart'") content
  || contains (lit "import '../../l10n/app_localizations.dart'") content
  || contains (lit "import '../../../l10n/app_localizations.dart'") content
  || contains (lit "import '../../../../l10n/app_localizations.dart'") content.

Definition is_import_line (line : str) : bool :=
  startswith (lit "import ") (strip line).

(** The first loop over [enumerate(lines)]: the index of the last import
    line, from the index [i] on; [acc] is [import_index] so far. *)
Fixpoint last_import_index (lines : list str) (i : nat) (acc : option nat)
  : option nat :=
  match lines with
  | [] => acc
  | line :: rest =>
      last_import_index rest (S i) (if is_import_line line then Some i else acc)
  end.

(** The second loop: the index of the first line that is neither blank
    nor a [//] comment, 0 when there is none. *)
Fixpoint first_code_index (lines : list str) (i : nat) : nat :=
  match lines with
  | [] => 0
  | line :: rest =>
      match strip line with
      | [] => first_code_index rest (S i)
      | _ :: _ =>
          if negb (startswith (lit "//") (strip line)) then i
          else first_code_index rest (S i)
      end
  end.

Definition import_statement (file_path : str) : str :=
  lit "import '" ++ calculate_import_path file_path ++ lit "';".

(** The text that [fix_missing_imports] writes back, [None] when it
    returns before the write. *)
Definition add_import (file_path content : str) : option str :=
  if negb (contains marker content) then None
  else if already_imported content then None
  else
    let lines := split_lines content in
    let import_index :=
      match last_import_index lines 0 None with
      | Some i => i
      | None => first_code_index lines 0
      end in
    Some (join_lines
            (list_insert (import_index + 1) (import_statement file_path) lines)).

Definition fix_missing_imports (file_path : str) (f : option file)
  : nat * option file :=
  match f with
  | None => (0, f)
  | Some fl =>
      match add_import file_path (content fl) with
      | None => (0, f)
      | Some new_content =>
          if writable fl
          then (1, Some {| content := new_content; writable := true |})
          else (0, f)
      end
  end.

End Fixer.

(** ** fix_const_context_issues.py *)

Module ConstFix.
Import Py Dart.

(** The test of "Fix 6" for a line that has a lookup in a const context. *)
Definition const_context_issue (line : str) : bool :=
  (contains (lit "const ") line || contains (lit "static const") line)
  && contains marker line.

End ConstFix.

(** ** The confidence filter as the specification words it *)

Module FilterSpec.
Import Py Applier.

Section Rules.
Variables (reference_keys : list str) (min_confidence : number).
Variables (key : str) (data : suggestion).

Let value_ := get_default (value data) [].
Let widget_type_ := get_default (widget_type data) [].

(** 1. the confidence reaches the threshold:
    [confidence >= min_confidence] *)
Definition rule_confidence : Prop :=
  num_geb (get_default (confidence data) (Num 0)) min_confidence = true.
(** 2. the value has no template-substitution marker *)
Definition rule_no_template_marker : Prop := ~ In (ch "$") value_.
(** 3. at least three characters once trimmed, or a button or a label *)
Definition rule_length : Prop :=
  3 <= length (strip value_) \/ In widget_type_ [lit "button"; lit "label"].
(** 4. not an all-uppercase value without a space *)
Definition rule_not_constant : Prop :=
  ~ (isupper value_ = true /\ ~ In (ch " ") value_).
(** 5. the key is not yet in the reference-locale catalog *)
Definition rule_new_key : Prop := ~ In key reference_keys.

Definition passes_all_rules : Prop :=
  rule_confidence /\ rule_no_template_marker /\ rule_length
  /\ rule_not_constant /\ rule_new_key.
End Rules.

End FilterSpec.

(** ** The skip heuristic as the specification words it *)

Module SkipSpec.
Import Py Automator.

Definition letter (c : char) : bool := is_upper c || is_lower c.

(** URL prefix *)
Definition url_prefix (t : str) : Prop :=
  exists rest, t = lit "http://" ++ rest \/ t = lit "https://" ++ rest.

(** bare integer: decimal digits only *)
Definition bare_integer (t : str) : Prop :=
  t <> [] /\ forallb is_decimal t = true.

(** phone-number-shaped string of digits, blanks and punctuation *)
Definition phone_shaped (t : str) : Prop :=
  t <> []
  /\ forallb (fun c => is_decimal c || is_space c || in_chars "-+()" c) t = true.

(** email address: local part, [@], domain, a dot and a top-level name
    of two letters at least *)
Definition email_address (t : str) : Prop :=
  exists local domain tld,
    t = local ++ (ch "@") :: domain ++ (ch ".") :: tld
    /\ local <> []
    /\ forallb (fun c => word_class c || in_chars "._%+-" c) local = true
    /\ domain <> []
    /\ forallb (fun c => word_class c || in_chars ".-" c) domain = true
    /\ 2 <= length tld
    /\ forallb letter tld = true.

(** template-variable-only content: one line from [${] to [}] *)
Definition template_only (t : str) : Prop :=
  exists inner, t = lit "${" ++ inner ++ lit "}" /\ nl_free inner.

(** ALL-CAPS single-token constant *)
Definition caps_constant (t : str) : Prop :=
  exists c rest,
    t = c :: rest
    /\ (is_upper c || N.eqb c (ch "_")) = true
    /\ forallb (fun c => is_upper c || is_digit c || N.eqb c (ch "_")) rest = true.

(** bare single lower-camel-case identifier *)
Definition lower_camel_identifier (t : str) : Prop :=
  exists c rest,
    t = c :: rest /\ is_lower c = true /\ forallb word_class rest = true.

Definition skip_heuristic (t : str) : Prop :=
  length t < 2
  \/ url_prefix t \/ bare_integer t \/ phone_shaped t \/ email_address t
  \/ template_only t \/ caps_constant t \/ lower_camel_identifier t.

End SkipSpec.

(** ** Sample data *)

Module Sample.
Import Py Dart Applier.

Definition sug (v : string) (c : Q) (d w : string) : suggestion :=
  {| value := Some (lit v); confidence := Some (Num c);
     description := Some (lit d); widget_type := Some (lit w) |}.

Definition save : str * suggestion :=
  (lit "save_button", sug "Save" (95 # 100) "lib/screens/home.dart:12" "button").
Definition cancel : str * suggestion :=
  (lit "cancel_button", sug "Cancel" (9 # 10) "lib/screens/home.dart:13" "button").
Definition welcome : str * suggestion :=
  (lit "welcome", sug "Welcome" (85 # 100) "lib/main.dart:7" "text").
Definition unsure : str * suggestion :=
  (lit "maybe", sug "Maybe" (5 # 10) "lib/main.dart:9" "text").

Definition suggestions : dict suggestion := [save; unsure; cancel; welcome].

Definition fresh : applier := {| existing_en_keys := []; existing_ru_keys := [] |}.

(** A decidable test for a list of keys without repetition. *)
Fixpoint distinct (l : list str) : bool :=
  match l with
  | [] => true
  | k :: l' => negb (existsb (str_eqb k) l') && distinct l'
  end.

(** A screen without imports that already uses the lookup. *)
Definition no_import_lines : list str :=
  [ lit "// Copyright";
    lit "class Home extends StatelessWidget {";
    lit "  build(context) => Text(AppLocalizations.of(context)?.title ?? 'Title');";
    lit "}" ].

Definition no_import_screen : str := join_lines no_import_lines.

(** A project whose reference catalog is not a JSON document. *)
Definition home_dart : file :=
  {| content := lit "child: Text('Save'),"; writable := true |}.

Definition broken_world : world :=
  {| lib := [(lit "lib/screens/home.dart", home_dart)];
     en_arb := {| arb := Malformed; arb_writable := true |};
     ru_arb := {| arb := Absent; arb_writable := true |};
     backup := None;
     backup_ok := true;
     suggestions_doc := Some [save] |}.

(** Catalogs that are out of step before the run: [hello] has no
    Russian entry. *)
Definition en_ahead : arb_file :=
  {| arb := Doc [(lit "@@locale", ArbText (lit "en"));
                 (lit "hello", ArbText (lit "Hello"))];
     arb_writable := true |}.

Definition ru_behind : arb_file :=
  {| arb := Doc [(lit "@@locale", ArbText (lit "ru"))];
     arb_writable := true |}.

Definition english : dict arb_value :=
  [(lit "@@locale", ArbText (lit "en"));
   (lit "save", ArbText (lit "Save"));
   (lit "@save", ArbMeta (lit "Save button"));
   (lit "cancel", ArbText (lit "Cancel"))].

Definition form_dart : file :=
  {| content := join_lines [lit "Text('Save'),"; lit "Text('Other'),"];
     writable := true |}.

(** A catalog file that does not exist yet. *)
Definition no_catalog : arb_file := {| arb := Absent; arb_writable := true |}.

(** A suggestion for a literal that sits in a static const declaration. *)
Definition settings_title : str * suggestion :=
  (lit "settings_title", sug "Settings" (9 # 10) "lib/config.dart:3" "text").

Definition config_dart : file :=
  {| content := lit "static const String title = 'Settings';"; writable := true |}.

(** A widget whose literal is written with double quotes. *)
Definition dq_line : str :=
  lit "child: Text(" ++ Applier.quoted dquote (lit "Save") ++ lit "),".

(** Two source files, one of them named by the sample suggestion. *)
Definition two_screens : world :=
  {| lib := [(lit "lib/screens/home.dart", home_dart);
             (lit "lib/main.dart", home_dart)];
     en_arb := no_catalog; ru_arb := no_catalog;
     backup := None; backup_ok := true;
     suggestions_doc := Some [save] |}.

(** A suggestion whose confidence was written as NaN, and a project
    that holds its literal. *)
Definition unmeasured : str * suggestion :=
  (lit "save_button",
   {| value := Some (lit "Save"); confidence := Some NaN;
      description := Some (lit "lib/screens/home.dart:12");
      widget_type := Some (lit "button") |}).

Definition unmeasured_world : world :=
  {| lib := [(lit "lib/screens/home.dart", home_dart)];
     en_arb := no_catalog; ru_arb := no_catalog;
     backup := None; backup_ok := true;
     suggestions_doc := Some [unmeasured] |}.

(** A project with the literals of the three sample suggestions that
    pass the filter. *)
Definition three_literals : world :=
  {| lib := [(lit "lib/screens/home.dart",
              {| content := join_lines [lit "Text('Save'),"; lit "Text('Cancel'),"];
                 writable := true |});
             (lit "lib/main.dart",
              {| content := lit "Text('Welcome'),"; writable := true |})];
     en_arb := no_catalog; ru_arb := no_catalog;
     backup := None; backup_ok := true;
     suggestions_doc := Some suggestions |}.

End Sample.

(** ** flutter_localization_automation.py: the whole run *)

Module AutomatorRun.
Import Py Dart Automator.

(** [self.stats]; the code never updates the two string counters. *)
Record stats : Type := {
  files_processed : nat;
  files_modified : nat;
  strings_found : nat;
  strings_localized : nat;
  total_changes : nat
}.

Definition no_stats : stats :=
  {| files_processed := 0; files_modified := 0; strings_found := 0;
     strings_localized := 0; total_changes := 0 |}.

(** [find_dart_files] on the list that [glob] returns: [max_files] is
    [None] or an integer, and [if max_files:] is false for both [None]
    and 0. *)
Definition find_dart_files (A : Type) (dart_files : list A)
    (max_files : option Z) : list A :=
  match max_files with
  | Some n => if (n =? 0)%Z then dart_files else slice_to n dart_files
  | None => dart_files
  end.

(** One round of the loop of [run_localization]: the statistics and the
    files written so far. *)
Definition visit (english_translations : dict arb_value) (dry_run : bool)
    (acc : stats * list (option file)) (f : option file)
  : stats * list (option file) :=
  let r := apply_localization_to_file english_translations f dry_run in
  let st := fst acc in
  ({| files_processed := S (files_processed st);
      files_modified :=
        if 0 <? fst r then S (files_modified st) else files_modified st;
      strings_found := strings_found st;
      strings_localized := strings_localized st;
      total_changes :=
        if 0 <? fst r then total_changes st + fst r else total_changes st |},
   snd acc ++ [snd r]).

(** [run_localization] over the Dart files of the source directory, in
    the order of [glob]; the files beyond [max_files] are not opened. *)
Definition run_localization (english_translations : dict arb_value)
    (st : stats) (tree : list (option file)) (max_files : option Z)
    (dry_run : bool) : stats * list (option file) :=
  match english_translations with
  | [] => (st, tree)
  | _ :: _ =>
      let dart_files := find_dart_files tree max_files in
      let r := fold_left (visit english_translations dry_run) dart_files (st, []) in
      (fst r, snd r ++ skipn (length dart_files) tree)
  end.

(** A line on which no pattern of the mapping fires. *)
Definition quiet (m : dict str) (line : str) : Prop :=
  forall tk, In tk m ->
    contains (quoted squote (fst tk)) line && negb (contains marker line) = false
    /\ contains (quoted dquote (fst tk)) line && negb (contains marker line) = false.

End AutomatorRun.

(** ** Helpers to state facts about apply_localization_suggestions.py *)

Module ApplierAux.
Import Py Dart Applier.

(** Every blank of the text comes right after a backslash; [after_bs]
    tells whether the character before the text is a backslash. *)
Fixpoint blanks_escaped (after_bs : bool) (s : str) : bool :=
  match s with
  | [] => true
  | c :: s' =>
      (if N.eqb c (ch " ") then after_bs else true)
      && blanks_escaped (N.eqb c (ch "\")) s'
  end.

(** The text that [add_keys_to_arb_file] stores for a new key. *)
Definition stored_text (locale value : str) : str :=
  if str_eqb locale (lit "ru") then lit "[RU] " ++ value else value.

(** The value that an ARB file holds for a key, [None] when the file is
    absent or malformed or lacks the key. *)
Definition arb_lookup (f : arb_file) (k : str) : option arb_value :=
  match arb f with
  | Doc arb_data => dict_get arb_data k
  | Absent => None
  | Malformed => None
  end.

End ApplierAux.

(** ** flutter_localization_automation.py: loading and extraction *)

Module AutomatorLoad.
Import Py Dart Automator AutomatorRun.

(** [load_translations]: the two dictionaries of the object and the
    returned flag.  The target catalog is only read once the English one
    is loaded; a missing target file is a warning. *)
Definition load_translations (english target : Applier.arb_state)
  : dict arb_value * dict arb_value * bool :=
  match english with
  | Applier.Doc english_translations =>
      match target with
      | Applier.Doc target_translations =>
          (english_translations, target_translations, true)
      | Applier.Malformed => (english_translations, [], false)
      | Applier.Absent => (english_translations, [], true)
      end
  | Applier.Malformed => ([], [], false)
  | Applier.Absent => ([], [], false)
  end.

(** [__init__] and then [run_localization]. *)
Definition load_and_run (english target : Applier.arb_state)
    (tree : list (option file)) (max_files : option Z) (dry_run : bool)
  : stats * list (option file) :=
  run_localization (fst (fst (load_translations english target)))
    no_stats tree max_files dry_run.

End AutomatorLoad.

Module Extractor.
Import Py Regex Dart Automator.

Definition backslash : char := ch "\".

(** A character that is neither the quote [q] nor a backslash. *)
Definition plain_char (q c : char) : bool :=
  negb (N.eqb c q) && negb (N.eqb c backslash).

(** [.] matches every character but the line break *)
Definition any_char (c : char) : bool := negb (N.eqb c newline).

(** The group between the quotes: plain characters, then any number of
    times a backslash with the character after it and plain characters
    again. *)
Definition inside (q : char) : re :=
  Cat (Star (Class (plain_char q)))
      (Star (Cat (Cat (Chr backslash) (Class any_char))
                 (Star (Class (plain_char q))))).

(** The two patterns of [extract_strings_from_file]: the group between
    two single quotes, or between two double quotes. *)
Definition literal_pattern (q : char) : re :=
  Cat (Chr q) (Cat (inside q) (Chr q)).

(** The length of the shortest prefix of [s] that [r] matches.  A
    literal pattern matches at most one prefix of a text (the first
    quote that no backslash escapes ends it), so this is the match of
    [re] at the start of [s]. *)
Fixpoint match_len (r : re) (s : str) : option nat :=
  if nullable r then Some 0
  else match s with
       | [] => None
       | c :: s' => option_map S (match_len (deriv c r) s')
       end.

(** [re.finditer(r, content)] from the position [pos] on, where [s] is
    the rest of the content: the start and the text of each match.
    After a match the search goes on behind it ([skip] characters are
    still to be passed). *)
Fixpoint finditer (r : re) (skip pos : nat) (s : str) : list (nat * str) :=
  match s with
  | [] => []
  | _ :: s' =>
      match skip with
      | S k => finditer r k (S pos) s'
      | O =>
          match match_len r s with
          | Some n => (pos, firstn n s) :: finditer r (n - 1) (S pos) s'
          | None => finditer r 0 (S pos) s'
          end
      end
  end.

(** The body of the inner loop for one match. *)
Definition visit_match (content : str) (m : nat * str) : list (str * nat) :=
  let start := fst m in
  let text := removelast (tl (snd m)) in
  let line_num := count_char newline (firstn start content) + 1 in
  if contains marker (skipn (start - 100) (firstn start content)) then []
  else if should_skip_string text then []
  else [(text, line_num)].

Definition extract_with (q : char) (content : str) : list (str * nat) :=
  flat_map (visit_match content) (finditer (literal_pattern q) 0 0 content).

Definition extract_strings (content : str) : list (str * nat) :=
  extract_with squote content ++ extract_with dquote content.

(** [extract_strings_from_file]; [None] is a file that cannot be read. *)
Definition extract_strings_from_file (f : option file) : list (str * nat) :=
  match f with
  | None => []
  | Some fl => extract_strings (content fl)
  end.

(** A text without a quote of either kind. *)
Definition quote_free (s : str) : Prop := ~ In squote s /\ ~ In dquote s.

End Extractor.

(** * Properties *)

(** ** Strings and dictionaries *)

Section PyFacts.
Import Py.

Lemma str_eqb_eq (a b : str) : str_eqb a b = true <-> a = b.
Proof.
  revert b. induction a as [|x a IH]; intros [|y b].
  - split; reflexivity.
  - change (str_eqb [] (y :: b)) with false. split; discriminate.
  - change (str_eqb (x :: a) []) with false. split; discriminate.
  - change (str_eqb (x :: a) (y :: b)) with (N.eqb x y && str_eqb a b).
    rewrite andb_true_iff, N.eqb_eq, IH. split.
    + now intros [-> ->].
    + intros H. inversion H. tauto.
Qed.

Lemma str_eqb_refl (a : str) : str_eqb a a = true.
Proof. now apply str_eqb_eq. Qed.

Lemma str_eqb_neq (a b : str) : str_eqb a b = false <-> a <> b.
Proof.
  rewrite <- str_eqb_eq. destruct (str_eqb a b); split; congruence.
Qed.

Lemma existsb_str_eqb (k : str) (l : list str) :
  existsb (str_eqb k) l = true <-> In k l.
Proof.
  rewrite existsb_exists; split.
  - intros [x [Hin Heq]]. apply str_eqb_eq in Heq. now subst.
  - intros Hin. exists k. split; [assumption | apply str_eqb_refl].
Qed.

Lemma startswith_app (p s : str) : startswith p (p ++ s) = true.
Proof.
  induction p as [|a p IH]; simpl; [reflexivity|].
  now rewrite N.eqb_refl, IH.
Qed.

Lemma startswith_iff (p s : str) :
  startswith p s = true <-> exists r, s = p ++ r.
Proof.
  split.
  - revert s. induction p as [|a p IH]; intros s H.
    + now exists s.
    + destruct s as [|b s]; simpl in H; [discriminate|].
      apply andb_true_iff in H. destruct H as [Hab Hps].
      apply N.eqb_eq in Hab. subst b.
      destruct (IH _ Hps) as [r ->]. now exists r.
  - intros [r ->]. apply startswith_app.
Qed.

Lemma contains_startswith (p s : str) :
  startswith p s = true -> contains p s = true.
Proof. intros H. destruct s; simpl; now rewrite H. Qed.

Lemma contains_iff (p s : str) :
  contains p s = true <-> exists a b, s = a ++ p ++ b.
Proof.
  split.
  - induction s as [|c s IH]; simpl; intros H.
    + rewrite orb_false_r in H. apply startswith_iff in H.
      destruct H as [r Hr]. now exists [], r.
    + apply orb_true_iff in H. destruct H as [H|H].
      * apply startswith_iff in H. destruct H as [r Hr]. now exists [], r.
      * destruct (IH H) as [a [b ->]]. now exists (c :: a), b.
  - intros [a [b ->]]. induction a as [|c a IH]; simpl.
    + apply contains_startswith, startswith_app.
    + rewrite IH. apply orb_true_r.
Qed.

Lemma contains_app_r (p a s : str) :
  contains p s = true -> contains p (a ++ s) = true.
Proof.
  intros H. apply contains_iff in H. destruct H as [x [y ->]].
  apply contains_iff. exists (a ++ x), y. now rewrite <- app_assoc.
Qed.

Lemma contains_app_l (p s b : str) :
  contains p s = true -> contains p (s ++ b) = true.
Proof.
  intros H. apply contains_iff in H. destruct H as [x [y ->]].
  apply contains_iff. exists x, (y ++ b). now rewrite <- !app_assoc.
Qed.

Section DictFacts.
Variable V : Type.
Implicit Types (d acc : dict V) (k : str) (v : V).

Lemma dict_mem_In d k : dict_mem d k = true <-> In k (dict_keys d).
Proof.
  unfold dict_mem, dict_keys. rewrite existsb_exists, in_map_iff. split.
  - intros [kv [Hin Heq]]. apply str_eqb_eq in Heq. exists kv. now split.
  - intros [kv [Heq Hin]]. exists kv. split; [assumption|].
    apply str_eqb_eq. now symmetry.
Qed.

Lemma dict_mem_false d k : dict_mem d k = false <-> ~ In k (dict_keys d).
Proof.
  rewrite <- dict_mem_In. destruct (dict_mem d k); split; congruence.
Qed.

Lemma dict_set_fresh d k v :
  ~ In k (dict_keys d) -> dict_set d k v = d ++ [(k, v)].
Proof.
  induction d as [|[k' v'] d IH]; simpl; intros Hn; [reflexivity|].
  destruct (str_eqb k k') eqn:E.
  - apply str_eqb_eq in E. subst. tauto.
  - rewrite IH; [reflexivity | tauto].
Qed.

Lemma dict_set_keys_present d k v :
  In k (dict_keys d) -> dict_keys (dict_set d k v) = dict_keys d.
Proof.
  induction d as [|[k' v'] d IH]; simpl; intros Hin; [tauto|].
  destruct (str_eqb k k') eqn:E; simpl; [reflexivity|].
  apply str_eqb_neq in E. f_equal. apply IH. destruct Hin; congruence.
Qed.

Lemma dict_set_keys_incl d k v k' :
  In k' (dict_keys d) -> In k' (dict_keys (dict_set d k v)).
Proof.
  intros Hin. destruct (in_dec (list_eq_dec N.eq_dec) k (dict_keys d)) as [Hk|Hk].
  - now rewrite dict_set_keys_present.
  - rewrite dict_set_fresh by assumption. unfold dict_keys.
    rewrite map_app. apply in_or_app. now left.
Qed.

Lemma dict_set_keys_new d k v : In k (dict_keys (dict_set d k v)).
Proof.
  destruct (in_dec (list_eq_dec N.eq_dec) k (dict_keys d)) as [Hk|Hk].
  - now rewrite dict_set_keys_present.
  - rewrite dict_set_fresh by assumption. unfold dict_keys.
    rewrite map_app. apply in_or_app. right. simpl. now left.
Qed.

Lemma dict_set_keys_inv d k v k' :
  In k' (dict_keys (dict_set d k v)) -> k' = k \/ In k' (dict_keys d).
Proof.
  destruct (in_dec (list_eq_dec N.eq_dec) k (dict_keys d)) as [Hk|Hk].
  - rewrite dict_set_keys_present by assumption. tauto.
  - rewrite dict_set_fresh by assumption. unfold dict_keys.
    rewrite map_app. intros H. apply in_app_or in H. simpl in H.
    destruct H as [H|[H|[]]]; [now right | now left].
Qed.

Lemma dict_set_NoDup d k v :
  NoDup (dict_keys d) -> NoDup (dict_keys (dict_set d k v)).
Proof.
  intros Hnd. destruct (in_dec (list_eq_dec N.eq_dec) k (dict_keys d)) as [Hk|Hk].
  - now rewrite dict_set_keys_present.
  - rewrite dict_set_fresh by assumption. unfold dict_keys in *.
    rewrite map_app. simpl. apply NoDup_app; [assumption | repeat constructor; intros [] | ].
    intros x Hx [Hx'|[]]. subst. contradiction.
Qed.

Variable keep : str -> V -> bool.

Let step acc (kv : str * V) :=
  if keep (fst kv) (snd kv) then dict_set acc (fst kv) (snd kv) else acc.

Lemma select_fold d : forall acc,
  NoDup (dict_keys (acc ++ d)) ->
  fold_left step d acc = acc ++ filter (fun kv => keep (fst kv) (snd kv)) d.
Proof.
  induction d as [|[k v] d IH]; intros acc Hnd; simpl.
  - now rewrite app_nil_r.
  - unfold step at 2. simpl.
    assert (Hk : ~ In k (dict_keys acc)).
    { unfold dict_keys in *. rewrite map_app in Hnd. simpl in Hnd.
      apply NoDup_remove_2 in Hnd. intros Hin. apply Hnd.
      apply in_or_app. now left. }
    destruct (keep k v).
    + rewrite dict_set_fresh by assumption.
      rewrite IH.
      * rewrite <- app_assoc. reflexivity.
      * rewrite <- app_assoc. exact Hnd.
    + apply IH. unfold dict_keys in *. rewrite map_app in *. simpl in Hnd.
      now apply NoDup_remove_1 in Hnd.
Qed.

Lemma dict_select_filter d :
  NoDup (dict_keys d) ->
  dict_select keep d = filter (fun kv => keep (fst kv) (snd kv)) d.
Proof. intros Hnd. exact (select_fold d [] Hnd). Qed.

Lemma select_fold_NoDup d : forall acc,
  NoDup (dict_keys acc) -> NoDup (dict_keys (fold_left step d acc)).
Proof.
  induction d as [|[k v] d IH]; intros acc Hnd; simpl; [assumption|].
  apply IH. unfold step. simpl. destruct (keep k v); [|assumption].
  now apply dict_set_NoDup.
Qed.

Lemma dict_select_NoDup d : NoDup (dict_keys (dict_select keep d)).
Proof. apply select_fold_NoDup. constructor. Qed.
End DictFacts.

Lemma dict_of_items_id (V : Type) (items : list (str * V)) :
  NoDup (dict_keys items) -> dict_of_items items = items.
Proof.
  intros Hnd.
  change (dict_of_items items) with (dict_select (fun _ _ => true) items).
  rewrite dict_select_filter by assumption.
  induction items as [|kv items IH]; simpl; [reflexivity|].
  f_equal. apply IH. now inversion Hnd.
Qed.

Lemma NoDup_firstn (A : Type) (n : nat) (l : list A) :
  NoDup l -> NoDup (firstn n l).
Proof.
  revert l. induction n as [|n IH]; intros [|x l] H; simpl; try constructor.
  - inversion H; subst. intros Hin. apply H2.
    rewrite <- (firstn_skipn n l). apply in_or_app. now left.
  - apply IH. now inversion H.
Qed.

End PyFacts.

(** ** The confidence filter and the cap (apply_localization_suggestions.py) *)

Section FilterFacts.
Import Py Dart Applier.

Lemma distinct_NoDup (l : list str) : Sample.distinct l = true -> NoDup l.
Proof.
  induction l as [|k l IH]; simpl; intros H; constructor.
  - apply andb_true_iff in H. destruct H as [H _].
    apply negb_true_iff in H. intros Hin.
    apply existsb_str_eqb in Hin. congruence.
  - apply IH. apply andb_true_iff in H. tauto.
Qed.

Lemma contains_char (c : char) (s : str) : contains [c] s = true <-> In c s.
Proof.
  rewrite contains_iff. split.
  - intros [a [b ->]]. apply in_or_app. right. now left.
  - intros Hin. apply in_split in Hin. destruct Hin as [a [b ->]]. now exists a, b.
Qed.

Lemma contains_char_false (c : char) (s : str) :
  contains [c] s = false <-> ~ In c s.
Proof. rewrite <- contains_char. destruct (contains [c] s); split; congruence. Qed.

Lemma contains_template_marker (s : str) :
  contains (lit "${") s || contains (lit "$") s = contains (lit "$") s.
Proof.
  destruct (contains (lit "${") s) eqn:E; [|reflexivity]. simpl. symmetry.
  apply contains_iff in E. destruct E as [a [b ->]].
  apply contains_iff. exists a, ((ch "{") :: b). reflexivity.
Qed.

Lemma Qltb_false (x y : Q) : Qltb x y = false <-> (y <= x)%Q.
Proof.
  unfold Qltb. rewrite negb_false_iff. apply Qle_bool_iff.
Qed.

(** On numbers that are not NaN, [>=] is the negation of [<]. *)
Lemma num_geb_ltb (x y : number) :
  x <> NaN -> y <> NaN -> num_geb x y = negb (num_ltb x y).
Proof. destruct x, y; intros Hx Hy; try reflexivity; congruence. Qed.

(** The tests of the loop body, one by one. *)
Lemma retained_tests (self : applier) (min_confidence : number) (key : str)
    (data : suggestion) :
  retained self min_confidence key data = true <->
  num_ltb (get_default (confidence data) (Num 0)) min_confidence = false
  /\ FilterSpec.rule_no_template_marker data
  /\ FilterSpec.rule_length data
  /\ FilterSpec.rule_not_constant data
  /\ FilterSpec.rule_new_key (existing_en_keys self) key.
Proof.
  unfold retained, FilterSpec.rule_no_template_marker, FilterSpec.rule_length,
    FilterSpec.rule_not_constant, FilterSpec.rule_new_key.
  rewrite contains_template_marker.
  set (c := get_default (confidence data) (Num 0)).
  set (v := get_default (value data) []).
  set (w := get_default (widget_type data) []).
  destruct (num_ltb c min_confidence) eqn:E1.
  { split; [discriminate|]. intros [H _]. discriminate. }
  destruct (contains (lit "$") v) eqn:E2.
  { split; [discriminate|]. intros [_ [H _]]. apply contains_char in E2. tauto. }
  apply contains_char_false in E2.
  destruct ((length (strip v) <? 3)
            && negb (existsb (str_eqb w) [lit "button"; lit "label"])) eqn:E3.
  { split; [discriminate|]. intros [_ [_ [H _]]].
    apply andb_true_iff in E3. destruct E3 as [E3 E4].
    apply Nat.ltb_lt in E3. apply negb_true_iff in E4.
    destruct H as [H|H]; [lia|]. apply existsb_str_eqb in H. congruence. }
  assert (H3 : 3 <= length (strip v) \/ In w [lit "button"; lit "label"]).
  { apply andb_false_iff in E3. destruct E3 as [E3|E3].
    - left. apply Nat.ltb_ge in E3. exact E3.
    - right. apply negb_false_iff in E3. now apply existsb_str_eqb. }
  destruct (isupper v && negb (contains (lit " ") v)) eqn:E4.
  { split; [discriminate|]. intros [_ [_ [_ [H _]]]]. exfalso. apply H.
    apply andb_true_iff in E4. destruct E4 as [E4 E5]. split; [assumption|].
    apply negb_true_iff in E5. now apply contains_char_false. }
  assert (H4 : ~ (isupper v = true /\ ~ In (ch " ") v)).
  { intros [Hu Hs]. apply contains_char_false in Hs.
    change (contains (lit " ") v) with (contains [(ch " ")] v) in E4.
    rewrite Hu, Hs in E4. discriminate. }
  destruct (existsb (str_eqb key) (existing_en_keys self)) eqn:E5.
  { split; [discriminate|]. intros [_ [_ [_ [_ H]]]].
    apply existsb_str_eqb in E5. tauto. }
  split; [|reflexivity]. intros _. repeat split; try assumption.
  intros Hin. apply existsb_str_eqb in Hin. congruence.
Qed.

(** When the confidence and the threshold are not NaN, the loop body
    keeps a suggestion exactly when the five rules hold. *)
Lemma retained_rules (self : applier) (min_confidence : number) (key : str)
    (data : suggestion) :
  min_confidence <> NaN -> confidence data <> Some NaN ->
  retained self min_confidence key data = true <->
  FilterSpec.passes_all_rules (existing_en_keys self) min_confidence key data.
Proof.
  intros Hm Hc. rewrite retained_tests.
  unfold FilterSpec.passes_all_rules, FilterSpec.rule_confidence.
  assert (Hn : get_default (confidence data) (Num 0) <> NaN).
  { destruct (confidence data) as [c|]; simpl; congruence. }
  rewrite (num_geb_ltb Hn Hm), negb_true_iff. tauto.
Qed.

Lemma filter_is_filter (self : applier) (suggestions : dict suggestion)
    (min_confidence : number) :
  NoDup (dict_keys suggestions) ->
  filter_high_confidence_suggestions self suggestions min_confidence
  = filter (fun kd => retained self min_confidence (fst kd) (snd kd)) suggestions.
Proof. apply dict_select_filter. Qed.

(** A dictionary holds one entry for a key. *)
Lemma dict_entry_unique (V : Type) (d : dict V) (k : str) (v v' : V) :
  NoDup (dict_keys d) -> In (k, v) d -> In (k, v') d -> v = v'.
Proof.
  induction d as [|[k0 v0] d IH]; [contradiction|].
  unfold dict_keys. simpl. intros Hnd Hin Hin'.
  inversion Hnd as [|? ? Hnot Hnd']; subst.
  destruct Hin as [Hin|Hin]; destruct Hin' as [Hin'|Hin'].
  - congruence.
  - inversion Hin; subst. exfalso. apply Hnot.
    apply in_map_iff. now exists (k, v').
  - inversion Hin'; subst. exfalso. apply Hnot.
    apply in_map_iff. now exists (k, v).
  - now apply IH.
Qed.

(** The cap on a dictionary, for a cap that is not negative. *)
Lemma limit_changes_firstn (filtered : dict suggestion) (max_changes : Z) :
  NoDup (dict_keys filtered) -> (0 <= max_changes)%Z ->
  limit_changes filtered max_changes = firstn (Z.to_nat max_changes) filtered.
Proof.
  intros Hnd Hmax. unfold limit_changes.
  destruct (Z.of_nat (length filtered) >? max_changes)%Z eqn:E.
  - unfold slice_to. apply Z.leb_le in Hmax. rewrite Hmax.
    apply dict_of_items_id. unfold dict_keys in *.
    rewrite <- firstn_map. now apply NoDup_firstn.
  - symmetry. apply firstn_all2.
    rewrite Z.gtb_ltb in E. apply Z.ltb_ge in E. lia.
Qed.

(** C4, the failing input: a suggestion whose confidence is NaN is not
    below the threshold 0.8 for the test of the loop, so the filter keeps
    it and the run applies it, although its confidence does not reach the
    threshold. *)
Theorem nan_confidence_is_retained :
  filter_high_confidence_suggestions (init Sample.unmeasured_world)
    [Sample.unmeasured] (8 # 10)%Q
  = [Sample.unmeasured]
  /\ ~ FilterSpec.rule_confidence (8 # 10)%Q (snd Sample.unmeasured)
  /\ exists w',
      apply_suggestions (init Sample.unmeasured_world) Sample.unmeasured_world
        (8 # 10)%Q 50%Z = Some w'
      /\ lib w'
         = [(lit "lib/screens/home.dart",
             {| content :=
                  lit "child: Text(AppLocalizations.of(context)?.save_button ?? 'Save'),";
                writable := true |})].
Proof.
  split; [vm_compute; reflexivity|]. split; [vm_compute; discriminate|].
  vm_compute. eexists. split; reflexivity.
Qed.

(** C8, the failing input: with the cap -1 and three accepted
    suggestions the run applies two of them, the first two: both catalogs
    get their keys and the file that holds their literals is rewritten. *)
Theorem negative_cap_applies_suggestions :
  filter_high_confidence_suggestions (init Sample.three_literals)
    Sample.suggestions (8 # 10)%Q
  = [Sample.save; Sample.cancel; Sample.welcome]
  /\ exists w',
      apply_suggestions (init Sample.three_literals) Sample.three_literals
        (8 # 10)%Q (-1)%Z = Some w'
      /\ load_existing_arb_keys (en_arb w')
         = [lit "save_button"; lit "cancel_button"]
      /\ load_existing_arb_keys (ru_arb w')
         = [lit "save_button"; lit "cancel_button"]
      /\ lib w'
         = [(lit "lib/screens/home.dart",
             {| content :=
                  join_lines
                    [lit "Text(AppLocalizations.of(context)?.save_button ?? 'Save'),";
                     lit "Text(AppLocalizations.of(context)?.cancel_button ?? 'Cancel'),"];
                writable := true |});
            (lit "lib/main.dart",
             {| content := lit "Text('Welcome'),"; writable := true |})].
Proof.
  split; [vm_compute; reflexivity|].
  vm_compute. eexists. repeat split; reflexivity.
Qed.

End FilterFacts.

(** ** Dry run (flutter_localization_automation.py) *)

Section DryRun.
Import Py Dart Automator.

(** C10: a dry run leaves the file as it is and returns the number of
    changes that the rewrite computes; a real run on the same input
    returns the same number, unless its write fails and it returns 0. *)
Theorem dry_run_pure (english_translations : dict arb_value) (f : option file) :
  snd (apply_localization_to_file english_translations f true) = f
  /\ fst (apply_localization_to_file english_translations f true)
     = match f with
       | None => 0
       | Some fl =>
           snd (localize_content
                  (create_english_to_key_mapping english_translations)
                  (content fl))
       end
  /\ (fst (apply_localization_to_file english_translations f false)
      = fst (apply_localization_to_file english_translations f true)
      \/ exists fl, f = Some fl /\ writable fl = false
                    /\ fst (apply_localization_to_file english_translations f false) = 0).
Proof.
  destruct f as [fl|]; simpl.
  - rewrite andb_false_r. simpl. repeat split.
    destruct (0 <? snd (localize_content
                 (create_english_to_key_mapping english_translations) (content fl)));
      simpl; [|now left].
    destruct (writable fl) eqn:W; simpl; [now left|].
    right. exists fl. repeat split. exact W.
  - repeat split. now left.
Qed.

(** The sample file has one literal of the catalog: the dry run reports
    one change and writes nothing, the real run writes the lookup. *)
Example dry_run_sample :
  apply_localization_to_file Sample.english (Some Sample.form_dart) true
  = (1, Some Sample.form_dart)
  /\ apply_localization_to_file Sample.english (Some Sample.form_dart) false
     = (1, Some {| content :=
                     join_lines
                       [lit "Text(AppLocalizations.of(context)?.save ?? 'Save'),";
                        lit "Text('Other'),"];
                   writable := true |}).
Proof. split; vm_compute; reflexivity. Qed.

End DryRun.

(** ** Missing imports (fix_localization_issues.py) *)

Section Imports.
Import Py Dart Fixer.

(** The relative path climbs once per directory between lib and the file. *)
Lemma calculate_import_path_under_lib (rest : str) :
  calculate_import_path (lit "lib/" ++ rest)
  = concat (repeat (lit "../") (count_char (ch "/") rest))
    ++ lit "l10n/app_localizations.dart".
Proof. reflexivity. Qed.

(** C6, the failing input: in a file without imports whose first line is
    a comment, the import is written after the first line of code, inside
    the class, and not before it. *)
Theorem fix_missing_imports_after_first_code_line :
  fix_missing_imports (lit "lib/screens/home.dart")
    (Some {| content := Sample.no_import_screen; writable := true |})
  = (1, Some {| content :=
                  join_lines
                    [ lit "// Copyright";
                      lit "class Home extends StatelessWidget {";
                      lit "import '../l10n/app_localizations.dart';";
                      lit "  build(context) => Text(AppLocalizations.of(context)?.title ?? 'Title');";
                      lit "}" ];
                writable := true |}).
Proof. vm_compute. reflexivity. Qed.

End Imports.

(** ** The catalogs (apply_localization_suggestions.py) *)

Section CatalogFacts.
Import Py Dart Applier ApplierAux.

Lemma startswith_at_at (k : str) :
  negb (startswith (lit "@@") k) && negb (startswith (lit "@") k)
  = negb (startswith (lit "@") k).
Proof.
  destruct (startswith (lit "@") k) eqn:E; cbn [negb]; [apply andb_false_r|].
  rewrite andb_true_r.
  destruct (startswith (lit "@@") k) eqn:E2; [|reflexivity].
  apply startswith_iff in E2. destruct E2 as [r ->].
  assert (H : startswith (lit "@") (lit "@@" ++ r) = true).
  { apply startswith_iff. exists ((ch "@") :: r). reflexivity. }
  congruence.
Qed.

(** The keys that [load_existing_arb_keys] returns for a document. *)
Lemma loaded_keys_doc (d : dict arb_value) (wr : bool) (k : str) :
  In k (load_existing_arb_keys {| arb := Doc d; arb_writable := wr |})
  <-> In k (dict_keys d) /\ startswith (lit "@") k = false.
Proof.
  unfold load_existing_arb_keys. cbn [arb]. rewrite filter_In. cbv beta.
  rewrite startswith_at_at, negb_true_iff. tauto.
Qed.

Lemma add_keys_spec (suggestions : dict suggestion) (locale : str) :
  forall d n d' n',
    add_keys suggestions locale d n = Some (d', n') ->
    (forall k, In k (dict_keys d) -> In k (dict_keys d'))
    /\ (forall k, In k (dict_keys suggestions) -> In k (dict_keys d'))
    /\ (forall k, In k (dict_keys d') ->
          In k (dict_keys d) \/ In k (dict_keys suggestions)
          \/ startswith (lit "@") k = true)
    /\ n <= n' /\ (n' = n -> d' = d).
Proof.
  induction suggestions as [|[key data] rest IH]; intros d n d' n' H; simpl in H.
  - inversion H; subst. repeat split; auto. intros k [].
  - destruct (dict_mem d key) eqn:Hmem; simpl in H.
    + apply IH in H. destruct H as [H1 [H2 [H3 [H4 H5]]]].
      apply dict_mem_In in Hmem.
      repeat split; auto.
      * intros k [Hk|Hk]; [subst; simpl; auto | auto].
      * intros k Hk. destruct (H3 k Hk) as [?|[?|?]]; auto.
        right. left. now right.
    + destruct (value data) as [v|]; [|discriminate].
      apply IH in H. destruct H as [H1 [H2 [H3 [H4 H5]]]].
      repeat split.
      * intros k Hk. apply H1. now do 2 apply dict_set_keys_incl.
      * intros k [Hk|Hk]; [|auto]. simpl in Hk. subst k.
        apply H1. apply dict_set_keys_incl. apply dict_set_keys_new.
      * intros k Hk. destruct (H3 k Hk) as [Hd|[Hr|Hat]].
        -- apply dict_set_keys_inv in Hd. destruct Hd as [->|Hd].
           ++ right. right. reflexivity.
           ++ apply dict_set_keys_inv in Hd. destruct Hd as [->|Hd].
              ** right. left. now left.
              ** now left.
        -- right. left. now right.
        -- now right; right.
      * lia.
      * intros ->. lia.
Qed.

Lemma add_keys_total (suggestions : dict suggestion) (locale : str) :
  (forall key data, In (key, data) suggestions -> value data <> None) ->
  forall d n, exists d' n', add_keys suggestions locale d n = Some (d', n').
Proof.
  induction suggestions as [|[key data] rest IH]; intros Hv d n; simpl.
  - now exists d, n.
  - assert (Hrest : forall key data, In (key, data) rest -> value data <> None).
    { intros k0 d0 Hin. apply (Hv k0 d0). now right. }
    destruct (dict_mem d key); simpl.
    + now apply IH.
    + destruct (value data) as [v|] eqn:Ev.
      * now apply IH.
      * exfalso. apply (Hv key data); [now left | assumption].
Qed.

(** A translation key of the updated file was one before or is the key
    of a suggestion. *)
Lemma updated_keys_origin (f : arb_file) (suggestions : dict suggestion)
    (locale k : str) :
  In k (load_existing_arb_keys (add_keys_to_arb_file f suggestions locale)) ->
  In k (load_existing_arb_keys f)
  \/ (In k (dict_keys suggestions) /\ startswith (lit "@") k = false).
Proof.
  unfold add_keys_to_arb_file.
  destruct (initial_arb_data f locale) as [d|] eqn:Ei; [|now left].
  destruct (add_keys suggestions locale d 0) as [[d' n']|] eqn:Ea; [|now left].
  destruct ((0 <? n') && arb_writable f); [|now left].
  intros Hk. apply loaded_keys_doc in Hk. destruct Hk as [Hk Hat].
  apply add_keys_spec in Ea. destruct Ea as [_ [_ [H3 _]]].
  destruct (H3 k Hk) as [Hd|[Hs|Hat']]; [| now right | congruence].
  left. destruct f as [[| |d0] wr]; unfold initial_arb_data in Ei; simpl in Ei.
  - inversion Ei; subst. simpl in Hd. destruct Hd as [<-|[]]. discriminate.
  - discriminate.
  - inversion Ei; subst. now apply loaded_keys_doc.
Qed.

(** On a readable and writable file, with a value in every suggestion,
    the old translation keys stay and the keys of the suggestions are
    there after the update. *)
Lemma updated_keys_complete (f : arb_file) (suggestions : dict suggestion)
    (locale k : str) :
  arb f <> Malformed -> arb_writable f = true ->
  (forall key data, In (key, data) suggestions -> value data <> None) ->
  In k (load_existing_arb_keys f)
  \/ (In k (dict_keys suggestions) /\ startswith (lit "@") k = false) ->
  In k (load_existing_arb_keys (add_keys_to_arb_file f suggestions locale)).
Proof.
  intros Hread Hwr Hv Hk. unfold add_keys_to_arb_file.
  destruct (initial_arb_data f locale) as [d|] eqn:Ei.
  2:{ destruct f as [[| |d0] wr]; simpl in *; try discriminate. congruence. }
  destruct (@add_keys_total suggestions locale Hv d 0) as [d' [n' Ea]]. rewrite Ea.
  pose proof (@add_keys_spec _ _ _ _ _ _ Ea) as [H1 [H2 [_ [_ H5]]]].
  rewrite Hwr, andb_true_r.
  assert (Hinit : In k (load_existing_arb_keys f) ->
                  In k (dict_keys d) /\ startswith (lit "@") k = false).
  { destruct f as [[| |d0] wr]; unfold initial_arb_data in Ei; simpl in *.
    - intros [].
    - congruence.
    - inversion Ei; subst. intros H. now apply loaded_keys_doc in H. }
  destruct (0 <? n') eqn:En.
  - apply loaded_keys_doc. destruct Hk as [Hk|[Hk Hat]].
    + apply Hinit in Hk. split; [apply H1|]; tauto.
    + split; [now apply H2 | assumption].
  - apply Nat.ltb_ge in En. assert (n' = 0) by lia. subst n'.
    specialize (H5 eq_refl). subst d'.
    destruct Hk as [Hk|[Hk Hat]]; [assumption|].
    apply H2 in Hk.
    destruct f as [[| |d0] wr]; unfold initial_arb_data in Ei; simpl in *.
    + inversion Ei; subst. simpl in Hk. destruct Hk as [<-|[]]. discriminate.
    + congruence.
    + inversion Ei; subst. apply loaded_keys_doc. now split.
Qed.

Lemma dict_get_set_same (V : Type) (d : dict V) (k : str) (v : V) :
  dict_get (dict_set d k v) k = Some v.
Proof.
  induction d as [|[k' v'] d IH]; simpl.
  - now rewrite str_eqb_refl.
  - destruct (str_eqb k k') eqn:E; simpl; rewrite E; [reflexivity | exact IH].
Qed.

Lemma dict_get_set_other (V : Type) (d : dict V) (k k' : str) (v : V) :
  k' <> k -> dict_get (dict_set d k v) k' = dict_get d k'.
Proof.
  intros Hne. induction d as [|[k0 v0] d IH]; simpl.
  - apply str_eqb_neq in Hne. now rewrite Hne.
  - destruct (str_eqb k k0) eqn:E; simpl.
    + apply str_eqb_eq in E. subst k0.
      apply str_eqb_neq in Hne. now rewrite Hne.
    + destruct (str_eqb k' k0); [reflexivity | exact IH].
Qed.

Lemma at_key_differs (k key : str) :
  startswith (lit "@") k = false -> k <> lit "@" ++ key.
Proof. intros H ->. discriminate H. Qed.

(** What the loop has stored under a key that does not start with [@]
    stays to the end of the loop. *)
Lemma add_keys_keeps (suggestions : dict suggestion) (locale k : str) :
  startswith (lit "@") k = false ->
  forall d n d' n',
    add_keys suggestions locale d n = Some (d', n') ->
    In k (dict_keys d) -> dict_get d' k = dict_get d k.
Proof.
  intros Hat. induction suggestions as [|[key data] rest IH];
    intros d n d' n' H Hin; simpl in H.
  - now inversion H.
  - destruct (dict_mem d key) eqn:Hmem; simpl in H; [now apply (IH _ _ _ _ H)|].
    destruct (value data) as [v|]; [|discriminate].
    apply dict_mem_false in Hmem.
    assert (Hk : k <> key) by (intros ->; contradiction).
    rewrite (IH _ _ _ _ H).
    + rewrite dict_get_set_other by now apply at_key_differs.
      now rewrite dict_get_set_other.
    + now do 2 apply dict_set_keys_incl.
Qed.

Lemma add_keys_present (suggestions : dict suggestion) (locale : str) :
  forall d n,
    (forall k, In k (dict_keys suggestions) -> In k (dict_keys d)) ->
    add_keys suggestions locale d n = Some (d, n).
Proof.
  induction suggestions as [|[key data] rest IH]; intros d n H; simpl;
    [reflexivity|].
  assert (Hm : dict_mem d key = true).
  { apply dict_mem_In. apply H. now left. }
  rewrite Hm. simpl. apply IH. intros k Hk. apply H. now right.
Qed.

Lemma loaded_keys_in_doc (f : arb_file) (k : str) :
  In k (load_existing_arb_keys f) ->
  exists d, arb f = Doc d /\ In k (dict_keys d)
            /\ startswith (lit "@") k = false.
Proof.
  destruct f as [[| |d] wr]; try (intros []).
  intros H. apply loaded_keys_doc in H. now exists d.
Qed.

(** A translation that the file holds stays as it is. *)
Lemma lookup_kept (f : arb_file) (suggestions : dict suggestion)
    (locale k : str) :
  In k (load_existing_arb_keys f) ->
  arb_lookup (add_keys_to_arb_file f suggestions locale) k = arb_lookup f k.
Proof.
  intros Hk. destruct (loaded_keys_in_doc _ _ Hk) as [d [Hd [Hin Hat]]].
  unfold add_keys_to_arb_file, initial_arb_data. rewrite Hd.
  destruct (add_keys suggestions locale d 0) as [[d' n']|] eqn:E; [|reflexivity].
  destruct ((0 <? n') && arb_writable f); [|reflexivity].
  unfold arb_lookup. rewrite Hd. cbn [arb].
  exact (@add_keys_keeps suggestions locale k Hat d 0 d' n' E Hin).
Qed.

(** The value of a new key that does not start with [@]. *)
Lemma add_keys_stores (locale k v : str) (data : suggestion) :
  startswith (lit "@") k = false -> value data = Some v ->
  forall suggestions d n d' n',
    NoDup (dict_keys suggestions) -> In (k, data) suggestions ->
    ~ In k (dict_keys d) ->
    add_keys suggestions locale d n = Some (d', n') ->
    dict_get d' k = Some (ArbText (stored_text locale v)).
Proof.
  intros Hat Hv.
  induction suggestions as [|[key data0] rest IH];
    intros d n d' n' Hnd Hin Hnk H; [contradiction|].
  unfold dict_keys in Hnd. cbn [map fst] in Hnd.
  inversion Hnd as [|? ? Hnot Hnd']; subst. simpl in H.
  destruct Hin as [Hin|Hin].
  - inversion Hin; subst key data0.
    apply dict_mem_false in Hnk. rewrite Hnk, Hv in H. simpl in H.
    rewrite (@add_keys_keeps rest locale k Hat _ _ _ _ H).
    + rewrite dict_get_set_other by now apply at_key_differs.
      apply dict_get_set_same.
    + apply dict_set_keys_incl, dict_set_keys_new.
  - assert (Hne : k <> key).
    { intros ->. apply Hnot. apply in_map_iff. now exists (key, data). }
    destruct (dict_mem d key) eqn:Hmem; simpl in H.
    + now apply (IH _ _ _ _ Hnd' Hin Hnk H).
    + destruct (value data0) as [v0|]; [|discriminate].
      apply (IH _ _ _ _ Hnd' Hin) in H; [exact H|].
      intros Hk. apply dict_set_keys_inv in Hk.
      destruct Hk as [Hk|Hk]; [now apply (@at_key_differs k key Hat)|].
      apply dict_set_keys_inv in Hk. destruct Hk as [Hk|Hk]; contradiction.
Qed.

(** The entry of a new key. *)
Lemma lookup_new (f : arb_file) (suggestions : dict suggestion)
    (locale k v : str) (data : suggestion) :
  arb f <> Malformed -> arb_writable f = true ->
  NoDup (dict_keys suggestions) ->
  (forall key d, In (key, d) suggestions -> value d <> None) ->
  In (k, data) suggestions -> value data = Some v ->
  startswith (lit "@") k = false ->
  ~ In k (load_existing_arb_keys f) ->
  arb_lookup (add_keys_to_arb_file f suggestions locale) k
  = Some (ArbText (if str_eqb locale (lit "ru") then lit "[RU] " ++ v else v)).
Proof.
  intros Hr Hw Hnd Hall Hin Hv Hat Hnew.
  unfold add_keys_to_arb_file.
  destruct (initial_arb_data f locale) as [d|] eqn:Ei.
  2:{ destruct f as [[| |d0] wr]; simpl in *; try discriminate. congruence. }
  assert (Hnk : ~ In k (dict_keys d)).
  { destruct f as [[| |d0] wr]; unfold initial_arb_data in Ei; simpl in Ei.
    - inversion Ei; subst. simpl. intros [H|[]]. subst k. discriminate.
    - discriminate.
    - inversion Ei; subst. intros H. apply Hnew. now apply loaded_keys_doc. }
  destruct (@add_keys_total suggestions locale Hall d 0) as [d' [n' Ea]].
  rewrite Ea.
  pose proof (@add_keys_stores locale k v data Hat Hv suggestions d 0 d' n'
                Hnd Hin Hnk Ea) as Hget.
  pose proof (@add_keys_spec _ _ _ _ _ _ Ea) as [_ [_ [_ [Hle Hsame]]]].
  assert (Hpos : (0 <? n') = true).
  { apply Nat.ltb_lt. destruct n' as [|n']; [|lia].
    specialize (Hsame eq_refl). subst d'. exfalso. apply Hnk.
    apply dict_mem_In. unfold dict_mem.
    clear - Hget. induction d as [|[k0 v0] d IH]; simpl in *; [discriminate|].
    destruct (str_eqb k k0); [reflexivity | now apply IH]. }
  rewrite Hpos, Hw. cbn [andb]. unfold arb_lookup. cbn [arb]. exact Hget.
Qed.

(** A translation key does not start with [@]. *)
Lemma loaded_key_plain (f : arb_file) (k : str) :
  In k (load_existing_arb_keys f) -> startswith (lit "@") k = false.
Proof.
  intros H. destruct (loaded_keys_in_doc _ _ H) as [d [_ [_ Hat]]]. exact Hat.
Qed.

(** C3, as amended: when both files can be read and written and every
    suggestion has a value, the key of every suggestion is in both
    catalogs after the update, in the Russian one with the placeholder
    when the key is new there and with its old value otherwise; the keys
    that the English catalog has and the Russian one lacks are then the
    keys of that kind before the update that no suggestion carries; so
    catalogs that were in step are in step. *)
Theorem add_keys_keeps_catalogs_in_step (en ru : arb_file)
    (suggestions : dict suggestion) :
  arb en <> Malformed -> arb ru <> Malformed ->
  arb_writable en = true -> arb_writable ru = true ->
  NoDup (dict_keys suggestions) ->
  (forall key data, In (key, data) suggestions -> value data <> None) ->
  let en' := add_keys_to_arb_file en suggestions (lit "en") in
  let ru' := add_keys_to_arb_file ru suggestions (lit "ru") in
  (forall k data v,
      In (k, data) suggestions -> value data = Some v ->
      startswith (lit "@") k = false ->
      In k (load_existing_arb_keys en') /\ In k (load_existing_arb_keys ru')
      /\ (~ In k (load_existing_arb_keys ru) ->
          arb_lookup ru' k = Some (ArbText (lit "[RU] " ++ v)))
      /\ (In k (load_existing_arb_keys ru) -> arb_lookup ru' k = arb_lookup ru k))
  /\ (forall k,
      In k (load_existing_arb_keys en') /\ ~ In k (load_existing_arb_keys ru')
      <-> In k (load_existing_arb_keys en) /\ ~ In k (load_existing_arb_keys ru)
          /\ ~ In k (dict_keys suggestions))
  /\ ((forall k, In k (load_existing_arb_keys en) ->
                 In k (load_existing_arb_keys ru)) ->
      forall k, In k (load_existing_arb_keys en') ->
                In k (load_existing_arb_keys ru')).
Proof.
  intros Hren Hrru Hwen Hwru Hnd Hv en' ru'.
  assert (Hgap : forall k,
    In k (load_existing_arb_keys en') /\ ~ In k (load_existing_arb_keys ru')
    <-> In k (load_existing_arb_keys en) /\ ~ In k (load_existing_arb_keys ru)
        /\ ~ In k (dict_keys suggestions)).
  { intros k. split.
    - intros [Hen Hru].
      assert (Hs : ~ In k (dict_keys suggestions)).
      { intros Hs. apply Hru. apply updated_keys_complete; try assumption.
        right. split; [exact Hs | exact (loaded_key_plain _ _ Hen)]. }
      apply updated_keys_origin in Hen. destruct Hen as [Hen|[Hen _]]; [|tauto].
      repeat split; try assumption.
      intros Hr. apply Hru. apply updated_keys_complete; try assumption. now left.
    - intros [Hen [Hru Hs]]. split.
      + apply updated_keys_complete; try assumption. now left.
      + intros Hr. apply updated_keys_origin in Hr. tauto. }
  split; [|split; [exact Hgap|]].
  - intros k data v Hin Hval Hat.
    assert (Hk : In k (dict_keys suggestions)).
    { apply in_map_iff. now exists (k, data). }
    repeat split.
    + apply updated_keys_complete; try assumption. now right.
    + apply updated_keys_complete; try assumption. now right.
    + intros Hnew.
      exact (@lookup_new ru suggestions (lit "ru") k v data
               Hrru Hwru Hnd Hv Hin Hval Hat Hnew).
    + apply lookup_kept.
  - intros Hsync k Hen.
    apply updated_keys_origin in Hen. apply updated_keys_complete; try assumption.
    destruct Hen as [Hen|Hen]; [left; now apply Hsync | now right].
Qed.

(** C3, the counterexample: [hello] is in the English catalog and not in
    the Russian one before the update, and so it is after it, although
    the update wrote both files. *)
Lemma add_keys_leaves_old_gap :
  let en' := add_keys_to_arb_file Sample.en_ahead [Sample.save] (lit "en") in
  let ru' := add_keys_to_arb_file Sample.ru_behind [Sample.save] (lit "ru") in
  In (lit "hello") (load_existing_arb_keys en')
  /\ ~ In (lit "hello") (load_existing_arb_keys ru')
  /\ load_existing_arb_keys en' = [lit "hello"; lit "save_button"]
  /\ load_existing_arb_keys ru' = [lit "save_button"].
Proof.
  intros en' ru'.
  assert (Hen : load_existing_arb_keys en' = [lit "hello"; lit "save_button"])
    by (vm_compute; reflexivity).
  assert (Hru : load_existing_arb_keys ru' = [lit "save_button"])
    by (vm_compute; reflexivity).
  rewrite Hen, Hru. repeat split.
  - now left.
  - intros [H|[]]. vm_compute in H. discriminate H.
Qed.

(** The sample catalogs that are out of step: the update gives the
    Russian one the key of the suggestion with the placeholder, and
    [hello] is still missing from it. *)
Lemma add_keys_keeps_catalogs_in_step_witness :
  arb_lookup (add_keys_to_arb_file Sample.ru_behind [Sample.save] (lit "ru"))
    (lit "save_button")
  = Some (ArbText (lit "[RU] Save"))
  /\ In (lit "hello")
        (load_existing_arb_keys
           (add_keys_to_arb_file Sample.en_ahead [Sample.save] (lit "en")))
  /\ ~ In (lit "hello")
         (load_existing_arb_keys
            (add_keys_to_arb_file Sample.ru_behind [Sample.save] (lit "ru"))).
Proof.
  assert (Hen : arb Sample.en_ahead <> Malformed) by (simpl; discriminate).
  assert (Hru : arb Sample.ru_behind <> Malformed) by (simpl; discriminate).
  assert (Hnd : NoDup (dict_keys [Sample.save])).
  { apply distinct_NoDup. vm_compute. reflexivity. }
  assert (Hv : forall key data,
             In (key, data) [Sample.save] -> value data <> None).
  { intros key data [H|[]]. inversion H. simpl. discriminate. }
  destruct (@add_keys_keeps_catalogs_in_step Sample.en_ahead Sample.ru_behind
              [Sample.save] Hen Hru eq_refl eq_refl Hnd Hv)
    as [Hkeys [Hgap _]].
  split.
  - destruct (Hkeys (lit "save_button") (snd Sample.save) (lit "Save")
                (or_introl eq_refl) eq_refl eq_refl) as [_ [_ [Hnew _]]].
    apply Hnew. vm_compute. tauto.
  - apply Hgap. vm_compute. intuition discriminate.
Defined.

(** *** A run without suggestions, a catalog that does not exist *)

Lemma limit_changes_nil (max_changes : Z) : limit_changes [] max_changes = [].
Proof.
  unfold limit_changes, slice_to. cbn [length].
  destruct (Z.of_nat 0 >? max_changes)%Z; [|reflexivity].
  destruct (0 <=? max_changes)%Z; now rewrite firstn_nil.
Qed.

Lemma rewrite_file_nil (pf : str * file) : rewrite_file [] pf = pf.
Proof. now destruct pf. Qed.

Lemma add_keys_to_arb_file_nil (f : arb_file) (locale : str) :
  add_keys_to_arb_file f [] locale = f.
Proof.
  unfold add_keys_to_arb_file. now destruct (initial_arb_data f locale).
Qed.

(** What a run does with the suggestions that it applies. *)
Lemma apply_suggestions_applied (self : applier) (w : world)
    (min_confidence : number) (max_changes : Z) :
  backup_ok w = true ->
  let applied :=
    limit_changes
      (filter_high_confidence_suggestions self
         (get_default (suggestions_doc w) []) min_confidence)
      max_changes in
  exists w',
    apply_suggestions self w min_confidence max_changes = Some w'
    /\ lib w' = map (rewrite_file applied) (lib w)
    /\ en_arb w' = add_keys_to_arb_file (en_arb w) applied (lit "en")
    /\ ru_arb w' = add_keys_to_arb_file (ru_arb w) applied (lit "ru").
Proof.
  intros Hb applied. unfold apply_suggestions. rewrite Hb.
  assert (Hnone : forall l : list (str * file), map (rewrite_file []) l = l).
  { intros l. rewrite (map_ext _ (fun pf => pf)) by apply rewrite_file_nil.
    apply map_id. }
  destruct (suggestions_doc w) as [[|kd rest]|] eqn:Es;
    eexists; (split; [reflexivity|]); subst applied; cbn [get_default];
    cbn [lib en_arb ru_arb];
    try (change (filter_high_confidence_suggestions self [] min_confidence)
           with (@nil (str * suggestion));
         rewrite limit_changes_nil, Hnone, !add_keys_to_arb_file_nil);
    repeat split; reflexivity.
Qed.

(** The first entry of the document stays the first one when its key
    starts with [@@] and no key of a suggestion starts with [@]. *)
Lemma add_keys_head (locale k0 : str) (v0 : arb_value)
    (suggestions : dict suggestion) :
  startswith (lit "@@") k0 = true ->
  (forall key, In key (dict_keys suggestions) ->
               startswith (lit "@") key = false) ->
  forall t n d' n',
    add_keys suggestions locale ((k0, v0) :: t) n = Some (d', n') ->
    exists t', d' = (k0, v0) :: t'.
Proof.
  intros Hk0 Hkeys.
  assert (Hk1 : startswith (lit "@") k0 = true).
  { apply startswith_iff in Hk0. destruct Hk0 as [r ->].
    apply startswith_iff. exists (ch "@" :: r). reflexivity. }
  induction suggestions as [|[key data] rest IH]; intros t n d' n' H.
  - inversion H; subst. now exists t.
  - assert (Hkey : startswith (lit "@") key = false).
    { apply Hkeys. now left. }
    assert (Hrest : forall key0, In key0 (dict_keys rest) ->
                                 startswith (lit "@") key0 = false).
    { intros key0 Hin. apply Hkeys. now right. }
    cbn [add_keys] in H.
    destruct (negb (dict_mem ((k0, v0) :: t) key)); [|now apply (IH Hrest _ _ _ _ H)].
    destruct (value data) as [v|]; [|discriminate].
    assert (E1 : str_eqb key k0 = false).
    { apply str_eqb_neq. intros ->. congruence. }
    assert (E2 : str_eqb (lit "@" ++ key) k0 = false).
    { apply str_eqb_neq. intros <-.
      apply startswith_iff in Hk0. destruct Hk0 as [r Hr].
      inversion Hr; subst key. discriminate Hkey. }
    cbn [dict_set] in H. rewrite E1 in H. cbn [dict_set] in H. rewrite E2 in H.
    now apply (IH Hrest _ _ _ _ H).
Qed.

(** C5, as amended: a malformed reference catalog gives the empty key
    set and does not stop the run: the source files are rewritten with,
    and the other catalog gets, the suggestions that pass the filter
    (no key counts as present) and the cap, and the malformed file stays
    as it is.  An absent catalog gives the empty key set too, and the
    update writes a document that starts with the locale marker and
    holds the keys of the suggestions. *)
Theorem malformed_catalog_is_not_fatal (w : world) (min_confidence : number)
    (max_changes : Z) :
  backup_ok w = true -> arb (en_arb w) = Malformed ->
  let applied :=
    limit_changes
      (filter_high_confidence_suggestions
         {| existing_en_keys := [];
            existing_ru_keys := load_existing_arb_keys (ru_arb w) |}
         (get_default (suggestions_doc w) []) min_confidence)
      max_changes in
  load_existing_arb_keys (en_arb w) = []
  /\ (exists w',
        apply_suggestions (init w) w min_confidence max_changes = Some w'
        /\ en_arb w' = en_arb w
        /\ lib w' = map (rewrite_file applied) (lib w)
        /\ ru_arb w' = add_keys_to_arb_file (ru_arb w) applied (lit "ru"))
  /\ (forall (absent : arb_file) (suggestions : dict suggestion) (locale : str),
        arb absent = Absent ->
        load_existing_arb_keys absent = []
        /\ (arb_writable absent = true -> suggestions <> [] ->
            (forall key data, In (key, data) suggestions ->
               value data <> None /\ startswith (lit "@") key = false) ->
            exists entries,
              arb (add_keys_to_arb_file absent suggestions locale)
              = Doc ((lit "@@locale", ArbText locale) :: entries)
              /\ forall k,
                   In k (load_existing_arb_keys
                           (add_keys_to_arb_file absent suggestions locale))
                   <-> In k (dict_keys suggestions))).
Proof.
  intros Hb Hm applied.
  assert (Hkeys : load_existing_arb_keys (en_arb w) = []).
  { unfold load_existing_arb_keys. now rewrite Hm. }
  split; [exact Hkeys|]. split.
  - destruct (@apply_suggestions_applied (init w) w min_confidence max_changes Hb)
      as [w' [Hrun [Hlib [Hen Hru]]]].
    exists w'. unfold init in Hlib, Hen, Hru. rewrite Hkeys in Hlib, Hen, Hru.
    repeat split; try assumption.
    rewrite Hen. unfold add_keys_to_arb_file, initial_arb_data. now rewrite Hm.
  - intros absent suggestions locale Ha. split.
    { unfold load_existing_arb_keys. now rewrite Ha. }
    intros Hw Hne Hall.
    assert (Hv : forall key data, In (key, data) suggestions -> value data <> None).
    { intros key data Hin. now apply (Hall key data). }
    assert (Hat : forall key, In key (dict_keys suggestions) ->
                              startswith (lit "@") key = false).
    { intros key Hin. apply in_map_iff in Hin.
      destruct Hin as [[k d] [<- Hin]]. now apply (Hall k d). }
    assert (Hread : arb absent <> Malformed) by (rewrite Ha; discriminate).
    assert (Hold : load_existing_arb_keys absent = []).
    { unfold load_existing_arb_keys. now rewrite Ha. }
    assert (Hiff : forall k,
      In k (load_existing_arb_keys (add_keys_to_arb_file absent suggestions locale))
      <-> In k (dict_keys suggestions)).
    { intros k. split.
      - intros H. apply updated_keys_origin in H. rewrite Hold in H.
        destruct H as [[]|[H _]]. exact H.
      - intros H. apply updated_keys_complete; try assumption.
        right. split; [exact H | now apply Hat]. }
    destruct suggestions as [|[key data] rest]; [congruence|].
    assert (Hnew : In key (load_existing_arb_keys
                             (add_keys_to_arb_file absent ((key, data) :: rest) locale))).
    { apply Hiff. now left. }
    unfold add_keys_to_arb_file, initial_arb_data in Hnew |- *. rewrite Ha in Hnew |- *.
    destruct (add_keys ((key, data) :: rest) locale
                [(lit "@@locale", ArbText locale)] 0) as [[d' n']|] eqn:E.
    + destruct ((0 <? n') && arb_writable absent) eqn:Ew.
      * destruct (@add_keys_head locale (lit "@@locale") (ArbText locale)
                    ((key, data) :: rest) eq_refl Hat [] 0 d' n' E) as [t' ->].
        exists t'. split; [reflexivity|]. intros k.
        specialize (Hiff k). unfold add_keys_to_arb_file, initial_arb_data in Hiff.
        rewrite Ha, E, Ew in Hiff. exact Hiff.
      * exfalso. unfold load_existing_arb_keys in Hnew. rewrite Ha in Hnew.
        exact Hnew.
    + exfalso. unfold load_existing_arb_keys in Hnew. rewrite Ha in Hnew.
      exact Hnew.
Qed.

(** The run on the sample project with the malformed reference catalog:
    the source file is rewritten and the Russian catalog is written. *)
Lemma malformed_catalog_is_not_fatal_witness :
  exists w',
    apply_suggestions (init Sample.broken_world) Sample.broken_world
      (8 # 10)%Q 50%Z = Some w'
    /\ en_arb w' = en_arb Sample.broken_world
    /\ lib w'
       = [(lit "lib/screens/home.dart",
           {| content :=
                lit "child: Text(AppLocalizations.of(context)?.save_button ?? 'Save'),";
              writable := true |})]
    /\ load_existing_arb_keys (ru_arb w') = [lit "save_button"].
Proof.
  destruct (@malformed_catalog_is_not_fatal Sample.broken_world (8 # 10)%Q 50%Z
              eq_refl eq_refl) as [_ [[w' [Hrun [Hen [Hlib Hru]]]] _]].
  exists w'. split; [exact Hrun|]. split; [exact Hen|].
  rewrite Hlib, Hru. split; vm_compute; reflexivity.
Defined.

(** C5, the counterexample: with a malformed reference catalog the run
    does not abort; it rewrites the source file and writes the other
    catalog. *)
Lemma malformed_catalog_run_rewrites :
  arb (en_arb Sample.broken_world) = Malformed
  /\ exists w',
      apply_suggestions (init Sample.broken_world) Sample.broken_world
        (8 # 10)%Q 50%Z = Some w'
      /\ lib w'
         = [(lit "lib/screens/home.dart",
             {| content :=
                  lit "child: Text(AppLocalizations.of(context)?.save_button ?? 'Save'),";
                writable := true |})]
      /\ arb (ru_arb w')
         = Doc [(lit "@@locale", ArbText (lit "ru"));
                (lit "save_button", ArbText (lit "[RU] Save"));
                (lit "@save_button",
                 ArbMeta (lit "Auto-generated from lib/screens/home.dart:12"))].
Proof.
  split; [reflexivity|].
  vm_compute. eexists. split; [reflexivity|]. split; reflexivity.
Qed.

End CatalogFacts.

(** ** Replacement of literals *)

Section ReplaceFacts.
Import Py.

Lemma replace_from_skip (old new x y : str) :
  replace_from old new (length x) (x ++ y) = replace_from old new 0 y.
Proof.
  induction x as [|c x IH]; simpl; [reflexivity | exact IH].
Qed.

Lemma count_from_skip (old x y : str) :
  count_from old (length x) (x ++ y) = count_from old 0 y.
Proof.
  induction x as [|c x IH]; simpl; [reflexivity | exact IH].
Qed.

Lemma startswith_head_neq (q c : char) (rest s : str) :
  q <> c -> startswith (q :: rest) (c :: s) = false.
Proof.
  intros Hne. simpl. apply N.eqb_neq in Hne. now rewrite Hne.
Qed.

(** The first occurrence of [old] after a text that lacks its first
    character is the first one replaced. *)
Lemma replace_from_first (q : char) (rest new pre post : str) :
  ~ In q pre ->
  replace_from (q :: rest) new 0 (pre ++ (q :: rest) ++ post)
  = pre ++ new ++ replace_from (q :: rest) new 0 post.
Proof.
  intros Hq. induction pre as [|c pre IH].
  - change ([] ++ (q :: rest) ++ post) with (q :: (rest ++ post)).
    cbn [replace_from].
    change (q :: rest ++ post) with ((q :: rest) ++ post).
    rewrite startswith_app. cbn [length Nat.sub].
    rewrite Nat.sub_0_r, replace_from_skip. reflexivity.
  - change ((c :: pre) ++ (q :: rest) ++ post)
      with (c :: (pre ++ (q :: rest) ++ post)).
    cbn [replace_from].
    rewrite startswith_head_neq by (intros ->; apply Hq; now left).
    rewrite IH by (intros Hin; apply Hq; now right). reflexivity.
Qed.

Lemma count_from_first (q : char) (rest pre post : str) :
  ~ In q pre ->
  count_from (q :: rest) 0 (pre ++ (q :: rest) ++ post)
  = S (count_from (q :: rest) 0 post).
Proof.
  intros Hq. induction pre as [|c pre IH].
  - change ([] ++ (q :: rest) ++ post) with (q :: (rest ++ post)).
    cbn [count_from].
    change (q :: rest ++ post) with ((q :: rest) ++ post).
    rewrite startswith_app. cbn [length Nat.sub].
    rewrite Nat.sub_0_r, count_from_skip. reflexivity.
  - change ((c :: pre) ++ (q :: rest) ++ post)
      with (c :: (pre ++ (q :: rest) ++ post)).
    cbn [count_from].
    rewrite startswith_head_neq by (intros ->; apply Hq; now left).
    apply IH. intros Hin; apply Hq; now right.
Qed.

Lemma contains_In (p s : str) (c : char) :
  contains p s = true -> In c p -> In c s.
Proof.
  intros H Hc. apply contains_iff in H. destruct H as [a [b ->]].
  apply in_or_app. right. apply in_or_app. now left.
Qed.

End ReplaceFacts.

(** ** The rewrite of apply_localization_suggestions.py *)

Section ApplierRewrite.
Import Py Dart Applier.

Lemma re_escape_app (a b : str) : re_escape (a ++ b) = re_escape a ++ re_escape b.
Proof. unfold re_escape. apply flat_map_app. Qed.

Lemma re_escape_plain (v : str) : plain v = true -> re_escape v = v.
Proof.
  induction v as [|c v IH]; simpl; intros H; [reflexivity|].
  apply andb_true_iff in H. destruct H as [Hc Hv].
  apply negb_true_iff in Hc. rewrite Hc. simpl. now rewrite IH.
Qed.

Lemma plain_not_special (v : str) (c : char) :
  plain v = true -> re_special c = true -> ~ In c v.
Proof.
  intros Hp Hc Hin. unfold plain in Hp. rewrite forallb_forall in Hp.
  specialize (Hp c Hin). rewrite Hc in Hp. discriminate.
Qed.

Lemma re_escape_quoted (q : char) (v : str) :
  re_special q = false -> plain v = true ->
  re_escape (quoted q v) = quoted q v.
Proof.
  intros Hq Hv. unfold quoted.
  change (q :: v ++ [q]) with ([q] ++ v ++ [q]).
  rewrite !re_escape_app, (re_escape_plain v Hv).
  simpl. now rewrite Hq.
Qed.

(** A quoted plain value does not hold the text [const Text(]. *)
Lemma quoted_no_const_text (q : char) (v : str) :
  q <> (ch " ") -> plain v = true ->
  contains (lit "const Text(") (quoted q v) = false.
Proof.
  intros Hq Hv. destruct (contains (lit "const Text(") (quoted q v)) eqn:E;
    [|reflexivity].
  exfalso. apply (contains_In _ _ (ch " ")) in E.
  - unfold quoted in E. destruct E as [E|E]; [congruence|].
    apply in_app_or in E. destruct E as [E|[E|[]]]; [|congruence].
    revert E. now apply plain_not_special.
  - vm_compute. tauto.
Qed.

(** A single-quoted plain value that occurs in the content is replaced
    through the first pattern. *)
Lemma replace_single_quoted (key v pre post : str) :
  plain v = true -> ~ In squote pre ->
  replace_first_pattern (patterns v) key v (pre ++ quoted squote v ++ post)
  = Some (pre ++ replacement key v
              ++ replace (quoted squote v) (replacement key v) post).
Proof.
  intros Hv Hpre. unfold patterns. cbn [replace_first_pattern].
  rewrite (re_escape_quoted squote v eq_refl Hv).
  assert (Hc : contains (quoted squote v) (pre ++ quoted squote v ++ post) = true).
  { apply contains_iff. now exists pre, post. }
  rewrite Hc. rewrite quoted_no_const_text by (assumption || discriminate).
  f_equal. unfold replace, quoted. apply replace_from_first. exact Hpre.
Qed.

(** A double-quoted plain value is replaced through the second pattern
    when the content has no single-quoted occurrence. *)
Lemma replace_double_quoted (key v pre post : str) :
  plain v = true -> ~ In dquote pre ->
  contains (quoted squote v) (pre ++ quoted dquote v ++ post) = false ->
  replace_first_pattern (patterns v) key v (pre ++ quoted dquote v ++ post)
  = Some (pre ++ replacement key v
              ++ replace (quoted dquote v) (replacement key v) post).
Proof.
  intros Hv Hpre Hno. unfold patterns. cbn [replace_first_pattern].
  rewrite (re_escape_quoted squote v eq_refl Hv), Hno.
  rewrite (re_escape_quoted dquote v eq_refl Hv).
  assert (Hc : contains (quoted dquote v) (pre ++ quoted dquote v ++ post) = true).
  { apply contains_iff. now exists pre, post. }
  rewrite Hc. rewrite quoted_no_const_text by (assumption || discriminate).
  f_equal. unfold replace, quoted. apply replace_from_first. exact Hpre.
Qed.

(** C1, as amended: the rewrite does not look at the site.  A
    single-quoted literal of a suggestion for the file is replaced by the
    lookup whatever text stands before it, a static const declaration or
    a field initializer included (the text [const Text(] apart, for which
    the code has a branch of its own). *)
Theorem applier_rewrite_ignores_context (relative_path key v pre post : str)
    (data : suggestion) :
  value data = Some v -> confidence data <> None ->
  contains relative_path (get_default (description data) []) = true ->
  plain v = true -> ~ In squote pre ->
  endswith (lit "const Text(") pre = false ->
  apply_localization_to_file relative_path
    (Some {| content := pre ++ quoted squote v ++ post; writable := true |})
    [(key, data)]
  = (1, Some {| content :=
                  pre ++ replacement key v
                      ++ replace (quoted squote v) (replacement key v) post;
                writable := true |}).
Proof.
  intros Hval Hconf Hdesc Hv Hpre _.
  unfold apply_localization_to_file, suggestions_of_file, dict_select.
  cbn [fold_left fst snd]. rewrite Hdesc. cbn [dict_set content writable].
  cbn [apply_replacements]. rewrite Hval.
  destruct (confidence data) as [c|]; [|congruence].
  rewrite replace_single_quoted by assumption. reflexivity.
Qed.

(** The static const declaration of the sample file gets the lookup. *)
Lemma applier_rewrite_ignores_context_witness :
  plain (lit "Settings") = true
  /\ endswith (lit "const Text(") (lit "static const String title = ") = false
  /\ apply_localization_to_file (lit "lib/config.dart")
       (Some Sample.config_dart) [Sample.settings_title]
     = (1, Some {| content :=
                     lit "static const String title = AppLocalizations.of(context)?.settings_title ?? 'Settings';";
                   writable := true |}).
Proof.
  split; [reflexivity|]. split; [reflexivity|].
  refine (eq_trans
            (@applier_rewrite_ignores_context (lit "lib/config.dart")
               (lit "settings_title") (lit "Settings")
               (lit "static const String title = ") (lit ";")
               (snd Sample.settings_title) eq_refl _ eq_refl eq_refl _ eq_refl) _).
  - simpl. discriminate.
  - vm_compute. intuition discriminate.
  - vm_compute. reflexivity.
Defined.

(** C1, the counterexample: a suggestion that the filter accepts puts
    the lookup into a static const declaration; the line keeps its const
    qualifier and is one that the const-context test of the fix-up
    script reports. *)
Lemma static_const_gets_lookup :
  filter_high_confidence_suggestions Sample.fresh [Sample.settings_title] (8 # 10)%Q
  = [Sample.settings_title]
  /\ apply_localization_to_file (lit "lib/config.dart")
       (Some Sample.config_dart) [Sample.settings_title]
     = (1, Some {| content :=
                     lit "static const String title = AppLocalizations.of(context)?.settings_title ?? 'Settings';";
                   writable := true |})
  /\ ConstFix.const_context_issue (content Sample.config_dart) = false
  /\ ConstFix.const_context_issue
       (lit "static const String title = AppLocalizations.of(context)?.settings_title ?? 'Settings';")
     = true
  /\ startswith (lit "static const ")
       (lit "static const String title = AppLocalizations.of(context)?.settings_title ?? 'Settings';")
     = true.
Proof. repeat split; vm_compute; reflexivity. Qed.

End ApplierRewrite.

(** ** Lines *)

Section LineFacts.
Import Py.

Lemma split_lines_cons (s : str) : exists l ls, split_lines s = l :: ls.
Proof.
  destruct s as [|c s]; simpl; [now exists [], []|].
  destruct (N.eqb c newline); [now eexists; eexists|].
  destruct (split_lines s); now eexists; eexists.
Qed.

Lemma join_lines_cons (l : str) (ls : list str) :
  ls <> [] -> join_lines (l :: ls) = l ++ newline :: join_lines ls.
Proof. destruct ls; [congruence | reflexivity]. Qed.

Lemma join_split (s : str) : join_lines (split_lines s) = s.
Proof.
  induction s as [|c s IH]; [reflexivity|].
  cbn [split_lines]. destruct (split_lines_cons s) as [l [ls E]].
  rewrite E in *. destruct (N.eqb c newline) eqn:Ec.
  - apply N.eqb_eq in Ec. subst c.
    rewrite join_lines_cons by discriminate. now rewrite IH.
  - rewrite <- IH. destruct ls; reflexivity.
Qed.

Lemma split_lines_nl_free (s : str) : Forall nl_free (split_lines s).
Proof.
  induction s as [|c s IH]; simpl.
  - constructor; [intros [] | constructor].
  - destruct (N.eqb c newline) eqn:Ec.
    + constructor; [intros [] | exact IH].
    + destruct (split_lines s) as [|l ls]; [repeat constructor|].
      * intros [H|[]]. subst. now rewrite N.eqb_refl in Ec.
      * inversion IH; subst. constructor; [|assumption].
        intros [H|H]; [|contradiction].
        subst. now rewrite N.eqb_refl in Ec.
Qed.

Lemma split_single (l : str) : nl_free l -> split_lines l = [l].
Proof.
  induction l as [|c l IH]; intros H; [reflexivity|]. simpl.
  destruct (N.eqb c newline) eqn:Ec.
  - apply N.eqb_eq in Ec. subst. exfalso. apply H. now left.
  - rewrite IH; [reflexivity|]. intros Hin. apply H. now right.
Qed.

Lemma split_app_newline (l t : str) :
  nl_free l -> split_lines (l ++ newline :: t) = l :: split_lines t.
Proof.
  induction l as [|c l IH]; intros H.
  - cbn [app split_lines]. now rewrite N.eqb_refl.
  - cbn [app split_lines]. destruct (N.eqb c newline) eqn:Ec.
    + apply N.eqb_eq in Ec. subst. exfalso. apply H. now left.
    + rewrite IH; [reflexivity|]. intros Hin. apply H. now right.
Qed.

Lemma split_join (ls : list str) :
  ls <> [] -> Forall nl_free ls -> split_lines (join_lines ls) = ls.
Proof.
  induction ls as [|l ls IH]; intros Hne Hall; [congruence|].
  inversion Hall as [|? ? Hl Hls]; subst.
  destruct ls as [|l2 rest].
  - simpl. now apply split_single.
  - rewrite join_lines_cons by discriminate.
    rewrite split_app_newline by assumption.
    f_equal. apply IH; [discriminate | assumption].
Qed.

(** A line of a text is a part of the text. *)
Lemma split_line_part (s l : str) :
  In l (split_lines s) -> exists a b, s = a ++ l ++ b.
Proof.
  revert l. induction s as [|c s IH]; intros l Hin; simpl in Hin.
  - destruct Hin as [<-|[]]. now exists [], [].
  - destruct (N.eqb c newline) eqn:Ec.
    + destruct Hin as [<-|Hin].
      * now exists [], (c :: s).
      * destruct (IH l Hin) as [a [b ->]]. now exists (c :: a), b.
    + destruct (split_lines_cons s) as [l0 [ls E]]. rewrite E in *.
      destruct Hin as [<-|Hin].
      * pose proof (join_split s) as Hj. rewrite E in Hj.
        exists [], (match ls with [] => [] | _ => newline :: join_lines ls end).
        rewrite <- Hj. destruct ls; simpl; [now rewrite app_nil_r | reflexivity].
      * destruct (IH l (or_intror Hin)) as [a [b ->]]. now exists (c :: a), b.
Qed.

Lemma contains_line (p s l : str) :
  In l (split_lines s) -> contains p l = true -> contains p s = true.
Proof.
  intros Hin Hc. destruct (split_line_part _ _ Hin) as [a [b ->]].
  apply contains_app_r, contains_app_l, Hc.
Qed.

End LineFacts.

(** ** The rewrite of flutter_localization_automation.py *)

Section AutomatorRewrite.
Import Py Dart Automator.

Lemma In_replace_from (old new : str) (c : char) :
  forall s k, In c (replace_from old new k s) -> In c s \/ In c new.
Proof.
  induction s as [|a s IH]; intros k H; simpl in H; [contradiction|].
  destruct k as [|k].
  - destruct (startswith old (a :: s)).
    + apply in_app_or in H. destruct H as [H|H]; [now right|].
      destruct (IH _ H); [left; now right | now right].
    + destruct H as [H|H]; [left; now left|].
      destruct (IH _ H); [left; now right | now right].
  - destruct (IH _ H); [left; now right | now right].
Qed.

(** Where [old] occurs, the result of the replacement holds [new]. *)
Lemma replace_from_holds_new (q : char) (rest new : str) :
  forall s, contains (q :: rest) s = true ->
  exists x y, replace_from (q :: rest) new 0 s = x ++ new ++ y.
Proof.
  induction s as [|a s IH]; intros H.
  - simpl in H. discriminate.
  - cbn [contains] in H. cbn [replace_from].
    destruct (startswith (q :: rest) (a :: s)) eqn:E.
    + now exists [], (replace_from (q :: rest) new (length (q :: rest) - 1) s).
    + simpl in H. destruct (IH H) as [x [y Hxy]]. rewrite Hxy.
      now exists (a :: x), y.
Qed.

Lemma replacement_has_marker (q : char) (key text x y : str) :
  contains marker (x ++ replacement q key text ++ y) = true.
Proof.
  apply contains_iff. exists x.
  exists (lit "?." ++ key ++ lit " ?? " ++ quoted q text ++ y).
  unfold replacement. now rewrite <- !app_assoc.
Qed.

(** A line is left as it is or holds the lookup afterwards. *)
Lemma pattern_line_cases (q : char) (tk : str * str) (line : str) :
  pattern_line q tk line = line
  \/ contains marker (pattern_line q tk line) = true.
Proof.
  unfold pattern_line, localize_line.
  destruct (contains (quoted q (fst tk)) line) eqn:E; [|now left].
  destruct (contains marker line); [now left|]. right. simpl.
  destruct (@replace_from_holds_new q (fst tk ++ [q])
              (replacement q (snd tk) (fst tk)) line E) as [x [y Hxy]].
  unfold quoted. rewrite Hxy. apply replacement_has_marker.
Qed.

Lemma pattern_line_marked (q : char) (tk : str * str) (line : str) :
  contains marker line = true -> pattern_line q tk line = line.
Proof.
  intros H. unfold pattern_line, localize_line. rewrite H.
  now rewrite andb_false_r.
Qed.

Lemma lines_pass_marked (m : dict str) (line : str) :
  contains marker line = true -> lines_pass m line = line.
Proof.
  revert line. induction m as [|tk m IH]; intros line H; [reflexivity|].
  unfold lines_pass. cbn [fold_left]. unfold entry_line at 2.
  rewrite !pattern_line_marked by (try rewrite pattern_line_marked; assumption).
  now apply IH.
Qed.

Lemma lines_pass_cases (m : dict str) (line : str) :
  lines_pass m line = line \/ contains marker (lines_pass m line) = true.
Proof.
  revert line. induction m as [|tk m IH]; intros line; [now left|].
  unfold lines_pass. cbn [fold_left]. fold (lines_pass m (entry_line tk line)).
  assert (H : entry_line tk line = line
              \/ contains marker (entry_line tk line) = true).
  { unfold entry_line.
    destruct (pattern_line_cases squote tk line) as [H1|H1].
    - rewrite H1. apply pattern_line_cases.
    - right. now rewrite pattern_line_marked. }
  destruct H as [H|H].
  - rewrite H. apply IH.
  - right. now rewrite lines_pass_marked.
Qed.

Lemma lines_pass_idempotent (m : dict str) (line : str) :
  lines_pass m (lines_pass m line) = lines_pass m line.
Proof.
  destruct (lines_pass_cases m line) as [H|H].
  - now rewrite !H.
  - now apply lines_pass_marked.
Qed.

(** Lines stay lines when the key has no line break. *)
Lemma pattern_line_nl_free (q : char) (tk : str * str) (line : str) :
  nl_free (snd tk) -> nl_free line -> nl_free (pattern_line q tk line).
Proof.
  intros Hk Hl. unfold pattern_line, localize_line.
  destruct (contains (quoted q (fst tk)) line) eqn:E; [|exact Hl].
  destruct (contains marker line); [exact Hl|]. simpl.
  intros Hin. apply In_replace_from in Hin. destruct Hin as [Hin|Hin]; [now apply Hl|].
  unfold replacement in Hin.
  assert (Hq : nl_free (quoted q (fst tk))).
  { intros Hq. apply Hl. exact (@contains_In _ _ _ E Hq). }
  repeat (apply in_app_or in Hin; destruct Hin as [Hin|Hin]);
    try (vm_compute in Hin; intuition discriminate).
  - now apply Hk.
  - now apply Hq.
Qed.

Lemma lines_pass_nl_free (m : dict str) (line : str) :
  Forall (fun tk => nl_free (snd tk)) m -> nl_free line ->
  nl_free (lines_pass m line).
Proof.
  revert line. induction m as [|tk m IH]; intros line Hm Hl; [exact Hl|].
  inversion Hm; subst. unfold lines_pass. cbn [fold_left].
  apply IH; [assumption|]. unfold entry_line.
  apply pattern_line_nl_free; [assumption|].
  now apply pattern_line_nl_free.
Qed.

(** The content after one pattern is made of the rewritten lines. *)
Lemma localize_pattern_lines (q : char) (tk : str * str) (st : str * nat) :
  fst (localize_pattern q (fst tk) (snd tk) st)
  = join_lines (map (pattern_line q tk) (split_lines (fst st))).
Proof.
  unfold localize_pattern.
  destruct (contains (quoted q (fst tk)) (fst st)) eqn:E.
  - cbn [fst]. now rewrite map_map.
  - rewrite <- (join_split (fst st)) at 1. f_equal.
    rewrite <- (map_id (split_lines (fst st))) at 1.
    apply map_ext_in. intros l Hl. unfold pattern_line, localize_line.
    destruct (contains (quoted q (fst tk)) l) eqn:El; [|reflexivity].
    rewrite (@contains_line _ _ _ Hl El) in E. discriminate.
Qed.

Lemma pattern_lines_join (q : char) (tk : str * str) (ls : list str) :
  ls <> [] -> Forall nl_free ls ->
  forall n,
    fst (localize_pattern q (fst tk) (snd tk) (join_lines ls, n))
    = join_lines (map (pattern_line q tk) ls).
Proof.
  intros Hne Hall n. rewrite localize_pattern_lines. cbn [fst].
  now rewrite split_join.
Qed.

Lemma localize_content_fold (m : dict str) : forall (ls : list str) (n : nat),
  Forall (fun tk => nl_free (snd tk)) m ->
  ls <> [] -> Forall nl_free ls ->
  fst (fold_left
         (fun st tk =>
            localize_pattern dquote (fst tk) (snd tk)
              (localize_pattern squote (fst tk) (snd tk) st))
         m (join_lines ls, n))
  = join_lines (map (lines_pass m) ls).
Proof.
  induction m as [|tk m IH]; intros ls n Hm Hne Hall.
  - cbn [fold_left fst]. unfold lines_pass. cbn [fold_left]. now rewrite map_id.
  - inversion Hm as [|? ? Hk Hm']; subst. cbn [fold_left].
    set (st1 := localize_pattern squote (fst tk) (snd tk) (join_lines ls, n)).
    assert (H1 : fst st1 = join_lines (map (pattern_line squote tk) ls))
      by now apply pattern_lines_join.
    set (st2 := localize_pattern dquote (fst tk) (snd tk) st1).
    assert (Hne1 : map (pattern_line squote tk) ls <> [])
      by (destruct ls; [congruence | discriminate]).
    assert (Hall1 : Forall nl_free (map (pattern_line squote tk) ls)).
    { apply Forall_map. revert Hall. apply Forall_impl.
      intros l. now apply pattern_line_nl_free. }
    assert (H2 : fst st2 = join_lines (map (entry_line tk) ls)).
    { unfold st2. rewrite (surjective_pairing st1), H1.
      rewrite pattern_lines_join by assumption. now rewrite map_map. }
    rewrite (surjective_pairing st2), H2.
    rewrite IH.
    + rewrite map_map. reflexivity.
    + assumption.
    + destruct ls; [congruence | discriminate].
    + apply Forall_map. revert Hall. apply Forall_impl.
      intros l Hl. unfold entry_line.
      apply pattern_line_nl_free; [assumption|].
      now apply pattern_line_nl_free.
Qed.

Lemma localize_content_lines (m : dict str) (content : str) :
  Forall (fun tk => nl_free (snd tk)) m ->
  fst (localize_content m content)
  = join_lines (map (lines_pass m) (split_lines content)).
Proof.
  intros Hm. unfold localize_content.
  rewrite <- (join_split content) at 1.
  apply localize_content_fold; [assumption | | apply split_lines_nl_free].
  destruct (split_lines_cons content) as [l [ls ->]]. discriminate.
Qed.

Lemma localize_content_idempotent (m : dict str) (content : str) :
  Forall (fun tk => nl_free (snd tk)) m ->
  fst (localize_content m (fst (localize_content m content)))
  = fst (localize_content m content).
Proof.
  intros Hm. rewrite !(localize_content_lines _ Hm).
  rewrite split_join.
  - rewrite map_map. f_equal. apply map_ext. intros l.
    apply lines_pass_idempotent.
  - destruct (split_lines_cons content) as [l [ls ->]]. discriminate.
  - apply Forall_map. generalize (split_lines_nl_free content).
    apply Forall_impl. intros l. now apply lines_pass_nl_free.
Qed.

(** The keys of the mapping are keys of the catalog. *)
Lemma dict_set_values (P : str -> Prop) (d : dict str) (k v : str) :
  Forall (fun tk => P (snd tk)) d -> P v ->
  Forall (fun tk => P (snd tk)) (dict_set d k v).
Proof.
  induction d as [|[k' v'] d IH]; intros Hd Hv; simpl.
  - now repeat constructor.
  - inversion Hd; subst. destruct (str_eqb k k'); constructor; auto.
Qed.

Lemma mapping_values (P : str -> Prop) (english_translations : dict arb_value) :
  (forall key, In key (dict_keys english_translations) -> P key) ->
  Forall (fun tk => P (snd tk)) (create_english_to_key_mapping english_translations).
Proof.
  unfold create_english_to_key_mapping.
  assert (G : forall acc : dict str,
    (forall key, In key (dict_keys english_translations) -> P key) ->
    Forall (fun tk => P (snd tk)) acc ->
    Forall (fun tk => P (snd tk))
      (fold_left
         (fun mapping kv =>
            match snd kv with
            | ArbText value =>
                if negb (startswith (lit "@") (fst kv)) then
                  match strip value with
                  | [] => mapping
                  | _ :: _ => dict_set mapping (strip value) (fst kv)
                  end
                else mapping
            | ArbMeta _ => mapping
            end) english_translations acc)).
  { induction english_translations as [|[k v] tr IH]; intros acc Hk Hacc.
    - exact Hacc.
    - cbn [fold_left]. apply IH.
      + intros key Hin. apply Hk. now right.
      + cbn [fst snd]. destruct v as [value|]; [|exact Hacc].
        destruct (negb (startswith (lit "@") k)); [|exact Hacc].
        destruct (strip value) eqn:Es; [exact Hacc|].
        apply dict_set_values; [exact Hacc|]. apply Hk. now left. }
  intros Hk. apply G; [exact Hk | constructor].
Qed.

End AutomatorRewrite.

(** ** Idempotence and quote style *)

Section RewriteClaims.
Import Py Dart.

(** C2, as amended: the rewrite of FlutterLocalizationAutomator is
    idempotent, on the text and on the file, when no catalog key holds a
    line break: a line that holds a lookup is never rewritten again. *)
Theorem automator_rewrite_idempotent (english_translations : dict arb_value)
    (content : str) (f : option file) :
  (forall key, In key (dict_keys english_translations) -> nl_free key) ->
  let m := Automator.create_english_to_key_mapping english_translations in
  fst (Automator.localize_content m (fst (Automator.localize_content m content)))
  = fst (Automator.localize_content m content)
  /\ snd (Automator.apply_localization_to_file english_translations
            (snd (Automator.apply_localization_to_file english_translations f false))
            false)
     = snd (Automator.apply_localization_to_file english_translations f false).
Proof.
  intros Hk m.
  assert (Hm : Forall (fun tk => nl_free (snd tk)) m)
    by now apply mapping_values.
  split; [now apply localize_content_idempotent|].
  destruct f as [fl|]; [|reflexivity].
  unfold Automator.apply_localization_to_file at 2 3. fold m.
  cbn [negb]. rewrite andb_true_r.
  destruct (0 <? snd (Automator.localize_content m (Dart.content fl))) eqn:E1.
  - destruct (writable fl) eqn:W.
    + cbn [snd]. unfold Automator.apply_localization_to_file. fold m.
      cbn [Dart.content writable negb]. rewrite andb_true_r.
      rewrite (localize_content_idempotent _ Hm).
      destruct (0 <? snd (Automator.localize_content m
                            (fst (Automator.localize_content m (Dart.content fl)))));
        reflexivity.
    + cbn [snd]. unfold Automator.apply_localization_to_file. fold m.
      cbn [negb]. rewrite andb_true_r, E1, W. reflexivity.
  - cbn [snd]. unfold Automator.apply_localization_to_file. fold m.
    cbn [negb]. rewrite andb_true_r, E1. reflexivity.
Qed.

(** The sample catalog has no line break in its keys; the second run
    leaves the sample file as the first run wrote it. *)
Lemma automator_rewrite_idempotent_witness :
  let once :=
    snd (Automator.apply_localization_to_file Sample.english
           (Some Sample.form_dart) false) in
  snd (Automator.apply_localization_to_file Sample.english once false) = once.
Proof.
  refine (proj2 (@automator_rewrite_idempotent Sample.english []
                   (Some Sample.form_dart) _)).
  intros key H. simpl in H.
  repeat (destruct H as [H|H]; [subst key; vm_compute; intuition discriminate|]).
  contradiction.
Defined.

(** C2, the counterexample: the rewrite of LocalizationApplier wraps the
    fallback literal of its own first run into a second lookup. *)
Lemma applier_rewrite_wraps_twice :
  let once :=
    snd (Applier.apply_localization_to_file (lit "lib/screens/home.dart")
           (Some Sample.home_dart) [Sample.save]) in
  let twice :=
    snd (Applier.apply_localization_to_file (lit "lib/screens/home.dart")
           once [Sample.save]) in
  once = Some {| content :=
                   lit "child: Text(AppLocalizations.of(context)?.save_button ?? 'Save'),";
                 writable := true |}
  /\ twice
     = Some {| content :=
                 lit "child: Text(AppLocalizations.of(context)?.save_button ?? AppLocalizations.of(context)?.save_button ?? 'Save'),";
               writable := true |}
  /\ twice <> once.
Proof.
  intros once twice.
  assert (H1 : once = Some {| content :=
                   lit "child: Text(AppLocalizations.of(context)?.save_button ?? 'Save'),";
                 writable := true |}) by (vm_compute; reflexivity).
  assert (H2 : twice = Some {| content :=
                 lit "child: Text(AppLocalizations.of(context)?.save_button ?? AppLocalizations.of(context)?.save_button ?? 'Save'),";
               writable := true |}) by (vm_compute; reflexivity).
  split; [exact H1|]. split; [exact H2|].
  rewrite H1, H2. vm_compute. discriminate.
Qed.

(** C7, as amended: FlutterLocalizationAutomator writes the fallback
    with the quote character of the literal; LocalizationApplier writes
    it with single quotes, also for a literal in double quotes. *)
Theorem fallback_quote_style (q : char) (text key pre post : str) :
  ~ In q pre ->
  contains marker (pre ++ Automator.quoted q text ++ post) = false ->
  fst (Automator.localize_line q text key (pre ++ Automator.quoted q text ++ post))
  = pre ++ (marker ++ lit "?." ++ key ++ lit " ?? " ++ q :: text ++ [q])
        ++ replace_from (Automator.quoted q text)
             (Automator.replacement q key text) 0 post
  /\ (q = dquote -> Applier.plain text = true ->
      contains (Applier.quoted squote text)
        (pre ++ Applier.quoted dquote text ++ post) = false ->
      Applier.replace_first_pattern (Applier.patterns text) key text
        (pre ++ Applier.quoted dquote text ++ post)
      = Some (pre ++ (marker ++ lit "?." ++ key ++ lit " ?? "
                             ++ squote :: text ++ [squote])
                  ++ replace (Applier.quoted dquote text)
                       (Applier.replacement key text) post)).
Proof.
  intros Hpre Hmark. split.
  - unfold Automator.localize_line. rewrite Hmark.
    assert (Hc : contains (Automator.quoted q text)
                   (pre ++ Automator.quoted q text ++ post) = true).
    { apply contains_iff. now exists pre, post. }
    rewrite Hc. cbn [andb negb fst].
    unfold Automator.quoted at 1 2. rewrite replace_from_first by assumption.
    reflexivity.
  - intros -> Hplain Hno. now apply replace_double_quoted.
Qed.

(** The double-quoted sample literal under both rewrites. *)
Lemma fallback_quote_style_witness :
  fst (Automator.localize_line dquote (lit "Save") (lit "save_button") Sample.dq_line)
  = lit "child: Text(AppLocalizations.of(context)?.save_button ?? "
    ++ Automator.quoted dquote (lit "Save") ++ lit "),"
  /\ Applier.replace_first_pattern (Applier.patterns (lit "Save"))
       (lit "save_button") (lit "Save") Sample.dq_line
     = Some (lit "child: Text(AppLocalizations.of(context)?.save_button ?? 'Save'),").
Proof.
  assert (Hpre : ~ In dquote (lit "child: Text("))
    by (vm_compute; intuition discriminate).
  assert (Hmark : contains marker
            (lit "child: Text(" ++ Automator.quoted dquote (lit "Save") ++ lit "),")
          = false) by (vm_compute; reflexivity).
  destruct (@fallback_quote_style dquote (lit "Save") (lit "save_button")
              (lit "child: Text(") (lit "),") Hpre Hmark) as [HA HB].
  split.
  - etransitivity; [exact HA|]. vm_compute. reflexivity.
  - etransitivity; [exact (HB eq_refl eq_refl eq_refl)|]. vm_compute. reflexivity.
Defined.

(** C7, the counterexample: LocalizationApplier replaces the literal in
    double quotes by a lookup whose fallback is in single quotes. *)
Lemma applier_fallback_changes_quotes :
  Applier.apply_localization_to_file (lit "lib/screens/home.dart")
    (Some {| content := Sample.dq_line; writable := true |}) [Sample.save]
  = (1, Some {| content :=
                  lit "child: Text(AppLocalizations.of(context)?.save_button ?? 'Save'),";
                writable := true |})
  /\ contains (Applier.quoted dquote (lit "Save")) Sample.dq_line = true
  /\ contains (Applier.quoted dquote (lit "Save"))
       (lit "child: Text(AppLocalizations.of(context)?.save_button ?? 'Save'),")
     = false.
Proof. repeat split; vm_compute; reflexivity. Qed.

End RewriteClaims.

(** ** Regular expressions: the matcher and the language *)

Section RegexFacts.
Import Py Regex.

Lemma nullable_matches (r : re) : nullable r = true <-> matches r [].
Proof.
  split.
  - induction r; simpl; intros H; try discriminate.
    + constructor.
    + apply andb_true_iff in H. destruct H as [H1 H2].
      change (@nil char) with (@nil char ++ []). constructor; auto.
    + apply orb_true_iff in H. destruct H as [H|H];
        [apply MAltL | apply MAltR]; auto.
    + constructor.
  - intros H. remember [] as s eqn:Es. induction H; simpl; try reflexivity.
    + discriminate.
    + apply app_eq_nil in Es. destruct Es as [-> ->].
      now rewrite IHmatches1, IHmatches2.
    + now rewrite IHmatches.
    + rewrite IHmatches by assumption. apply orb_true_r.
Qed.

Lemma deriv_sound (c : char) (r : re) :
  forall s, matches (deriv c r) s -> matches r (c :: s).
Proof.
  induction r; simpl; intros s H.
  - inversion H.
  - inversion H.
  - destruct (p c) eqn:E; inversion H; subst. now constructor.
  - destruct (nullable r1) eqn:N.
    + inversion H; subst.
      * inversion H3; subst.
        change (c :: s1 ++ s2) with ((c :: s1) ++ s2). constructor; auto.
      * change (c :: s) with ([] ++ c :: s). constructor; auto.
        now apply nullable_matches.
    + inversion H; subst.
      change (c :: s1 ++ s2) with ((c :: s1) ++ s2). constructor; auto.
  - inversion H; subst; [apply MAltL | apply MAltR]; auto.
  - inversion H; subst.
    change (c :: s1 ++ s2) with ((c :: s1) ++ s2). constructor; auto.
Qed.

Lemma deriv_complete (r : re) (t : str) :
  matches r t -> forall c t', t = c :: t' -> matches (deriv c r) t'.
Proof.
  induction 1; intros a t' Heq; simpl.
  - discriminate.
  - inversion Heq; subst. rewrite H. constructor.
  - destruct s1 as [|b s1].
    + simpl in Heq. subst.
      apply nullable_matches in H. rewrite H. apply MAltR. now apply IHmatches2.
    + inversion Heq; subst.
      destruct (nullable r1); [apply MAltL|]; constructor; auto.
  - apply MAltL. auto.
  - apply MAltR. auto.
  - discriminate.
  - destruct s1 as [|b s1].
    + simpl in Heq. now apply IHmatches2.
    + inversion Heq; subst. constructor; auto.
Qed.

Lemma deriv_matches (c : char) (r : re) (s : str) :
  matches (deriv c r) s <-> matches r (c :: s).
Proof.
  split; [apply deriv_sound|]. intros H. now apply (deriv_complete H).
Qed.

Lemma match_prefix_iff (s : str) : forall r,
  match_prefix r s = true <-> exists u v, s = u ++ v /\ matches r u.
Proof.
  induction s as [|c s IH]; intros r; simpl.
  - rewrite orb_false_r, nullable_matches. split.
    + intros H. now exists [], [].
    + intros [u [v [Huv H]]]. symmetry in Huv.
      apply app_eq_nil in Huv. destruct Huv as [-> _]. exact H.
  - rewrite orb_true_iff, nullable_matches, IH. split.
    + intros [H|[u [v [-> H]]]].
      * now exists [], (c :: s).
      * exists (c :: u), v. split; [reflexivity | now apply deriv_matches].
    + intros [[|b u] [v [Huv H]]]; [now left|].
      inversion Huv; subst. right. exists u, v.
      split; [reflexivity | now apply deriv_matches].
Qed.

Lemma match_dollar_iff (s : str) : forall r,
  match_dollar r s = true
  <-> matches r s \/ exists u, s = u ++ [newline] /\ matches r u.
Proof.
  induction s as [|c s IH]; intros r; simpl.
  - rewrite nullable_matches. split; [now left|].
    intros [H|[u [Hu _]]]; [exact H|]. destruct u; discriminate.
  - rewrite orb_true_iff, andb_true_iff, nullable_matches, str_eqb_eq, IH.
    split.
    + intros [[H Heq]|[H|[u [-> H]]]].
      * right. exists []. now split.
      * left. now apply deriv_matches.
      * right. exists (c :: u). split; [reflexivity | now apply deriv_matches].
    + intros [H|[[|b u] [Hu H]]].
      * right. left. now apply deriv_matches.
      * left. now split.
      * inversion Hu; subst. right. right. exists u.
        split; [reflexivity | now apply deriv_matches].
Qed.

(** *** The languages of the building blocks *)

Lemma matches_Eps (s : str) : matches Eps s <-> s = [].
Proof. split; [now inversion 1 | intros ->; constructor]. Qed.

Lemma matches_Class (p : char -> bool) (s : str) :
  matches (Class p) s <-> exists c, s = [c] /\ p c = true.
Proof.
  split.
  - inversion 1; subst. now eexists.
  - intros [c [-> H]]. now constructor.
Qed.

Lemma matches_Chr (c : char) (s : str) : matches (Chr c) s <-> s = [c].
Proof.
  unfold Chr. rewrite matches_Class. split.
  - intros [a [-> H]]. apply N.eqb_eq in H. now subst.
  - intros ->. exists c. split; [reflexivity | apply N.eqb_refl].
Qed.

Lemma matches_Cat (r1 r2 : re) (s : str) :
  matches (Cat r1 r2) s
  <-> exists s1 s2, s = s1 ++ s2 /\ matches r1 s1 /\ matches r2 s2.
Proof.
  split.
  - inversion 1; subst. now exists s1, s2.
  - intros [s1 [s2 [-> [H1 H2]]]]. now constructor.
Qed.

Lemma matches_Alt (r1 r2 : re) (s : str) :
  matches (Alt r1 r2) s <-> matches r1 s \/ matches r2 s.
Proof.
  split.
  - inversion 1; subst; auto.
  - intros [H|H]; [apply MAltL | apply MAltR]; exact H.
Qed.

Lemma matches_Lit (l s : str) : matches (Lit l) s <-> s = l.
Proof.
  revert s. induction l as [|c l IH]; intros s; simpl.
  - apply matches_Eps.
  - rewrite matches_Cat. split.
    + intros [s1 [s2 [-> [H1 H2]]]]. apply matches_Chr in H1. apply IH in H2.
      now subst.
    + intros ->. exists [c], l. repeat split.
      * now apply matches_Chr.
      * now apply IH.
Qed.

Lemma matches_Star_Class (p : char -> bool) (s : str) :
  matches (Star (Class p)) s <-> forallb p s = true.
Proof.
  split.
  - intros H. remember (Star (Class p)) as r eqn:Er.
    induction H; try discriminate; [reflexivity|].
    inversion Er; subst. apply matches_Class in H.
    destruct H as [c [-> Hc]]. simpl.
    rewrite Hc. now apply IHmatches2.
  - induction s as [|c s IH]; simpl; intros H; [constructor|].
    apply andb_true_iff in H. destruct H as [Hc Hs].
    change (c :: s) with ([c] ++ s). constructor; [now constructor | auto].
Qed.

Lemma matches_Plus_Class (p : char -> bool) (s : str) :
  matches (Plus (Class p)) s <-> s <> [] /\ forallb p s = true.
Proof.
  unfold Plus. rewrite matches_Cat. split.
  - intros [s1 [s2 [-> [H1 H2]]]]. apply matches_Class in H1.
    destruct H1 as [c [-> Hc]]. apply matches_Star_Class in H2.
    split; [discriminate|]. simpl. now rewrite Hc, H2.
  - intros [Hne H]. destruct s as [|c s]; [congruence|].
    simpl in H. apply andb_true_iff in H. destruct H as [Hc Hs].
    exists [c], s. repeat split.
    + apply matches_Class. now exists c.
    + now apply matches_Star_Class.
Qed.

(** *** Trimmed text *)

Lemma lstrip_head (s : str) (c : char) (t : str) :
  lstrip s = c :: t -> is_space c = false.
Proof.
  induction s as [|a s IH]; simpl; [discriminate|].
  destruct (is_space a) eqn:E; [exact IH|].
  intros H. inversion H; subst. exact E.
Qed.

Lemma strip_no_final_newline (s u : str) : strip s <> u ++ [newline].
Proof.
  unfold strip, rstrip. intros H.
  apply (f_equal (@rev char)) in H.
  rewrite rev_involutive, rev_app_distr in H. simpl in H.
  apply lstrip_head in H. vm_compute in H. discriminate.
Qed.

Lemma match_dollar_strip (r : re) (s : str) :
  match_dollar r (strip s) = true <-> matches r (strip s).
Proof.
  rewrite match_dollar_iff. split; [|now left].
  intros [H|[u [Hu _]]]; [exact H|].
  exfalso. exact (strip_no_final_newline _ _ Hu).
Qed.

End RegexFacts.

(** ** The skip heuristic (flutter_localization_automation.py) *)

Section SkipFacts.
Import Py Regex Automator.

Lemma matches_Class_Star (p1 p2 : char -> bool) (t : str) :
  matches (Cat (Class p1) (Star (Class p2))) t
  <-> exists c rest, t = c :: rest /\ p1 c = true /\ forallb p2 rest = true.
Proof.
  rewrite matches_Cat. split.
  - intros [s1 [s2 [-> [H1 H2]]]]. apply matches_Class in H1.
    destruct H1 as [c [-> Hc]]. apply matches_Star_Class in H2.
    now exists c, s2.
  - intros [c [rest [-> [Hc Hr]]]]. exists [c], rest. repeat split.
    + apply matches_Class. now exists c.
    + now apply matches_Star_Class.
Qed.

Lemma forallb_not_newline (s : str) :
  forallb (fun c => negb (N.eqb c newline)) s = true <-> nl_free s.
Proof.
  unfold nl_free. rewrite forallb_forall. split.
  - intros H Hin. specialize (H _ Hin). now rewrite N.eqb_refl in H.
  - intros H c Hin. apply negb_true_iff, N.eqb_neq. intros ->. contradiction.
Qed.

Lemma url_pattern (t : str) :
  match_prefix
    (Cat (Lit (lit "http")) (Cat (Opt (Chr (ch "s"))) (Lit (lit "://")))) t = true
  <-> SkipSpec.url_prefix t.
Proof.
  rewrite match_prefix_iff. unfold SkipSpec.url_prefix. split.
  - intros [u [v [-> H]]]. apply matches_Cat in H.
    destruct H as [s1 [s2 [-> [H1 H2]]]]. apply matches_Lit in H1. subst s1.
    apply matches_Cat in H2. destruct H2 as [s3 [s4 [-> [H3 H4]]]].
    apply matches_Lit in H4. subst s4. exists v.
    apply matches_Alt in H3. destruct H3 as [H3|H3].
    + apply matches_Eps in H3. subst. now left.
    + apply matches_Chr in H3. subst. now right.
  - intros [rest [-> | ->]].
    + exists (lit "http://"), rest. split; [reflexivity|].
      apply matches_Cat. exists (lit "http"), (lit "://"). repeat split.
      * now apply matches_Lit.
      * apply matches_Cat. exists [], (lit "://"). repeat split.
        -- apply MAltL. constructor.
        -- now apply matches_Lit.
    + exists (lit "https://"), rest. split; [reflexivity|].
      apply matches_Cat. exists (lit "http"), (lit "s://"). repeat split.
      * now apply matches_Lit.
      * apply matches_Cat. exists (lit "s"), (lit "://"). repeat split.
        -- apply MAltR. now apply matches_Chr.
        -- now apply matches_Lit.
Qed.

Lemma email_pattern (t : str) :
  matches
    (Cat (Plus (Class (fun c => word_class c || in_chars "._%+-" c)))
    (Cat (Chr (ch "@"))
    (Cat (Plus (Class (fun c => word_class c || in_chars ".-" c)))
    (Cat (Chr (ch "."))
    (Cat (Class (fun c => is_upper c || is_lower c))
    (Cat (Class (fun c => is_upper c || is_lower c))
         (Star (Class (fun c => is_upper c || is_lower c))))))))) t
  <-> SkipSpec.email_address t.
Proof.
  unfold SkipSpec.email_address. split.
  - intros H.
    apply matches_Cat in H. destruct H as [loc [s1 [-> [Hloc H]]]].
    apply matches_Plus_Class in Hloc. destruct Hloc as [Hloc1 Hloc2].
    apply matches_Cat in H. destruct H as [at_ [s2 [-> [Hat H]]]].
    apply matches_Chr in Hat. subst at_.
    apply matches_Cat in H. destruct H as [dom [s3 [-> [Hdom H]]]].
    apply matches_Plus_Class in Hdom. destruct Hdom as [Hdom1 Hdom2].
    apply matches_Cat in H. destruct H as [dot [s4 [-> [Hdot H]]]].
    apply matches_Chr in Hdot. subst dot.
    apply matches_Cat in H. destruct H as [l1 [s5 [-> [Hl1 H]]]].
    apply matches_Class in Hl1. destruct Hl1 as [c1 [-> Hc1]].
    apply matches_Class_Star in H. destruct H as [c2 [rest [-> [Hc2 Hrest]]]].
    exists loc, dom, (c1 :: c2 :: rest). repeat split; try assumption.
    + simpl. lia.
    + unfold SkipSpec.letter. simpl. now rewrite Hc1, Hc2.
  - intros [loc [dom [tld [-> [Hl1 [Hl2 [Hd1 [Hd2 [Hlen Htld]]]]]]]]].
    destruct tld as [|c1 [|c2 rest]]; simpl in Hlen; try lia.
    unfold SkipSpec.letter in Htld. simpl in Htld.
    apply andb_true_iff in Htld. destruct Htld as [Hc1 Htld].
    apply andb_true_iff in Htld. destruct Htld as [Hc2 Hrest].
    apply matches_Cat. exists loc, ((ch "@") :: dom ++ (ch ".") :: c1 :: c2 :: rest).
    repeat split; [now apply matches_Plus_Class|].
    apply matches_Cat. exists [(ch "@")], (dom ++ (ch ".") :: c1 :: c2 :: rest).
    repeat split; [now apply matches_Chr|].
    apply matches_Cat. exists dom, ((ch ".") :: c1 :: c2 :: rest).
    repeat split; [now apply matches_Plus_Class|].
    apply matches_Cat. exists [(ch ".")], (c1 :: c2 :: rest).
    repeat split; [now apply matches_Chr|].
    apply matches_Cat. exists [c1], (c2 :: rest).
    repeat split; [apply matches_Class; now exists c1|].
    apply matches_Class_Star. now exists c2, rest.
Qed.

Lemma template_pattern (t : str) :
  matches
    (Cat (Lit (lit "${"))
       (Cat (Star (Class (fun c => negb (N.eqb c newline)))) (Chr (ch "}")))) t
  <-> SkipSpec.template_only t.
Proof.
  unfold SkipSpec.template_only. split.
  - intros H. apply matches_Cat in H. destruct H as [s1 [s2 [-> [H1 H2]]]].
    apply matches_Lit in H1. subst s1.
    apply matches_Cat in H2. destruct H2 as [inner [s3 [-> [H3 H4]]]].
    apply matches_Chr in H4. subst s3.
    apply matches_Star_Class, forallb_not_newline in H3. now exists inner.
  - intros [inner [-> Hnl]].
    apply matches_Cat. exists (lit "${"), (inner ++ lit "}").
    repeat split; [now apply matches_Lit|].
    apply matches_Cat. exists inner, (lit "}"). repeat split.
    + now apply matches_Star_Class, forallb_not_newline.
    + now apply matches_Chr.
Qed.

(** C9: the skip predicate holds exactly when the trimmed text is
    shorter than two characters or has one of the seven shapes. *)
Theorem should_skip_string_exact (text : str) :
  should_skip_string text = true <-> SkipSpec.skip_heuristic (strip text).
Proof.
  unfold should_skip_string, SkipSpec.skip_heuristic.
  destruct (length (strip text) <? 2) eqn:E.
  - apply Nat.ltb_lt in E. split; [now left | reflexivity].
  - apply Nat.ltb_ge in E.
    unfold skip_patterns. cbn [existsb]. unfold re_match. cbn [dollar body].
    rewrite !orb_true_iff, !match_dollar_strip.
    rewrite url_pattern, !matches_Plus_Class, email_pattern, template_pattern,
      !matches_Class_Star.
    unfold SkipSpec.bare_integer, SkipSpec.phone_shaped, SkipSpec.caps_constant,
      SkipSpec.lower_camel_identifier.
    split.
    + intros H. right. intuition discriminate.
    + intros [H|H]; [lia|]. intuition.
Qed.

(** A few literals under the predicate. *)
Example should_skip_string_samples :
  map should_skip_string
    [lit "https://example.com"; lit "12345"; lit "+1 (555) 12-34";
     lit "a.b@c-d.io"; lit "${count}"; lit "MAX_LEN"; lit "userName";
     lit " x "; lit "Save changes"; lit "Save"]
  = [true; true; true; true; true; true; true; true; false; false].
Proof. vm_compute. reflexivity. Qed.

End SkipFacts.


(** * Further properties of the code *)

(** ** The text-to-key mapping (flutter_localization_automation.py) *)

Section MappingFacts.
Import Py Dart Automator.

Lemma dict_set_pairs (V : Type) (d : dict V) (k : str) (v : V) (a : str) (b : V) :
  In (a, b) (dict_set d k v) -> In (a, b) d \/ (a = k /\ b = v).
Proof.
  induction d as [|[k' v'] d IH]; simpl.
  - intros [H|[]]. inversion H. now right.
  - destruct (str_eqb k k') eqn:E.
    + apply str_eqb_eq in E. subst k'. intros [H|H].
      * inversion H. now right.
      * left. now right.
    + intros [H|H]; [left; now left|].
      destruct (IH H) as [H'|H']; [left; now right | now right].
Qed.

(** The loop body of [create_english_to_key_mapping]. *)
Lemma mapping_fold_sound (tr : dict arb_value) : forall (acc : dict str) text key,
  In (text, key)
     (fold_left
        (fun mapping kv =>
           match snd kv with
           | ArbText value =>
               if negb (startswith (lit "@") (fst kv)) then
                 match strip value with
                 | [] => mapping
                 | _ :: _ => dict_set mapping (strip value) (fst kv)
                 end
               else mapping
           | ArbMeta _ => mapping
           end) tr acc) ->
  In (text, key) acc
  \/ exists value, In (key, ArbText value) tr /\ text = strip value
                   /\ text <> [] /\ startswith (lit "@") key = false.
Proof.
  induction tr as [|[k v] tr IH]; intros acc text key H; [now left|].
  cbn [fold_left fst snd] in H. apply IH in H.
  destruct H as [H|[value [Hin Hrest]]].
  - destruct v as [value|]; [|now left].
    destruct (startswith (lit "@") k) eqn:Eat; cbn [negb] in H; [now left|].
    destruct (strip value) as [|c t] eqn:Es; [now left|].
    apply dict_set_pairs in H. destruct H as [H|[-> ->]]; [now left|].
    right. exists value. repeat split; try assumption.
    + now left.
    + now symmetry.
    + discriminate.
  - right. exists value. split; [now right | assumption].
Qed.

Lemma mapping_fold_keys (tr : dict arb_value) : forall (acc : dict str) text,
  In text (dict_keys acc)
  \/ (exists key value, In (key, ArbText value) tr
        /\ startswith (lit "@") key = false /\ text = strip value /\ text <> []) ->
  In text
     (dict_keys
        (fold_left
           (fun mapping kv =>
              match snd kv with
              | ArbText value =>
                  if negb (startswith (lit "@") (fst kv)) then
                    match strip value with
                    | [] => mapping
                    | _ :: _ => dict_set mapping (strip value) (fst kv)
                    end
                  else mapping
              | ArbMeta _ => mapping
              end) tr acc)).
Proof.
  induction tr as [|[k v] tr IH]; intros acc text H.
  - destruct H as [H|[key [value [[] _]]]]. exact H.
  - cbn [fold_left fst snd]. apply IH.
    destruct H as [H|[key [value [[Hin|Hin] [Hat [Ht Hne]]]]]].
    + left. destruct v as [value|]; [|exact H].
      destruct (negb (startswith (lit "@") k)); [|exact H].
      destruct (strip value); [exact H|]. now apply dict_set_keys_incl.
    + inversion Hin; subst. left. rewrite Hat. cbn [negb].
      destruct (strip value) eqn:Es; [congruence|]. apply dict_set_keys_new.
    + right. now exists key, value.
Qed.

(** X1: the mapping holds a text exactly when the text is the trimmed,
    non-empty value of a translation entry whose key does not start with
    [@]; the key it maps to is the key of such an entry.  Metadata
    entries and blank texts never reach the rewrite. *)
Theorem english_to_key_mapping_exact (english_translations : dict arb_value) :
  (forall text,
      In text (dict_keys (create_english_to_key_mapping english_translations))
      <-> exists key value,
            In (key, ArbText value) english_translations
            /\ startswith (lit "@") key = false
            /\ text = strip value /\ text <> [])
  /\ (forall text key,
      In (text, key) (create_english_to_key_mapping english_translations) ->
      exists value,
        In (key, ArbText value) english_translations
        /\ text = strip value /\ text <> []
        /\ startswith (lit "@") key = false).
Proof.
  split.
  - intros text. split.
    + intros H. unfold dict_keys in H. apply in_map_iff in H.
      destruct H as [[t key] [Ht Hin]]. simpl in Ht. subst t.
      apply mapping_fold_sound in Hin.
      destruct Hin as [[]|[value [H1 [H2 [H3 H4]]]]]. now exists key, value.
    + intros H. apply mapping_fold_keys. now right.
  - intros text key H. apply mapping_fold_sound in H.
    destruct H as [[]|H]. exact H.
Qed.

End MappingFacts.

(** ** The change count and the text (flutter_localization_automation.py) *)

Section CountFacts.
Import Py Dart Automator AutomatorRun.

Lemma fold_add_sum (l : list nat) : forall n, fold_left Nat.add l n = n + list_sum l.
Proof.
  induction l as [|a l IH]; intros n; simpl; [lia|]. rewrite IH. lia.
Qed.

Lemma count_from_pos (q : char) (rest : str) :
  forall s, contains (q :: rest) s = true -> 1 <= count_from (q :: rest) 0 s.
Proof.
  induction s as [|a s IH]; intros H.
  - simpl in H. discriminate.
  - cbn [contains] in H. cbn [count_from].
    destruct (startswith (q :: rest) (a :: s)); [lia|].
    simpl in H. now apply IH.
Qed.

Lemma localize_line_zero (q : char) (text key line : str) :
  snd (localize_line q text key line) = 0 ->
  fst (localize_line q text key line) = line.
Proof.
  unfold localize_line.
  destruct (contains (quoted q text) line) eqn:E; [|reflexivity].
  destruct (contains marker line); [reflexivity|]. cbn [andb negb snd fst].
  intros H. apply count_from_pos in E. unfold quoted in H. lia.
Qed.

Lemma lines_all_zero (q : char) (text key : str) (lines : list str) :
  list_sum (map snd (map (localize_line q text key) lines)) = 0 ->
  map fst (map (localize_line q text key) lines) = lines.
Proof.
  induction lines as [|l lines IH]; simpl; intros H; [reflexivity|].
  assert (H1 : snd (localize_line q text key l) = 0) by lia.
  rewrite (localize_line_zero _ _ _ _ H1). f_equal. apply IH. lia.
Qed.

Lemma localize_pattern_count (q : char) (text key : str) (st : str * nat) :
  snd st <= snd (localize_pattern q text key st)
  /\ (snd (localize_pattern q text key st) = snd st ->
      fst (localize_pattern q text key st) = fst st).
Proof.
  unfold localize_pattern.
  destruct (contains (quoted q text) (fst st)); [|split; [lia | reflexivity]].
  cbn [fst snd]. rewrite fold_add_sum. split; [lia|].
  intros H. rewrite lines_all_zero by lia. apply join_split.
Qed.

Lemma localize_fold_count (m : dict str) : forall st : str * nat,
  let r :=
    fold_left
      (fun st tk =>
         localize_pattern dquote (fst tk) (snd tk)
           (localize_pattern squote (fst tk) (snd tk) st)) m st in
  snd st <= snd r /\ (snd r = snd st -> fst r = fst st).
Proof.
  induction m as [|tk m IH]; intros st; cbn [fold_left].
  - split; [lia | reflexivity].
  - set (st1 := localize_pattern squote (fst tk) (snd tk) st).
    set (st2 := localize_pattern dquote (fst tk) (snd tk) st1).
    destruct (localize_pattern_count squote (fst tk) (snd tk) st) as [A1 B1].
    destruct (localize_pattern_count dquote (fst tk) (snd tk) st1) as [A2 B2].
    fold st1 in A1, B1. fold st2 in A2, B2.
    destruct (IH st2) as [A3 B3]. cbv zeta in A3, B3. split; [lia|].
    intros H. rewrite B3 by lia. rewrite B2 by lia. apply B1. lia.
Qed.

Lemma localize_content_zero (english_to_key : dict str) (content : str) :
  snd (localize_content english_to_key content) = 0 ->
  fst (localize_content english_to_key content) = content.
Proof.
  intros H. unfold localize_content in *.
  destruct (localize_fold_count english_to_key (content, 0)) as [_ B].
  cbv zeta in B. now apply B.
Qed.

(** X2: when the rewrite counts no change it returns the text as it
    was, so the write that the code skips for a count of 0 would have
    written nothing new. *)
Theorem no_change_counted_no_change_made (english_to_key : dict str)
    (content : str) :
  snd (localize_content english_to_key content) = 0 ->
  fst (localize_content english_to_key content) = content.
Proof.
  apply localize_content_zero.
Qed.

(** The sample file without a literal of the catalog. *)
Lemma no_change_counted_no_change_made_witness :
  fst (localize_content [(lit "Save", lit "save")] (lit "Text('Other'),"))
  = lit "Text('Other'),".
Proof.
  apply (@no_change_counted_no_change_made [(lit "Save", lit "save")]
           (lit "Text('Other'),")).
  vm_compute. reflexivity.
Defined.

(** X3: after a real run on a file that can be written, the file holds
    the rewritten text and the call returns the number of changes,
    whether or not the write took place. *)
Theorem real_run_result (english_translations : dict arb_value) (fl : file) :
  writable fl = true ->
  apply_localization_to_file english_translations (Some fl) false
  = (snd (localize_content
            (create_english_to_key_mapping english_translations) (Dart.content fl)),
     Some {| content :=
               fst (localize_content
                      (create_english_to_key_mapping english_translations)
                      (Dart.content fl));
             writable := true |}).
Proof.
  intros W. unfold apply_localization_to_file. cbn [negb].
  rewrite andb_true_r, W.
  destruct (0 <? snd (localize_content
                        (create_english_to_key_mapping english_translations)
                        (Dart.content fl))) eqn:E; [reflexivity|].
  apply Nat.ltb_ge in E.
  rewrite localize_content_zero by lia.
  destruct fl as [c w]. simpl in *. now subst w.
Qed.

Lemma real_run_result_witness :
  writable Sample.form_dart = true
  /\ fst (apply_localization_to_file Sample.english (Some Sample.form_dart) false)
     = 1.
Proof.
  split; [reflexivity|].
  rewrite (@real_run_result Sample.english Sample.form_dart eq_refl).
  vm_compute. reflexivity.
Defined.

End CountFacts.

(** ** Lines under the rewrite, and a second run *)

Section SecondRun.
Import Py Dart Automator AutomatorRun.

Lemma localize_content_split (english_to_key : dict str) (content : str) :
  Forall (fun tk => nl_free (snd tk)) english_to_key ->
  split_lines (fst (localize_content english_to_key content))
  = map (lines_pass english_to_key) (split_lines content).
Proof.
  intros Hm. rewrite (localize_content_lines _ Hm). apply split_join.
  - destruct (split_lines_cons content) as [l [ls ->]]. discriminate.
  - apply Forall_map. generalize (split_lines_nl_free content).
    apply Forall_impl. intros l. now apply lines_pass_nl_free.
Qed.

(** X4: with keys free of line breaks the rewrite works line by line:
    the lines of the result are the rewritten lines of the input, one
    for one, and a line that already holds a lookup is returned as it
    is. *)
Theorem rewrite_is_line_by_line (english_to_key : dict str) (content : str) :
  Forall (fun tk => nl_free (snd tk)) english_to_key ->
  split_lines (fst (localize_content english_to_key content))
  = map (lines_pass english_to_key) (split_lines content)
  /\ length (split_lines (fst (localize_content english_to_key content)))
     = length (split_lines content)
  /\ forall line, contains marker line = true ->
                  lines_pass english_to_key line = line.
Proof.
  intros Hm.
  pose proof (@localize_content_split english_to_key content Hm) as H.
  split; [exact H|]. split.
  - now rewrite H, length_map.
  - intros line. apply lines_pass_marked.
Qed.

Lemma rewrite_is_line_by_line_witness :
  split_lines
    (fst (localize_content [(lit "Save", lit "save")]
            (Dart.content Sample.form_dart)))
  = [lit "Text(AppLocalizations.of(context)?.save ?? 'Save'),"; lit "Text('Other'),"].
Proof.
  assert (Hm : Forall (fun tk : str * str => nl_free (snd tk))
                 [(lit "Save", lit "save")]).
  { repeat constructor. vm_compute. intuition discriminate. }
  rewrite (proj1 (@rewrite_is_line_by_line [(lit "Save", lit "save")]
                    (Dart.content Sample.form_dart) Hm)).
  vm_compute. reflexivity.
Defined.

Lemma pattern_line_fires (q : char) (tk : str * str) (line : str) :
  contains (quoted q (fst tk)) line && negb (contains marker line) = true ->
  contains marker (pattern_line q tk line) = true.
Proof.
  intros H. unfold pattern_line, localize_line. rewrite H. cbn [fst].
  apply andb_true_iff in H. destruct H as [E _].
  destruct (@replace_from_holds_new q (fst tk ++ [q])
              (replacement q (snd tk) (fst tk)) line E) as [x [y Hxy]].
  unfold quoted. rewrite Hxy. apply replacement_has_marker.
Qed.

Lemma pattern_line_silent (q : char) (tk : str * str) (line : str) :
  contains marker (pattern_line q tk line) = false ->
  pattern_line q tk line = line
  /\ contains (quoted q (fst tk)) line && negb (contains marker line) = false.
Proof.
  intros H.
  destruct (contains (quoted q (fst tk)) line && negb (contains marker line)) eqn:E.
  - apply pattern_line_fires in E. congruence.
  - split; [|reflexivity]. unfold pattern_line, localize_line. now rewrite E.
Qed.

(** A line without a lookup after the pass is the line before the pass,
    and no pattern fires on it. *)
Lemma lines_pass_silent (m : dict str) : forall line,
  contains marker (lines_pass m line) = false ->
  lines_pass m line = line /\ quiet m line.
Proof.
  induction m as [|tk m IH]; intros line H.
  - split; [reflexivity | intros tk []].
  - change (lines_pass (tk :: m) line)
      with (lines_pass m (entry_line tk line)) in *.
    destruct (IH _ H) as [He Hq]. rewrite He in *.
    unfold entry_line in H, Hq |- *.
    destruct (pattern_line_silent dquote tk _ H) as [Hd Hd'].
    rewrite Hd in *.
    destruct (pattern_line_silent squote tk _ H) as [Hs Hs'].
    rewrite Hs in *. split; [reflexivity|].
    intros tk' [<-|Hin]; [now split | now apply Hq].
Qed.

Lemma marked_quiet (m : dict str) (line : str) :
  contains marker line = true -> quiet m line.
Proof.
  intros H tk _. rewrite H. cbn [negb]. now rewrite !andb_false_r.
Qed.

Lemma lines_pass_quiet (m : dict str) (line : str) : quiet m (lines_pass m line).
Proof.
  destruct (contains marker (lines_pass m line)) eqn:E.
  - now apply marked_quiet.
  - destruct (lines_pass_silent m line E) as [-> Hq]. exact Hq.
Qed.

Lemma quiet_lines_unchanged (q : char) (text key : str) (lines : list str) :
  Forall (fun line =>
            contains (quoted q text) line && negb (contains marker line) = false)
         lines ->
  map (localize_line q text key) lines = map (fun line => (line, 0)) lines.
Proof.
  intros H. apply map_ext_in. intros line Hin.
  rewrite Forall_forall in H. unfold localize_line. now rewrite (H line Hin).
Qed.

Lemma list_sum_zeros (A : Type) (l : list A) : list_sum (map (fun _ => 0) l) = 0.
Proof. induction l as [|a l IH]; simpl; [reflexivity | exact IH]. Qed.

Lemma localize_pattern_quiet (q : char) (text key : str) (st : str * nat) :
  Forall (fun line =>
            contains (quoted q text) line && negb (contains marker line) = false)
         (split_lines (fst st)) ->
  localize_pattern q text key st = st.
Proof.
  intros H. unfold localize_pattern.
  destruct (contains (quoted q text) (fst st)); [|reflexivity].
  rewrite (@quiet_lines_unchanged q text key _ H), !map_map. cbn [fst snd].
  rewrite map_id, join_split, fold_add_sum.
  rewrite list_sum_zeros, Nat.add_0_r. now destruct st.
Qed.

Lemma localize_content_quiet (m : dict str) : forall st : str * nat,
  Forall (quiet m) (split_lines (fst st)) ->
  fold_left
    (fun st tk =>
       localize_pattern dquote (fst tk) (snd tk)
         (localize_pattern squote (fst tk) (snd tk) st)) m st
  = st.
Proof.
  induction m as [|tk m IH]; intros st H; [reflexivity|]. cbn [fold_left].
  rewrite (localize_pattern_quiet squote).
  - rewrite (localize_pattern_quiet dquote).
    + apply IH. revert H. apply Forall_impl. intros l Hq tk' Hin.
      apply Hq. now right.
    + revert H. apply Forall_impl. intros l Hq. apply (Hq tk). now left.
  - revert H. apply Forall_impl. intros l Hq. apply (Hq tk). now left.
Qed.

Lemma second_rewrite_idle (english_to_key : dict str) (content : str) :
  Forall (fun tk => nl_free (snd tk)) english_to_key ->
  localize_content english_to_key (fst (localize_content english_to_key content))
  = (fst (localize_content english_to_key content), 0).
Proof.
  intros Hm. unfold localize_content at 1. apply localize_content_quiet.
  cbn [fst]. rewrite (@localize_content_split english_to_key content Hm).
  apply Forall_map, Forall_forall. intros l _. apply lines_pass_quiet.
Qed.

(** X5: with keys free of line breaks, a second rewrite of the
    rewritten text counts no change and returns the text as it is. *)
Theorem second_rewrite_counts_nothing (english_to_key : dict str)
    (content : str) :
  Forall (fun tk => nl_free (snd tk)) english_to_key ->
  localize_content english_to_key (fst (localize_content english_to_key content))
  = (fst (localize_content english_to_key content), 0).
Proof.
  apply second_rewrite_idle.
Qed.

Lemma second_rewrite_counts_nothing_witness :
  snd (localize_content [(lit "Save", lit "save")]
         (fst (localize_content [(lit "Save", lit "save")]
                 (Dart.content Sample.form_dart))))
  = 0.
Proof.
  assert (Hm : Forall (fun tk : str * str => nl_free (snd tk))
                 [(lit "Save", lit "save")]).
  { repeat constructor. vm_compute. intuition discriminate. }
  now rewrite (@second_rewrite_counts_nothing [(lit "Save", lit "save")]
                 (Dart.content Sample.form_dart) Hm).
Defined.

End SecondRun.

(** ** The whole run of flutter_localization_automation.py *)

Section RunFacts.
Import Py Dart Automator AutomatorRun.

Lemma firstn_min_length (A : Type) (k : nat) (l : list A) :
  firstn k l = firstn (Nat.min k (length l)) l.
Proof.
  destruct (Nat.le_ge_cases k (length l)) as [H|H].
  - now rewrite Nat.min_l.
  - rewrite Nat.min_r by assumption. now rewrite !firstn_all2 by lia.
Qed.

(** The files that a run opens are the first [k] of the tree, and [k]
    depends on the length of the tree only. *)
Lemma find_dart_files_firstn (A : Type) (tree : list A) (max_files : option Z) :
  exists k, k <= length tree
    /\ forall tree' : list A, length tree' = length tree ->
         find_dart_files tree' max_files = firstn k tree'.
Proof.
  assert (Hall : exists k, k <= length tree
            /\ forall tree' : list A, length tree' = length tree ->
                 tree' = firstn k tree').
  { exists (length tree). split; [lia|]. intros tree' H.
    rewrite <- H. now rewrite firstn_all. }
  destruct max_files as [n|]; [|exact Hall]. unfold find_dart_files.
  destruct (n =? 0)%Z; [exact Hall|]. unfold slice_to.
  destruct (0 <=? n)%Z.
  - exists (Nat.min (Z.to_nat n) (length tree)). split; [lia|].
    intros tree' H. rewrite <- H. apply firstn_min_length.
  - exists (length tree - Z.to_nat (- n)). split; [lia|].
    intros tree' H. now rewrite H.
Qed.

Lemma visit_fold (tr : dict arb_value) (dry_run : bool) (l : list (option file)) :
  forall st acc,
    snd (fold_left (visit tr dry_run) l (st, acc))
    = acc ++ map (fun f => snd (apply_localization_to_file tr f dry_run)) l
    /\ files_processed (fst (fold_left (visit tr dry_run) l (st, acc)))
       = files_processed st + length l.
Proof.
  induction l as [|f l IH]; intros st acc; cbn [fold_left].
  - cbn [map length fst snd]. rewrite app_nil_r. split; [reflexivity | lia].
  - unfold visit at 2 4. cbn [fst snd].
    match goal with
    | |- context [fold_left _ l (?s, ?a)] => destruct (IH s a) as [H1 H2]
    end.
    rewrite H1, H2. cbn [files_processed map length].
    rewrite <- app_assoc. split; [reflexivity | lia].
Qed.

(** When no file counts a change, the two change counters stay. *)
Lemma visit_fold_idle (tr : dict arb_value) (dry_run : bool)
    (l : list (option file)) :
  Forall (fun f => fst (apply_localization_to_file tr f dry_run) = 0) l ->
  forall st acc,
    files_modified (fst (fold_left (visit tr dry_run) l (st, acc)))
    = files_modified st
    /\ total_changes (fst (fold_left (visit tr dry_run) l (st, acc)))
       = total_changes st.
Proof.
  induction 1 as [|f l Hf Hl IH]; intros st acc; cbn [fold_left].
  - now split.
  - unfold visit at 2 4. cbn [fst snd]. rewrite Hf. cbn [Nat.ltb Nat.leb].
    match goal with
    | |- context [fold_left _ l (?s, ?a)] => destruct (IH s a) as [H1 H2]
    end.
    rewrite H1, H2. now split.
Qed.

Lemma dry_run_same_file (tr : dict arb_value) (f : option file) :
  snd (apply_localization_to_file tr f true) = f.
Proof.
  destruct f as [fl|]; [|reflexivity]. unfold apply_localization_to_file.
  cbn [negb]. now rewrite andb_false_r.
Qed.

(** X6: a dry run of the whole tool leaves every file of the tree as it
    is, whatever the catalog and the limit on the number of files, and
    counts one processed file for each file that it opens. *)
Theorem run_dry_leaves_tree (english_translations : dict arb_value)
    (st : stats) (tree : list (option file)) (max_files : option Z) :
  snd (run_localization english_translations st tree max_files true) = tree
  /\ (english_translations <> [] ->
      files_processed
        (fst (run_localization english_translations st tree max_files true))
      = files_processed st + length (find_dart_files tree max_files)).
Proof.
  unfold run_localization.
  destruct english_translations as [|e tr]; [split; [reflexivity | congruence]|].
  cbn [fst snd].
  destruct (visit_fold (e :: tr) true (find_dart_files tree max_files) st [])
    as [H1 H2].
  rewrite H1, H2. split; [|reflexivity]. cbn [app].
  rewrite (map_ext _ (fun f => f)) by apply dry_run_same_file.
  rewrite map_id.
  destruct (find_dart_files_firstn tree max_files) as [k [Hk Hf]].
  rewrite (Hf tree eq_refl), length_firstn, Nat.min_l by assumption.
  apply firstn_skipn.
Qed.

Lemma run_dry_leaves_tree_witness :
  Sample.english <> []
  /\ run_localization Sample.english no_stats
       [Some Sample.form_dart; None; Some Sample.form_dart] (Some 2%Z) true
     = ({| files_processed := 2; files_modified := 1; strings_found := 0;
           strings_localized := 0; total_changes := 1 |},
        [Some Sample.form_dart; None; Some Sample.form_dart]).
Proof.
  split; [discriminate|].
  pose proof (@run_dry_leaves_tree Sample.english no_stats
                [Some Sample.form_dart; None; Some Sample.form_dart]
                (Some 2%Z)) as [H _].
  rewrite (surjective_pairing (run_localization _ _ _ _ _)), H.
  f_equal.
Defined.

(** A second real call on the file that the first call left returns 0
    and leaves the file. *)
Lemma second_call_idle (tr : dict arb_value) (f : option file) :
  (forall key, In key (dict_keys tr) -> nl_free key) ->
  apply_localization_to_file tr
    (snd (apply_localization_to_file tr f false)) false
  = (0, snd (apply_localization_to_file tr f false)).
Proof.
  intros Hk.
  assert (Hm : Forall (fun tk => nl_free (snd tk)) (create_english_to_key_mapping tr))
    by now apply mapping_values.
  destruct f as [fl|]; [|reflexivity].
  unfold apply_localization_to_file at 2 3. cbn [negb]. rewrite andb_true_r.
  destruct (0 <? snd (localize_content (create_english_to_key_mapping tr)
                        (Dart.content fl))) eqn:E1.
  - destruct (writable fl) eqn:W; cbn [snd].
    + unfold apply_localization_to_file. cbn [Dart.content writable negb].
      rewrite (second_rewrite_idle _ Hm). reflexivity.
    + unfold apply_localization_to_file. cbn [negb].
      now rewrite andb_true_r, E1, W.
  - cbn [snd]. unfold apply_localization_to_file. cbn [negb].
    rewrite andb_true_r, E1. f_equal.
    apply Nat.ltb_ge in E1. lia.
Qed.

(** X7: with keys free of line breaks, a second real run over the tree
    that a first run left modifies no file and counts no change; it
    opens as many files as the first run. *)
Theorem second_run_idle (english_translations : dict arb_value)
    (tree : list (option file)) (max_files : option Z) :
  (forall key, In key (dict_keys english_translations) -> nl_free key) ->
  let first := run_localization english_translations no_stats tree max_files false in
  let second :=
    run_localization english_translations no_stats (snd first) max_files false in
  snd second = snd first
  /\ files_modified (fst second) = 0
  /\ total_changes (fst second) = 0
  /\ files_processed (fst second) = files_processed (fst first).
Proof.
  intros Hk first second. subst first second. unfold run_localization.
  destruct english_translations as [|e tr]; [now repeat split|].
  set (cat := e :: tr) in *.
  set (g := fun f => snd (apply_localization_to_file cat f false)).
  destruct (find_dart_files_firstn tree max_files) as [k [Hle Hf]].
  cbn [fst snd].
  destruct (visit_fold cat false (find_dart_files tree max_files) no_stats [])
    as [H1 H2].
  rewrite H1, H2. cbn [app]. rewrite (Hf tree eq_refl).
  fold g. rewrite length_firstn, Nat.min_l by assumption.
  assert (Hlen : length (map g (firstn k tree) ++ skipn k tree) = length tree).
  { rewrite length_app, length_map, length_firstn, length_skipn. lia. }
  rewrite (Hf _ Hlen).
  assert (Hfirst : firstn k (map g (firstn k tree) ++ skipn k tree)
                   = map g (firstn k tree)).
  { rewrite firstn_app, length_map, length_firstn, Nat.min_l by assumption.
    rewrite Nat.sub_diag. cbn [firstn]. rewrite app_nil_r.
    apply firstn_all2. rewrite length_map, length_firstn. lia. }
  rewrite Hfirst.
  destruct (visit_fold cat false (map g (firstn k tree)) no_stats []) as [H3 H4].
  assert (Hidle : Forall (fun f => fst (apply_localization_to_file cat f false) = 0)
                    (map g (firstn k tree))).
  { apply Forall_map, Forall_forall. intros f _. unfold g.
    now rewrite second_call_idle. }
  destruct (@visit_fold_idle cat false _ Hidle no_stats []) as [H5 H6].
  rewrite H3, H4, H5, H6. cbn [app]. repeat split.
  - rewrite map_map. f_equal.
    + apply map_ext. intros f. fold (g f). unfold g.
      now rewrite second_call_idle.
    + rewrite length_map, length_firstn, Nat.min_l by assumption.
      rewrite skipn_app, length_map, length_firstn, Nat.min_l by assumption.
      rewrite Nat.sub_diag. cbn [skipn].
      rewrite skipn_all2 by (rewrite length_map, length_firstn; lia).
      reflexivity.
  - rewrite length_map, length_firstn. lia.
Qed.

Lemma second_run_idle_witness :
  let first :=
    run_localization Sample.english no_stats
      [Some Sample.form_dart; Some Sample.form_dart] None false in
  total_changes (fst first) = 2
  /\ total_changes
       (fst (run_localization Sample.english no_stats (snd first) None false))
     = 0.
Proof.
  split; [vm_compute; reflexivity|].
  refine (proj1 (proj2 (proj2 (@second_run_idle Sample.english
            [Some Sample.form_dart; Some Sample.form_dart] None _)))).
  intros key H. simpl in H.
  repeat (destruct H as [H|H]; [subst key; vm_compute; intuition discriminate|]).
  contradiction.
Defined.

End RunFacts.

(** ** More on the filter and the rewrite of apply_localization_suggestions.py *)

Section ApplierMore.
Import Py Dart Applier ApplierAux.

Lemma dict_select_In (V : Type) (keep : str -> V -> bool) (d : dict V)
    (k : str) (v : V) :
  In (k, v) (dict_select keep d) -> In (k, v) d.
Proof.
  unfold dict_select.
  assert (G : forall acc,
    In (k, v)
       (fold_left
          (fun acc kv =>
             if keep (fst kv) (snd kv) then dict_set acc (fst kv) (snd kv) else acc)
          d acc) ->
    In (k, v) acc \/ In (k, v) d).
  { induction d as [|[k0 v0] d IH]; intros acc H; [now left|].
    cbn [fold_left fst snd] in H. apply IH in H. destruct H as [H|H].
    - destruct (keep k0 v0); [|now left].
      apply dict_set_pairs in H. destruct H as [H|[-> ->]]; [now left|].
      right. now left.
    - right. now right. }
  intros H. apply G in H. destruct H as [[]|H]. exact H.
Qed.

(** X8: filtering the filtered suggestions again keeps them all. *)
Theorem filter_twice (self : applier) (suggestions : dict suggestion)
    (min_confidence : number) :
  NoDup (dict_keys suggestions) ->
  filter_high_confidence_suggestions self
    (filter_high_confidence_suggestions self suggestions min_confidence)
    min_confidence
  = filter_high_confidence_suggestions self suggestions min_confidence.
Proof.
  intros Hnd.
  assert (Hnd' : NoDup (dict_keys (filter_high_confidence_suggestions self
                                     suggestions min_confidence)))
    by apply dict_select_NoDup.
  rewrite (@filter_is_filter self _ min_confidence Hnd').
  rewrite (@filter_is_filter self suggestions min_confidence Hnd).
  clear. induction suggestions as [|kd l IH]; [reflexivity|]. simpl.
  destruct (retained self min_confidence (fst kd) (snd kd)) eqn:E; simpl.
  - rewrite E. f_equal. exact IH.
  - exact IH.
Qed.

Lemma filter_twice_witness :
  filter_high_confidence_suggestions Sample.fresh
    (filter_high_confidence_suggestions Sample.fresh Sample.suggestions (8 # 10)%Q)
    (8 # 10)%Q
  = [Sample.save; Sample.cancel; Sample.welcome].
Proof.
  rewrite (@filter_twice Sample.fresh Sample.suggestions (8 # 10)%Q).
  - vm_compute. reflexivity.
  - apply distinct_NoDup. vm_compute. reflexivity.
Defined.

(** X9: a suggestion kept at a threshold is kept at every lower
    threshold. *)
Theorem filter_threshold_monotone (self : applier)
    (suggestions : dict suggestion) (low high : Q) (key : str)
    (data : suggestion) :
  NoDup (dict_keys suggestions) -> (low <= high)%Q ->
  In (key, data) (filter_high_confidence_suggestions self suggestions high) ->
  In (key, data) (filter_high_confidence_suggestions self suggestions low).
Proof.
  intros Hnd Hle. rewrite !filter_is_filter by assumption.
  rewrite !filter_In. intros [Hin Hr]. split; [exact Hin|].
  cbn [fst snd] in *. apply retained_tests in Hr. apply retained_tests.
  destruct Hr as [Hc Hrest]. split; [|exact Hrest].
  destruct (get_default (confidence data) (Num 0)) as [c| | |];
    cbn [num_ltb] in *; try assumption.
  apply Qltb_false in Hc. apply Qltb_false. now apply Qle_trans with high.
Qed.

Lemma filter_threshold_monotone_witness :
  In Sample.save
     (filter_high_confidence_suggestions Sample.fresh Sample.suggestions (5 # 10)%Q).
Proof.
  apply (@filter_threshold_monotone Sample.fresh Sample.suggestions
           (5 # 10)%Q (8 # 10)%Q (fst Sample.save) (snd Sample.save)).
  - apply distinct_NoDup. vm_compute. reflexivity.
  - vm_compute. discriminate.
  - vm_compute. tauto.
Defined.

(** *** Values with a character that [re.escape] escapes *)

Lemma re_escape_special (s : str) :
  existsb re_special s = true -> In (ch "\") (re_escape s).
Proof.
  induction s as [|c s IH]; simpl; [discriminate|].
  destruct (re_special c); simpl; [now left|].
  intros H. right. now apply IH.
Qed.

Lemma existsb_app_special (a b : str) :
  existsb re_special b = true -> existsb re_special (a ++ b) = true.
Proof. intros H. rewrite existsb_app, H. apply orb_true_r. Qed.

Lemma patterns_have_backslash (value : str) :
  existsb re_special value = true ->
  Forall (fun p => In (ch "\") p) (patterns value).
Proof.
  intros H. unfold patterns.
  assert (Hq : forall q, existsb re_special (quoted q value) = true).
  { intros q. unfold quoted. simpl. rewrite existsb_app, H.
    now rewrite orb_true_r. }
  repeat apply Forall_cons; try apply Forall_nil; apply re_escape_special;
    first [ apply Hq
          | rewrite existsb_app; apply orb_true_iff; left; vm_compute; reflexivity ].
Qed.

Lemma no_pattern_found (ps : list str) (key value content : str) :
  Forall (fun p => contains p content = false) ps ->
  replace_first_pattern ps key value content = None.
Proof.
  induction 1 as [|p ps Hp Hps IH]; simpl; [reflexivity|]. now rewrite Hp.
Qed.

Lemma special_value_not_found (key value content : str) :
  ~ In (ch "\") content -> existsb re_special value = true ->
  replace_first_pattern (patterns value) key value content = None.
Proof.
  intros Hc Hv. apply no_pattern_found.
  generalize (patterns_have_backslash value Hv). apply Forall_impl.
  intros p Hp. destruct (contains p content) eqn:E; [|reflexivity].
  exfalso. apply Hc. exact (@contains_In _ _ _ E Hp).
Qed.

Lemma replacements_none_found (content : str) :
  ~ In (ch "\") content ->
  forall (l : dict suggestion) (n : nat),
    (forall key data, In (key, data) l ->
       exists v, value data = Some v /\ existsb re_special v = true) ->
    apply_replacements l content n = None
    \/ apply_replacements l content n = Some (content, n).
Proof.
  intros Hc. induction l as [|[key data] l IH]; intros n H; [now right|].
  cbn [apply_replacements].
  destruct (H key data (or_introl eq_refl)) as [v [Hv Hs]]. rewrite Hv.
  destruct (confidence data); [|now left].
  rewrite special_value_not_found by assumption.
  apply IH. intros k d Hin. apply (H k d). now right.
Qed.

(** X10: in a file without a backslash, a suggestion whose value holds
    a character that [re.escape] escapes (a blank, a dot, a bracket, ...)
    is never applied: the patterns are compared as plain text after
    [re.escape], so the call returns 0 and leaves the file. *)
Theorem escaped_values_never_applied (relative_path : str) (fl : file)
    (suggestions : dict suggestion) :
  ~ In (ch "\") (content fl) ->
  (forall key data, In (key, data) suggestions ->
     exists v, value data = Some v /\ existsb re_special v = true) ->
  apply_localization_to_file relative_path (Some fl) suggestions = (0, Some fl).
Proof.
  intros Hc Hs. unfold apply_localization_to_file.
  destruct (suggestions_of_file relative_path suggestions) as [|kd l] eqn:E;
    [reflexivity|].
  destruct (@replacements_none_found (content fl) Hc (kd :: l) 0) as [H|H].
  - intros key data Hin. apply (Hs key data).
    rewrite <- E in Hin. unfold suggestions_of_file in Hin.
    now apply dict_select_In in Hin.
  - now rewrite H.
  - now rewrite H.
Qed.

Lemma escaped_values_never_applied_witness :
  apply_localization_to_file (lit "lib/a.dart")
    (Some {| content := lit "Text('Save changes')"; writable := true |})
    [(lit "save_changes", Sample.sug "Save changes" (95 # 100) "lib/a.dart:1" "button")]
  = (0, Some {| content := lit "Text('Save changes')"; writable := true |}).
Proof.
  apply escaped_values_never_applied.
  - vm_compute. intuition discriminate.
  - intros key data [H|[]]. inversion H; subst.
    exists (lit "Save changes"). split; vm_compute; reflexivity.
Defined.

(** *** The branch for [const Text(] *)

Lemma re_escape_blanks (s : str) : forall b, blanks_escaped b (re_escape s) = true.
Proof.
  induction s as [|c s IH]; intros b; [reflexivity|].
  cbn [re_escape flat_map]. destruct (re_special c) eqn:E.
  - cbn [app blanks_escaped].
    replace (N.eqb (ch "\") (ch " ")) with false by reflexivity.
    rewrite N.eqb_refl. cbn [andb].
    destruct (N.eqb c (ch " ")); apply IH.
  - cbn [app blanks_escaped].
    destruct (N.eqb c (ch " ")) eqn:Ec.
    + apply N.eqb_eq in Ec. subst c. vm_compute in E. discriminate.
    + apply IH.
Qed.

Lemma blanks_escaped_no_plain_blank (x y : str) (c : char) :
  c <> (ch "\") -> forall b, blanks_escaped b (x ++ c :: (ch " ") :: y) = false.
Proof.
  intros Hc. induction x as [|a x IH]; intros b.
  - cbn [app blanks_escaped]. apply N.eqb_neq in Hc. rewrite Hc.
    rewrite N.eqb_refl. cbn [andb]. apply andb_false_r.
  - cbn [app blanks_escaped]. rewrite IH. apply andb_false_r.
Qed.

(** X11: no pattern of the rewrite holds the text [const Text(], so the
    branch that would turn [const Text(] into [Text(] is never taken:
    the rewrite never removes a const qualifier. *)
Theorem const_text_branch_never_taken (value : str) :
  Forall (fun pattern => contains (lit "const Text(") pattern = false)
         (patterns value).
Proof.
  assert (H : forall s, contains (lit "const Text(") (re_escape s) = false).
  { intros s. destruct (contains (lit "const Text(") (re_escape s)) eqn:E;
      [|reflexivity].
    apply contains_iff in E. destruct E as [a [b E]].
    pose proof (re_escape_blanks s false) as Hb. rewrite E in Hb.
    change (a ++ lit "const Text(" ++ b)
      with (a ++ lit "cons" ++ (ch "t") :: (ch " ") :: (lit "Text(" ++ b)) in Hb.
    rewrite app_assoc in Hb.
    rewrite blanks_escaped_no_plain_blank in Hb by discriminate.
    discriminate. }
  unfold patterns. repeat constructor; apply H.
Qed.

End ApplierMore.

(** ** More on the catalog update of apply_localization_suggestions.py *)

Section CatalogMore.
Import Py Dart Applier ApplierAux.

(** X12: the catalog update never overwrites a translation that the
    file already holds. *)
Theorem existing_translations_kept (f : arb_file)
    (suggestions : dict suggestion) (locale k : str) :
  In k (load_existing_arb_keys f) ->
  arb_lookup (add_keys_to_arb_file f suggestions locale) k = arb_lookup f k.
Proof.
  intros Hk. destruct (loaded_keys_in_doc _ _ Hk) as [d [Hd [Hin Hat]]].
  unfold add_keys_to_arb_file, initial_arb_data. rewrite Hd.
  destruct (add_keys suggestions locale d 0) as [[d' n']|] eqn:E; [|reflexivity].
  destruct ((0 <? n') && arb_writable f); [|reflexivity].
  unfold arb_lookup. rewrite Hd. cbn [arb].
  exact (@add_keys_keeps suggestions locale k Hat d 0 d' n' E Hin).
Qed.

Lemma existing_translations_kept_witness :
  arb_lookup
    (add_keys_to_arb_file Sample.en_ahead
       [(lit "hello", Sample.sug "Hi there" (9 # 10) "lib/main.dart:1" "text");
        Sample.save]
       (lit "en"))
    (lit "hello")
  = Some (ArbText (lit "Hello")).
Proof.
  rewrite existing_translations_kept; [reflexivity|].
  vm_compute. tauto.
Defined.

(** X13: after the update of a readable and writable catalog, a new
    key holds the value of its suggestion, with the prefix [[RU] ] in the
    Russian catalog. *)
Theorem new_key_stored (f : arb_file) (suggestions : dict suggestion)
    (locale k v : str) (data : suggestion) :
  arb f <> Malformed -> arb_writable f = true ->
  NoDup (dict_keys suggestions) ->
  (forall key d, In (key, d) suggestions -> value d <> None) ->
  In (k, data) suggestions -> value data = Some v ->
  startswith (lit "@") k = false ->
  ~ In k (load_existing_arb_keys f) ->
  arb_lookup (add_keys_to_arb_file f suggestions locale) k
  = Some (ArbText (if str_eqb locale (lit "ru") then lit "[RU] " ++ v else v)).
Proof.
  intros Hr Hw Hnd Hall Hin Hv Hat Hnew.
  unfold add_keys_to_arb_file.
  destruct (initial_arb_data f locale) as [d|] eqn:Ei.
  2:{ destruct f as [[| |d0] wr]; simpl in *; try discriminate. congruence. }
  assert (Hnk : ~ In k (dict_keys d)).
  { destruct f as [[| |d0] wr]; unfold initial_arb_data in Ei; simpl in Ei.
    - inversion Ei; subst. simpl. intros [H|[]]. subst k. discriminate.
    - discriminate.
    - inversion Ei; subst. intros H. apply Hnew. now apply loaded_keys_doc. }
  destruct (@add_keys_total suggestions locale Hall d 0) as [d' [n' Ea]].
  rewrite Ea.
  pose proof (@add_keys_stores locale k v data Hat Hv suggestions d 0 d' n'
                Hnd Hin Hnk Ea) as Hget.
  pose proof (@add_keys_spec _ _ _ _ _ _ Ea) as [_ [_ [_ [Hle Hsame]]]].
  assert (Hpos : (0 <? n') = true).
  { apply Nat.ltb_lt. destruct n' as [|n']; [|lia].
    specialize (Hsame eq_refl). subst d'. exfalso. apply Hnk.
    apply dict_mem_In. unfold dict_mem.
    clear - Hget. induction d as [|[k0 v0] d IH]; simpl in *; [discriminate|].
    destruct (str_eqb k k0); [reflexivity | now apply IH]. }
  rewrite Hpos, Hw. cbn [andb]. unfold arb_lookup. cbn [arb]. exact Hget.
Qed.

Lemma new_key_stored_witness :
  arb_lookup (add_keys_to_arb_file Sample.ru_behind [Sample.save] (lit "ru"))
    (lit "save_button")
  = Some (ArbText (lit "[RU] Save")).
Proof.
  refine (eq_trans
            (@new_key_stored Sample.ru_behind [Sample.save] (lit "ru")
               (lit "save_button") (lit "Save") (snd Sample.save)
               _ eq_refl _ _ _ eq_refl eq_refl _) _).
  - simpl. discriminate.
  - apply distinct_NoDup. vm_compute. reflexivity.
  - intros key d [H|[]]. inversion H. simpl. discriminate.
  - now left.
  - vm_compute. tauto.
  - reflexivity.
Defined.

(** X14: updating a catalog twice with the same suggestions gives the
    file of the first update: the second update adds no key and does not
    write. *)
Theorem catalog_update_twice (f : arb_file) (suggestions : dict suggestion)
    (locale : str) :
  add_keys_to_arb_file (add_keys_to_arb_file f suggestions locale)
    suggestions locale
  = add_keys_to_arb_file f suggestions locale.
Proof.
  assert (H : add_keys_to_arb_file f suggestions locale = f
              \/ exists d',
                   add_keys_to_arb_file f suggestions locale
                   = {| arb := Doc d'; arb_writable := true |}
                   /\ forall k, In k (dict_keys suggestions) -> In k (dict_keys d')).
  { unfold add_keys_to_arb_file.
    destruct (initial_arb_data f locale) as [d|]; [|now left].
    destruct (add_keys suggestions locale d 0) as [[d' n']|] eqn:Ea; [|now left].
    destruct ((0 <? n') && arb_writable f); [|now left].
    right. exists d'. split; [reflexivity|].
    apply add_keys_spec in Ea. tauto. }
  destruct H as [H|[d' [H H2]]].
  - rewrite H. exact H.
  - rewrite H. unfold add_keys_to_arb_file, initial_arb_data. cbn [arb].
    now rewrite (@add_keys_present suggestions locale d' 0 H2).
Qed.

(** A suggestion without a value stops the loop when its turn comes. *)
Lemma add_keys_missing_value (locale k : str) (data : suggestion) :
  startswith (lit "@") k = false -> value data = None ->
  forall suggestions d n,
    NoDup (dict_keys suggestions) -> In (k, data) suggestions ->
    ~ In k (dict_keys d) ->
    add_keys suggestions locale d n = None.
Proof.
  intros Hat Hv.
  induction suggestions as [|[key data0] rest IH];
    intros d n Hnd Hin Hnk; [contradiction|].
  unfold dict_keys in Hnd. cbn [map fst] in Hnd.
  inversion Hnd as [|? ? Hnot Hnd']; subst. simpl.
  destruct Hin as [Hin|Hin].
  - inversion Hin; subst key data0.
    apply dict_mem_false in Hnk. now rewrite Hnk, Hv.
  - assert (Hne : k <> key).
    { intros ->. apply Hnot. apply in_map_iff. now exists (key, data). }
    destruct (dict_mem d key) eqn:Hmem; simpl; [now apply IH|].
    destruct (value data0) as [v0|]; [|reflexivity].
    apply IH; try assumption.
    intros Hk. apply dict_set_keys_inv in Hk.
    destruct Hk as [Hk|Hk]; [now apply (@at_key_differs k key Hat)|].
    apply dict_set_keys_inv in Hk. destruct Hk as [Hk|Hk]; contradiction.
Qed.

(** X15: one suggestion without a value, for a key that the catalog
    lacks, makes the update write nothing: the file stays as it is,
    also for the keys that come before it. *)
Theorem missing_value_writes_nothing (f : arb_file)
    (suggestions : dict suggestion) (locale k : str) (data : suggestion) :
  NoDup (dict_keys suggestions) ->
  In (k, data) suggestions -> value data = None ->
  startswith (lit "@") k = false ->
  ~ In k (load_existing_arb_keys f) ->
  add_keys_to_arb_file f suggestions locale = f.
Proof.
  intros Hnd Hin Hv Hat Hnew. unfold add_keys_to_arb_file.
  destruct (initial_arb_data f locale) as [d|] eqn:Ei; [|reflexivity].
  assert (Hnk : ~ In k (dict_keys d)).
  { destruct f as [[| |d0] wr]; unfold initial_arb_data in Ei; simpl in Ei.
    - inversion Ei; subst. simpl. intros [H|[]]. subst k. discriminate.
    - discriminate.
    - inversion Ei; subst. intros H. apply Hnew. now apply loaded_keys_doc. }
  now rewrite (@add_keys_missing_value locale k data Hat Hv suggestions d 0
                 Hnd Hin Hnk).
Qed.

Lemma missing_value_writes_nothing_witness :
  add_keys_to_arb_file Sample.ru_behind
    [Sample.save;
     (lit "title", {| value := None; confidence := Some (Num (9 # 10));
                      description := None; widget_type := Some (lit "button") |})]
    (lit "ru")
  = Sample.ru_behind.
Proof.
  apply (@missing_value_writes_nothing Sample.ru_behind _ (lit "ru") (lit "title")
           {| value := None; confidence := Some (Num (9 # 10));
              description := None; widget_type := Some (lit "button") |}).
  - apply distinct_NoDup. vm_compute. reflexivity.
  - right. now left.
  - reflexivity.
  - reflexivity.
  - vm_compute. tauto.
Defined.

End CatalogMore.

(** ** Files that a run of apply_localization_suggestions.py leaves *)

Section FrameFacts.
Import Py Dart Applier.

Lemma replacements_missing_field (key : str) (data : suggestion)
    (l : dict suggestion) :
  In (key, data) l -> value data = None \/ confidence data = None ->
  forall content n, apply_replacements l content n = None.
Proof.
  intros Hin Hmiss. induction l as [|[k d] l IH]; intros content n;
    [contradiction|]. cbn [apply_replacements].
  destruct Hin as [Hin|Hin].
  - inversion Hin; subst k d.
    destruct Hmiss as [-> | ->]; [reflexivity|].
    now destruct (value data).
  - destruct (value d) as [v|]; [|reflexivity].
    destruct (confidence d); [|reflexivity].
    destruct (replace_first_pattern (patterns v) k v content); now apply IH.
Qed.

(** X16: a suggestion for the file that lacks its value or its
    confidence makes the call give up the whole file: it returns 0 and
    the file keeps its text, whatever the other suggestions are. *)
Theorem missing_field_skips_file (relative_path key : str) (data : suggestion)
    (fl : file) (suggestions : dict suggestion) :
  NoDup (dict_keys suggestions) ->
  In (key, data) suggestions ->
  contains relative_path (get_default (description data) []) = true ->
  value data = None \/ confidence data = None ->
  apply_localization_to_file relative_path (Some fl) suggestions = (0, Some fl).
Proof.
  intros Hnd Hin Hdesc Hmiss. unfold apply_localization_to_file.
  assert (Hsel : In (key, data) (suggestions_of_file relative_path suggestions)).
  { unfold suggestions_of_file. rewrite dict_select_filter by assumption.
    apply filter_In. now split. }
  destruct (suggestions_of_file relative_path suggestions) as [|kd l];
    [reflexivity|].
  now rewrite (@replacements_missing_field key data (kd :: l) Hsel Hmiss).
Qed.

Lemma missing_field_skips_file_witness :
  apply_localization_to_file (lit "lib/screens/home.dart") (Some Sample.home_dart)
    [Sample.save;
     (lit "cancel_button",
      {| value := Some (lit "Cancel"); confidence := None;
         description := Some (lit "lib/screens/home.dart:13");
         widget_type := None |})]
  = (0, Some Sample.home_dart).
Proof.
  apply (@missing_field_skips_file (lit "lib/screens/home.dart")
           (lit "cancel_button")
           {| value := Some (lit "Cancel"); confidence := None;
              description := Some (lit "lib/screens/home.dart:13");
              widget_type := None |}).
  - apply distinct_NoDup. vm_compute. reflexivity.
  - right. now left.
  - vm_compute. reflexivity.
  - now right.
Defined.

Lemma dict_select_none (V : Type) (keep : str -> V -> bool) (d : dict V) :
  (forall k v, In (k, v) d -> keep k v = false) -> dict_select keep d = [].
Proof.
  unfold dict_select.
  assert (G : forall acc,
    (forall k v, In (k, v) d -> keep k v = false) ->
    fold_left
      (fun acc kv =>
         if keep (fst kv) (snd kv) then dict_set acc (fst kv) (snd kv) else acc)
      d acc = acc).
  { induction d as [|[k v] d IH]; intros acc H; [reflexivity|].
    cbn [fold_left fst snd]. rewrite (H k v (or_introl eq_refl)).
    apply IH. intros k' v' Hin. apply H. now right. }
  apply G.
Qed.

Lemma In_firstn_In (A : Type) (n : nat) (l : list A) (x : A) :
  In x (firstn n l) -> In x l.
Proof.
  intros H. rewrite <- (firstn_skipn n l). apply in_or_app. now left.
Qed.

Lemma limit_changes_In (filtered : dict suggestion) (max_changes : Z)
    (k : str) (d : suggestion) :
  In (k, d) (limit_changes filtered max_changes) -> In (k, d) filtered.
Proof.
  unfold limit_changes.
  destruct (Z.of_nat (length filtered) >? max_changes)%Z; [|auto].
  change (dict_of_items (slice_to max_changes filtered))
    with (dict_select (fun _ _ => true) (slice_to max_changes filtered)).
  intros H. apply dict_select_In in H. unfold slice_to in H.
  destruct (0 <=? max_changes)%Z; exact (In_firstn_In _ _ _ H).
Qed.

Lemma rewrite_file_unnamed (filtered : dict suggestion) (p : str) (fl : file) :
  (forall key data, In (key, data) filtered ->
     contains p (get_default (description data) []) = false) ->
  rewrite_file filtered (p, fl) = (p, fl).
Proof.
  intros H. unfold rewrite_file, apply_localization_to_file. cbn [fst snd].
  unfold suggestions_of_file. rewrite dict_select_none; [reflexivity|].
  intros k v Hin. now apply (H k v).
Qed.

Lemma rewrite_file_path (filtered : dict suggestion) (pf : str * file) :
  fst (rewrite_file filtered pf) = fst pf.
Proof.
  unfold rewrite_file.
  now destruct (snd (apply_localization_to_file (fst pf) (Some (snd pf)) filtered)).
Qed.

(** X17: a run keeps the list of source paths, and a file whose path
    occurs in the description of no suggestion of the document keeps its
    text. *)
Theorem run_leaves_unnamed_files (self : applier) (w w' : world)
    (min_confidence : number) (max_changes : Z) (p : str) (fl : file) :
  apply_suggestions self w min_confidence max_changes = Some w' ->
  In (p, fl) (lib w) ->
  (forall suggestions key data,
     suggestions_doc w = Some suggestions -> In (key, data) suggestions ->
     contains p (get_default (description data) []) = false) ->
  map fst (lib w') = map fst (lib w) /\ In (p, fl) (lib w').
Proof.
  unfold apply_suggestions. intros Hrun Hin Hun.
  destruct (backup_ok w); [|discriminate].
  destruct (suggestions_doc w) as [[|kd rest]|] eqn:Es;
    inversion Hrun; subst w'; cbn [lib]; try (now split).
  split.
  - rewrite map_map. apply map_ext. intros pf. apply rewrite_file_path.
  - apply in_map_iff. exists (p, fl). split; [|exact Hin].
    apply rewrite_file_unnamed. intros key data Hk.
    apply (Hun (kd :: rest) key data eq_refl).
    apply limit_changes_In in Hk.
    unfold filter_high_confidence_suggestions in Hk.
    now apply dict_select_In in Hk.
Qed.

Lemma run_leaves_unnamed_files_witness :
  exists w',
    apply_suggestions (init Sample.two_screens) Sample.two_screens
      (8 # 10)%Q 50%Z = Some w'
    /\ In (lit "lib/main.dart", Sample.home_dart) (lib w').
Proof.
  destruct (apply_suggestions (init Sample.two_screens) Sample.two_screens
              (8 # 10)%Q 50%Z) as [w'|] eqn:E;
    [|vm_compute in E; discriminate].
  exists w'. split; [reflexivity|].
  refine (proj2 (@run_leaves_unnamed_files (init Sample.two_screens)
                   Sample.two_screens w' (8 # 10)%Q 50%Z (lit "lib/main.dart")
                   Sample.home_dart E _ _)).
  - right. now left.
  - intros suggestions key data Hs Hin. inversion Hs; subst suggestions.
    destruct Hin as [Hin|[]]. inversion Hin; subst. vm_compute. reflexivity.
Defined.

End FrameFacts.

(** ** More on fix_missing_imports (fix_localization_issues.py) *)

Section ImportsMore.
Import Py Dart Fixer.

Lemma nl_free_app (a b : str) : nl_free a -> nl_free b -> nl_free (a ++ b).
Proof.
  unfold nl_free. intros Ha Hb H. apply in_app_or in H. tauto.
Qed.

Lemma climb_nl_free (depth : nat) : nl_free (concat (repeat (lit "../") depth)).
Proof.
  induction depth as [|n IH]; [intros []|].
  cbn [repeat concat]. apply nl_free_app; [|exact IH].
  vm_compute. intuition discriminate.
Qed.

Lemma import_statement_nl_free (file_path : str) :
  nl_free (import_statement file_path).
Proof.
  unfold import_statement, calculate_import_path.
  apply nl_free_app; [vm_compute; intuition discriminate|].
  apply nl_free_app; [|vm_compute; intuition discriminate].
  destruct (find_from (lit "lib/") _ 0).
  - apply nl_free_app; [apply climb_nl_free | vm_compute; intuition discriminate].
  - vm_compute. intuition discriminate.
Qed.

Lemma Forall_list_insert (A : Type) (P : A -> Prop) (n : nat) (x : A) (l : list A) :
  P x -> Forall P l -> Forall P (list_insert n x l).
Proof.
  intros Hx Hl. unfold list_insert. apply Forall_app. split.
  - apply Forall_forall. intros y Hy. rewrite Forall_forall in Hl.
    apply Hl. exact (In_firstn_In _ _ _ Hy).
  - constructor; [exact Hx|]. apply Forall_forall. intros y Hy.
    rewrite Forall_forall in Hl. apply Hl.
    rewrite <- (firstn_skipn n l). apply in_or_app. now right.
Qed.

(** The lines of the text that [add_import] returns. *)
Lemma add_import_lines (file_path content new_content : str) :
  add_import file_path content = Some new_content ->
  split_lines new_content
  = list_insert
      (match last_import_index (split_lines content) 0 None with
       | Some i => i
       | None => first_code_index (split_lines content) 0
       end + 1)
      (import_statement file_path) (split_lines content).
Proof.
  unfold add_import.
  destruct (negb (contains marker content)); [discriminate|].
  destruct (already_imported content); [discriminate|].
  intros H. inversion H. apply split_join.
  - unfold list_insert. destruct (firstn _ _); discriminate.
  - apply Forall_list_insert;
      [apply import_statement_nl_free | apply split_lines_nl_free].
Qed.

(** X18: when [fix_missing_imports] adds the import it adds one line,
    the import statement, and keeps every line of the file in its
    place: without the new line the text is the old text. *)
Theorem import_is_one_new_line (file_path content new_content : str) :
  add_import file_path content = Some new_content ->
  exists n,
    split_lines new_content
    = firstn n (split_lines content)
      ++ import_statement file_path :: skipn n (split_lines content)
    /\ join_lines (firstn n (split_lines content) ++ skipn n (split_lines content))
       = content.
Proof.
  intros H. apply add_import_lines in H. eexists. split; [exact H|].
  now rewrite firstn_skipn, join_split.
Qed.

Lemma import_is_one_new_line_witness :
  exists new_content,
    add_import (lit "lib/screens/home.dart") Sample.no_import_screen
    = Some new_content
    /\ length (split_lines new_content) = 5.
Proof.
  destruct (add_import (lit "lib/screens/home.dart") Sample.no_import_screen)
    as [c|] eqn:E; [|vm_compute in E; discriminate].
  exists c. split; [reflexivity|].
  destruct (@import_is_one_new_line _ _ _ E) as [n [H _]].
  rewrite H, length_app. cbn [length].
  rewrite length_firstn, length_skipn.
  change (length (split_lines Sample.no_import_screen)) with 4. lia.
Defined.

Lemma last_import_none (lines : list str) : forall i acc,
  existsb is_import_line lines = false ->
  last_import_index lines i acc = acc.
Proof.
  induction lines as [|l lines IH]; intros i acc H; [reflexivity|].
  simpl in H. apply orb_false_iff in H. destruct H as [Hl Hr].
  cbn [last_import_index]. rewrite Hl. now apply IH.
Qed.

Lemma last_import_found (lines : list str) : forall i acc,
  existsb is_import_line lines = true ->
  exists before line after,
    lines = before ++ line :: after
    /\ is_import_line line = true
    /\ existsb is_import_line after = false
    /\ last_import_index lines i acc = Some (i + length before).
Proof.
  induction lines as [|l lines IH]; intros i acc H; [discriminate|].
  cbn [last_import_index].
  destruct (existsb is_import_line lines) eqn:E.
  - destruct (IH (S i) (if is_import_line l then Some i else acc) eq_refl)
      as [before [line [after [-> [Hl [Ha Hidx]]]]]].
    exists (l :: before), line, after. repeat split; try assumption.
    rewrite Hidx. cbn [length]. f_equal. lia.
  - simpl in H. rewrite E, orb_false_r in H.
    exists [], l, lines. repeat split; try assumption.
    rewrite H, last_import_none by assumption. cbn [length]. f_equal. lia.
Qed.

(** X19: when the file has import lines, the new import comes right
    after the last of them. *)
Theorem import_follows_last_import (file_path content new_content : str) :
  add_import file_path content = Some new_content ->
  existsb is_import_line (split_lines content) = true ->
  exists before line after,
    split_lines content = before ++ line :: after
    /\ is_import_line line = true
    /\ existsb is_import_line after = false
    /\ split_lines new_content
       = before ++ line :: import_statement file_path :: after.
Proof.
  intros H Himp. apply add_import_lines in H.
  destruct (last_import_found _ 0 None Himp)
    as [before [line [after [Hls [Hl [Ha Hidx]]]]]].
  exists before, line, after. repeat split; try assumption.
  rewrite H, Hidx, Hls. unfold list_insert. cbn [Nat.add].
  replace (length before + 1) with (length (before ++ [line]))
    by (rewrite length_app; reflexivity).
  change (before ++ line :: after) with (before ++ [line] ++ after).
  rewrite app_assoc, firstn_app, firstn_all, Nat.sub_diag. cbn [firstn].
  rewrite skipn_app, skipn_all, Nat.sub_diag. cbn [skipn].
  now rewrite app_nil_r, <- !app_assoc.
Qed.

Lemma import_follows_last_import_witness :
  exists new_content,
    add_import (lit "lib/a/b/c.dart")
      (join_lines [lit "import 'x.dart';"; lit "";
                   lit "f(context) => AppLocalizations.of(context)?.t ?? 'T';"])
    = Some new_content
    /\ split_lines new_content
       = [lit "import 'x.dart';"; lit "import '../../l10n/app_localizations.dart';";
          lit ""; lit "f(context) => AppLocalizations.of(context)?.t ?? 'T';"].
Proof.
  destruct (add_import (lit "lib/a/b/c.dart")
              (join_lines [lit "import 'x.dart';"; lit "";
                 lit "f(context) => AppLocalizations.of(context)?.t ?? 'T';"]))
    as [c|] eqn:E; [|vm_compute in E; discriminate].
  exists c. split; [reflexivity|].
  destruct (@import_follows_last_import _ _ _ E eq_refl)
    as [before [line [after [_ _]]]].
  vm_compute in E. inversion E. vm_compute. reflexivity.
Defined.

End ImportsMore.

(** ** Repeated calls of fix_missing_imports *)

Section ImportsAgain.
Import Py Dart Fixer.

Lemma contains_trans (a b c : str) :
  contains a b = true -> contains b c = true -> contains a c = true.
Proof.
  intros Hab Hbc. apply contains_iff in Hab. destruct Hab as [x [y ->]].
  apply contains_iff in Hbc. destruct Hbc as [u [v ->]].
  apply contains_iff. exists (u ++ x), (y ++ v). now rewrite <- !app_assoc.
Qed.

Lemma contains_refl (a : str) : contains a a = true.
Proof. apply contains_iff. exists [], []. now rewrite app_nil_r. Qed.

Lemma contains_join (l : str) (ls : list str) :
  In l ls -> contains l (join_lines ls) = true.
Proof.
  induction ls as [|a ls IH]; [intros []|]. intros [->|Hin].
  - destruct ls as [|b ls]; [apply contains_refl|].
    rewrite join_lines_cons by discriminate. apply contains_app_l, contains_refl.
  - destruct ls as [|b ls]; [contradiction|].
    rewrite join_lines_cons by discriminate.
    change (a ++ newline :: join_lines (b :: ls))
      with (a ++ [newline] ++ join_lines (b :: ls)).
    rewrite app_assoc. apply contains_app_r. now apply IH.
Qed.

Lemma In_list_insert (A : Type) (n : nat) (x : A) (l : list A) :
  In x (list_insert n x l).
Proof. unfold list_insert. apply in_or_app. right. now left. Qed.

Lemma add_import_holds_statement (file_path content new_content : str) :
  add_import file_path content = Some new_content ->
  contains (import_statement file_path) new_content = true.
Proof.
  unfold add_import.
  destruct (negb (contains marker content)); [discriminate|].
  destruct (already_imported content); [discriminate|].
  intros H. inversion H. apply contains_join, In_list_insert.
Qed.

(** X20: for a file one to four directories below lib, a second call
    of [fix_missing_imports] on the text that the first call wrote adds
    nothing. *)
Theorem import_added_once (rest content new_content : str) :
  1 <= count_char (ch "/") rest <= 4 ->
  add_import (lit "lib/" ++ rest) content = Some new_content ->
  add_import (lit "lib/" ++ rest) new_content = None.
Proof.
  intros Hd H. apply add_import_holds_statement in H.
  unfold add_import. destruct (negb (contains marker new_content)); [reflexivity|].
  assert (Ha : already_imported new_content = true).
  { unfold already_imported, import_statement in *.
    rewrite calculate_import_path_under_lib in H.
    apply orb_true_iff.
    destruct (count_char (ch "/") rest) as [|[|[|[|[|n]]]]] eqn:E; try lia.
    - left. apply orb_true_iff. left. apply orb_true_iff. left.
      revert H. apply contains_trans. vm_compute. reflexivity.
    - left. apply orb_true_iff. left. apply orb_true_iff. right.
      revert H. apply contains_trans. vm_compute. reflexivity.
    - left. apply orb_true_iff. right.
      revert H. apply contains_trans. vm_compute. reflexivity.
    - right. revert H. apply contains_trans. vm_compute. reflexivity. }
  now rewrite Ha.
Qed.

Lemma import_added_once_witness :
  add_import (lit "lib/screens/home.dart")
    (join_lines
       [ lit "// Copyright";
         lit "class Home extends StatelessWidget {";
         lit "import '../l10n/app_localizations.dart';";
         lit "  build(context) => Text(AppLocalizations.of(context)?.title ?? 'Title');";
         lit "}" ])
  = None.
Proof.
  apply (@import_added_once (lit "screens/home.dart") Sample.no_import_screen).
  - vm_compute. lia.
  - vm_compute. reflexivity.
Defined.

Lemma contains_across_newline (p a b : str) :
  nl_free p -> p <> [] ->
  contains p (a ++ newline :: b) = true ->
  contains p a = true \/ contains p b = true.
Proof.
  intros Hnl Hne H. apply contains_iff in H. destruct H as [x [y E]].
  symmetry in E. apply app_eq_app in E.
  destruct E as [l [[Hx Hy]|[Ha Hy]]].
  - destruct l as [|c l].
    + simpl in Hy. destruct p as [|c p]; [congruence|].
      inversion Hy; subst c. exfalso. apply Hnl. now left.
    + inversion Hy; subst. right. apply contains_iff. now exists l, y.
  - apply app_eq_app in Hy. destruct Hy as [m [[Hp Hb]|[Hl Hb]]].
    + destruct m as [|c m].
      * rewrite app_nil_r in Hp. subst. left. apply contains_iff.
        exists x, []. now rewrite app_nil_r.
      * inversion Hb; subst. exfalso. apply Hnl.
        apply in_or_app. right. now left.
    + subst. left. apply contains_iff. now exists x, m.
Qed.

Lemma contains_join_inv (p : str) (ls : list str) :
  nl_free p -> p <> [] ->
  contains p (join_lines ls) = true ->
  exists l, In l ls /\ contains p l = true.
Proof.
  intros Hnl Hne. induction ls as [|a ls IH]; intros H.
  - simpl in H. destruct p; [congruence | discriminate].
  - destruct ls as [|b ls].
    + exists a. split; [now left | exact H].
    + rewrite join_lines_cons in H by discriminate.
      apply contains_across_newline in H; try assumption.
      destruct H as [H|H].
      * exists a. split; [now left | exact H].
      * destruct (IH H) as [l [Hin Hl]]. exists l. split; [now right | exact Hl].
Qed.

Lemma In_list_insert_inv (A : Type) (n : nat) (x y : A) (l : list A) :
  In y (list_insert n x l) -> y = x \/ In y l.
Proof.
  unfold list_insert. intros H. apply in_app_or in H.
  destruct H as [H|[H|H]].
  - right. exact (In_firstn_In _ _ _ H).
  - left. now symmetry.
  - right. rewrite <- (firstn_skipn n l). apply in_or_app. now right.
Qed.

Lemma In_list_insert_old (A : Type) (n : nat) (x y : A) (l : list A) :
  In y l -> In y (list_insert n x l).
Proof.
  unfold list_insert. intros H. rewrite <- (firstn_skipn n l) in H.
  apply in_app_or in H. apply in_or_app.
  destruct H as [H|H]; [now left | right; now right].
Qed.

(** A text without a line break that the new text holds is in the
    import statement or was in the old text. *)
Lemma add_import_origin (file_path content new_content p : str) :
  nl_free p -> p <> [] ->
  add_import file_path content = Some new_content ->
  contains p new_content = true ->
  contains p (import_statement file_path) = true \/ contains p content = true.
Proof.
  intros Hnl Hne H Hc. unfold add_import in H.
  destruct (negb (contains marker content)); [discriminate|].
  destruct (already_imported content); [discriminate|].
  inversion H; subst new_content. clear H.
  apply contains_join_inv in Hc; try assumption.
  destruct Hc as [l [Hin Hl]]. apply In_list_insert_inv in Hin.
  destruct Hin as [->|Hin]; [now left|].
  right. exact (@contains_line _ _ _ Hin Hl).
Qed.

Lemma add_import_keeps_text (file_path content new_content p : str) :
  nl_free p -> p <> [] ->
  add_import file_path content = Some new_content ->
  contains p content = true -> contains p new_content = true.
Proof.
  intros Hnl Hne H Hc. unfold add_import in H.
  destruct (negb (contains marker content)); [discriminate|].
  destruct (already_imported content); [discriminate|].
  inversion H; subst new_content. clear H.
  rewrite <- (join_split content) in Hc.
  apply contains_join_inv in Hc; try assumption.
  destruct Hc as [l [Hin Hl]].
  apply (contains_trans _ _ _ Hl). apply contains_join.
  now apply In_list_insert_old.
Qed.

Lemma count_char_none (c : char) (s : str) : ~ In c s -> count_char c s = 0.
Proof.
  unfold count_char. induction s as [|a s IH]; intros H; [reflexivity|]. simpl.
  destruct (N.eqb c a) eqn:E.
  - apply N.eqb_eq in E. subst a. exfalso. apply H. now left.
  - apply IH. intros Hin. apply H. now right.
Qed.

(** X21: for a file directly in lib the import path is
    [l10n/app_localizations.dart], which the test for an import that is
    already there does not know: each further call adds the import
    again. *)
Theorem import_added_again (name content new_content : str) :
  ~ In (ch "/") name ->
  add_import (lit "lib/" ++ name) content = Some new_content ->
  exists newer,
    add_import (lit "lib/" ++ name) new_content = Some newer
    /\ contains (lit "import 'l10n/app_localizations.dart';") new_content = true.
Proof.
  intros Hname H.
  assert (Hstmt : import_statement (lit "lib/" ++ name)
                  = lit "import 'l10n/app_localizations.dart';").
  { unfold import_statement. rewrite calculate_import_path_under_lib.
    now rewrite count_char_none. }
  assert (Hm : contains marker content = true /\ already_imported content = false).
  { unfold add_import in H. destruct (contains marker content); [|discriminate].
    destruct (already_imported content); [discriminate | now split]. }
  destruct Hm as [Hm Ha].
  assert (Hm' : contains marker new_content = true).
  { apply (@add_import_keeps_text _ _ _ marker) with (3 := H); try assumption.
    - vm_compute. intuition discriminate.
    - discriminate. }
  assert (Ha' : already_imported new_content = false).
  { unfold already_imported in *.
    apply orb_false_iff in Ha. destruct Ha as [Ha A4].
    apply orb_false_iff in Ha. destruct Ha as [Ha A3].
    apply orb_false_iff in Ha. destruct Ha as [A1 A2].
    assert (G : forall p, nl_free p -> p <> [] ->
                  contains p (lit "import 'l10n/app_localizations.dart';") = false ->
                  contains p content = false ->
                  contains p new_content = false).
    { intros p Hnl Hne Hs Hc. destruct (contains p new_content) eqn:E; [|reflexivity].
      apply (@add_import_origin _ _ _ p Hnl Hne H) in E.
      rewrite Hstmt in E. destruct E; congruence. }
    rewrite !G; try assumption; try reflexivity; try discriminate;
      vm_compute; intuition discriminate. }
  split with (x := join_lines
                     (list_insert
                        (match last_import_index (split_lines new_content) 0 None with
                         | Some i => i
                         | None => first_code_index (split_lines new_content) 0
                         end + 1)
                        (import_statement (lit "lib/" ++ name))
                        (split_lines new_content))).
  split.
  - unfold add_import. now rewrite Hm', Ha'.
  - rewrite <- Hstmt. now apply add_import_holds_statement with content.
Qed.

Lemma import_added_again_witness :
  exists newer,
    add_import (lit "lib/main.dart")
      (join_lines
         [ lit "void main() {";
           lit "import 'l10n/app_localizations.dart';";
           lit "  run(AppLocalizations.of(context)?.title ?? 'Title'); }" ])
    = Some newer.
Proof.
  destruct (@import_added_again (lit "main.dart")
              (join_lines
                 [ lit "void main() {";
                   lit "  run(AppLocalizations.of(context)?.title ?? 'Title'); }" ])
              (join_lines
                 [ lit "void main() {";
                   lit "import 'l10n/app_localizations.dart';";
                   lit "  run(AppLocalizations.of(context)?.title ?? 'Title'); }" ]))
    as [newer [H _]].
  - vm_compute. intuition discriminate.
  - vm_compute. reflexivity.
  - now exists newer.
Defined.

End ImportsAgain.

(** ** Paths without a slash, and trimmed text *)

Section EdgeFacts.
Import Py Dart Fixer Automator.

Lemma find_from_contains (p s : str) : forall i,
  (contains p s = false -> find_from p s i = None)
  /\ (contains p s = true -> exists j, find_from p s i = Some j).
Proof.
  induction s as [|c s IH]; intros i; cbn [contains find_from].
  - rewrite orb_false_r. destruct (startswith p []); split;
      try discriminate; eauto.
  - destruct (startswith p (c :: s)); cbn [orb]; [split; [discriminate | eauto]|].
    apply IH.
Qed.

(** X22: for a path written without a slash (as with backslashes) the
    import path never climbs by the depth of the file: it is
    [l10n/app_localizations.dart] when the path holds [lib] followed by
    a separator, and the fixed [../l10n/app_localizations.dart]
    otherwise. *)
Theorem import_path_without_slash (file_path : str) :
  ~ In (ch "/") file_path ->
  calculate_import_path file_path
  = if contains (lit "lib/")
         (map (fun c => if N.eqb c (ch "\") then (ch "/") else c) file_path)
    then lit "l10n/app_localizations.dart"
    else lit "../l10n/app_localizations.dart".
Proof.
  intros H. unfold calculate_import_path.
  set (slashed := map (fun c => if N.eqb c (ch "\") then (ch "/") else c)
                      file_path).
  destruct (find_from_contains (lit "lib/") slashed 0) as [Hn Hs].
  destruct (contains (lit "lib/") slashed).
  - destruct (Hs eq_refl) as [j Hj]. rewrite Hj.
    rewrite count_char_none; [reflexivity|].
    intros Hin. apply H. rewrite <- (firstn_skipn (j + 4) file_path).
    apply in_or_app. now right.
  - now rewrite Hn.
Qed.

Lemma import_path_without_slash_witness :
  calculate_import_path (lit "lib\screens\deep\home.dart")
  = lit "l10n/app_localizations.dart".
Proof.
  rewrite import_path_without_slash; [reflexivity|].
  vm_compute. intuition discriminate.
Defined.

Lemma lstrip_lstrip (s : str) : lstrip (lstrip s) = lstrip s.
Proof.
  induction s as [|c s IH]; [reflexivity|]. simpl.
  destruct (is_space c) eqn:E; [exact IH|]. simpl. now rewrite E.
Qed.

Lemma lstrip_snoc (u : str) (c : char) :
  is_space c = false -> lstrip (u ++ [c]) = lstrip u ++ [c].
Proof.
  intros Hc. induction u as [|a u IH]; simpl.
  - now rewrite Hc.
  - destruct (is_space a); [exact IH | reflexivity].
Qed.

Lemma rstrip_cons (c : char) (t : str) :
  is_space c = false -> rstrip (c :: t) = c :: rstrip t.
Proof.
  intros Hc. unfold rstrip. cbn [rev].
  rewrite lstrip_snoc by assumption. rewrite rev_app_distr. reflexivity.
Qed.

Lemma strip_strip (s : str) : strip (strip s) = strip s.
Proof.
  unfold strip.
  assert (H : lstrip (rstrip (lstrip s)) = rstrip (lstrip s)).
  { destruct (lstrip s) as [|c t] eqn:E; [reflexivity|].
    pose proof (lstrip_head _ E) as Hc.
    rewrite rstrip_cons by assumption. simpl. now rewrite Hc. }
  rewrite H. unfold rstrip. rewrite rev_involutive, lstrip_lstrip. reflexivity.
Qed.

(** X23: blanks around a literal do not matter to the skip predicate:
    the answer for a text is the answer for the trimmed text. *)
Theorem should_skip_string_trimmed (text : str) :
  should_skip_string text = should_skip_string (strip text).
Proof.
  unfold should_skip_string. now rewrite strip_strip.
Qed.

End EdgeFacts.

(** ** Loading the catalogs (flutter_localization_automation.py) *)

Section LoadFacts.
Import Py Dart Automator AutomatorRun AutomatorLoad.

(** X24: without a loaded English catalog (file missing, malformed or
    an empty document) the run opens no file and counts nothing, also
    when it is not a dry run; and the target catalog has no part in what
    a run does. *)
Theorem run_needs_english_catalog (english target target' : Applier.arb_state)
    (tree : list (option file)) (max_files : option Z) (dry_run : bool) :
  (english = Applier.Absent \/ english = Applier.Malformed
   \/ english = Applier.Doc [] ->
   load_and_run english target tree max_files dry_run = (no_stats, tree))
  /\ load_and_run english target tree max_files dry_run
     = load_and_run english target' tree max_files dry_run.
Proof.
  split.
  - intros [-> | [-> | ->]]; [reflexivity | reflexivity |].
    unfold load_and_run. now destruct target.
  - unfold load_and_run. destruct english; [reflexivity | reflexivity |].
    now destruct target, target'.
Qed.

End LoadFacts.

(** ** The extraction of literals (flutter_localization_automation.py) *)

Section ExtractFacts.
Import Py Regex Dart Automator Extractor.

Lemma match_len_sound (s : str) : forall r n,
  match_len r s = Some n -> n <= length s /\ matches r (firstn n s).
Proof.
  induction s as [|c s IH]; intros r n H; cbn [match_len] in H.
  - destruct (nullable r) eqn:N; [|discriminate]. inversion H; subst.
    split; [lia | now apply nullable_matches].
  - destruct (nullable r) eqn:N.
    + inversion H; subst. split; [cbn; lia | now apply nullable_matches].
    + destruct (match_len (deriv c r) s) as [m|] eqn:E; [|discriminate].
      inversion H; subst. destruct (IH _ _ E) as [Hle Hm].
      split; [cbn; lia|]. cbn [firstn]. now apply deriv_matches.
Qed.

Lemma match_len_complete (s : str) : forall r u v,
  s = u ++ v -> matches r u -> exists n, match_len r s = Some n.
Proof.
  induction s as [|c s IH]; intros r u v Hs Hm; cbn [match_len].
  - symmetry in Hs. apply app_eq_nil in Hs. destruct Hs as [-> _].
    apply nullable_matches in Hm. rewrite Hm. now exists 0.
  - destruct (nullable r) eqn:N; [now exists 0|].
    destruct u as [|a u].
    + apply nullable_matches in Hm. congruence.
    + inversion Hs; subst. apply deriv_matches in Hm.
      destruct (IH _ _ _ eq_refl Hm) as [n Hn]. rewrite Hn. now exists (S n).
Qed.

Lemma match_len_dead (r : re) (s : str) : match_len (Cat Void r) s = None.
Proof.
  induction s as [|c s IH]; [reflexivity|].
  cbn [match_len nullable deriv andb]. now rewrite IH.
Qed.

Lemma match_len_wrong_start (q c : char) (s : str) :
  c <> q -> match_len (literal_pattern q) (c :: s) = None.
Proof.
  intros Hc. unfold literal_pattern, Chr.
  cbn [match_len nullable deriv andb].
  replace (N.eqb q c) with false
    by (symmetry; apply N.eqb_neq; congruence).
  now rewrite match_len_dead.
Qed.

Lemma literal_words (q : char) (w : str) :
  matches (literal_pattern q) w -> exists text, w = q :: text ++ [q].
Proof.
  unfold literal_pattern. intros H.
  apply matches_Cat in H. destruct H as [s1 [s2 [-> [H1 H2]]]].
  apply matches_Chr in H1. subst s1.
  apply matches_Cat in H2. destruct H2 as [text [s3 [-> [_ H3]]]].
  apply matches_Chr in H3. subst s3. now exists text.
Qed.

Lemma plain_inside (q : char) (text : str) :
  ~ In q text -> ~ In backslash text -> matches (inside q) text.
Proof.
  intros Hq Hb. unfold inside. rewrite <- (app_nil_r text).
  constructor; [|constructor].
  apply matches_Star_Class. apply forallb_forall. intros c Hc.
  unfold plain_char. apply andb_true_iff. split; apply negb_true_iff;
    apply N.eqb_neq; intros ->; contradiction.
Qed.

Lemma plain_literal (q : char) (text : str) :
  ~ In q text -> ~ In backslash text ->
  matches (literal_pattern q) (q :: text ++ [q]).
Proof.
  intros Hq Hb. unfold literal_pattern.
  change (q :: text ++ [q]) with ([q] ++ text ++ [q]).
  constructor; [now apply matches_Chr|].
  constructor; [now apply plain_inside | now apply matches_Chr].
Qed.

(** Where the first quote after the text is the end of the match. *)
Lemma firstn_to_quote (q : char) (text post body : str) (m : nat) :
  ~ In q text -> ~ In q post ->
  m <= length (text ++ q :: post) ->
  firstn m (text ++ q :: post) = body ++ [q] ->
  body = text /\ m = S (length text).
Proof.
  intros Ht Hp Hm H.
  destruct (Nat.le_gt_cases m (length text)) as [Hle|Hgt].
  - exfalso. rewrite firstn_app in H.
    replace (m - length text) with 0 in H by lia.
    cbn [firstn] in H. rewrite app_nil_r in H.
    apply Ht. apply (In_firstn_In m). rewrite H. apply in_or_app. right. now left.
  - rewrite firstn_app, firstn_all2 in H by lia.
    destruct (m - length text) as [|k] eqn:Ek; [lia|].
    cbn [firstn] in H. rewrite length_app in Hm. cbn [length] in Hm.
    destruct (firstn k post) as [|a l] eqn:Ef.
    + apply app_inj_tail in H. destruct H as [H _].
      split; [now symmetry|].
      destruct k; [lia|]. destruct post; [simpl in Hm; lia | discriminate].
    + exfalso. apply Hp. apply (In_firstn_In k). rewrite Ef.
      apply (f_equal (@rev char)) in H. rewrite !rev_app_distr in H.
      cbn [rev app] in H.
      destruct (rev l ++ [a]) as [|x R] eqn:ER.
      * apply app_eq_nil in ER. destruct ER as [_ ER]. discriminate.
      * cbn [app] in H. inversion H; subst x.
        apply in_rev. cbn [rev]. rewrite ER. now left.
Qed.

Lemma plain_literal_len (q : char) (text post : str) :
  ~ In q text -> ~ In backslash text -> ~ In q post ->
  match_len (literal_pattern q) (q :: text ++ q :: post)
  = Some (S (S (length text))).
Proof.
  intros Ht Hb Hp.
  destruct (@match_len_complete (q :: text ++ q :: post) (literal_pattern q)
              (q :: text ++ [q]) post) as [n Hn].
  - cbn [app]. now rewrite <- app_assoc.
  - now apply plain_literal.
  - rewrite Hn. f_equal.
    destruct (match_len_sound _ _ Hn) as [Hle Hm].
    apply literal_words in Hm. destruct Hm as [body Hbody].
    destruct n as [|n]; [discriminate|]. cbn [firstn length] in *.
    inversion Hbody as [Hb'].
    apply firstn_to_quote in Hb'; try assumption; [|lia].
    destruct Hb' as [_ ->]. reflexivity.
Qed.

Lemma finditer_skip (r : re) (x : str) : forall pos y,
  finditer r (length x) pos (x ++ y) = finditer r 0 (pos + length x) y.
Proof.
  induction x as [|c x IH]; intros pos y.
  - cbn [length app]. rewrite Nat.add_0_r.
    destruct y; reflexivity.
  - cbn [length app finditer]. rewrite IH. f_equal. lia.
Qed.

Lemma finditer_no_quote (q : char) (s : str) : forall pos,
  ~ In q s -> finditer (literal_pattern q) 0 pos s = [].
Proof.
  induction s as [|c s IH]; intros pos H; [reflexivity|].
  cbn [finditer]. rewrite match_len_wrong_start.
  - apply IH. intros Hin. apply H. now right.
  - intros ->. apply H. now left.
Qed.

Lemma finditer_pass (q : char) (a : str) : forall pos s,
  ~ In q a ->
  finditer (literal_pattern q) 0 pos (a ++ s)
  = finditer (literal_pattern q) 0 (pos + length a) s.
Proof.
  induction a as [|c a IH]; intros pos s H.
  - cbn [app length]. now rewrite Nat.add_0_r.
  - cbn [app finditer]. rewrite match_len_wrong_start.
    + rewrite IH by (intros Hin; apply H; now right).
      cbn [length]. f_equal. lia.
    + intros ->. apply H. now left.
Qed.

(** The matches in a text with one plain literal. *)
Lemma finditer_one_literal (q : char) (a text post : str) :
  ~ In q a -> ~ In q text -> ~ In backslash text -> ~ In q post ->
  finditer (literal_pattern q) 0 0 (a ++ q :: text ++ q :: post)
  = [(length a, q :: text ++ [q])].
Proof.
  intros Ha Ht Hb Hp. rewrite finditer_pass by assumption. cbn [Nat.add].
  cbn [finditer]. rewrite plain_literal_len by assumption.
  assert (E : text ++ q :: post = (text ++ [q]) ++ post)
    by now rewrite <- app_assoc.
  assert (L : S (length text) = length (text ++ [q]))
    by (rewrite length_app; cbn; lia).
  assert (F : firstn (S (S (length text))) (q :: text ++ q :: post)
              = q :: text ++ [q]).
  { rewrite E.
    change (q :: (text ++ [q]) ++ post) with ((q :: text ++ [q]) ++ post).
    replace (S (S (length text))) with (length (q :: text ++ [q]))
      by (cbn [length]; rewrite length_app; cbn [length]; lia).
    rewrite firstn_app, firstn_all, Nat.sub_diag. cbn [firstn].
    apply app_nil_r. }
  rewrite F. f_equal.
  - replace (S (S (length text)) - 1) with (length (text ++ [q])) by lia.
    rewrite E, finditer_skip. now apply finditer_no_quote.
Qed.

End ExtractFacts.

(** ** What the extraction reports *)

Section ExtractClaims.
Import Py Regex Dart Automator Extractor.

Lemma finditer_spec (r : re) (s : str) : forall skip pos start whole,
  In (start, whole) (finditer r skip pos s) ->
  exists a b, s = a ++ whole ++ b /\ start = pos + length a /\ matches r whole.
Proof.
  induction s as [|c s IH]; intros skip pos start whole H; [contradiction|].
  cbn [finditer] in H.
  assert (Hrest : forall k,
    In (start, whole) (finditer r k (S pos) s) ->
    exists a b, c :: s = a ++ whole ++ b /\ start = pos + length a
                /\ matches r whole).
  { intros k Hk. destruct (IH _ _ _ _ Hk) as [a [b [-> [-> Hm]]]].
    exists (c :: a), b. repeat split; [cbn [length]; lia | exact Hm]. }
  destruct skip as [|k]; [|now apply (Hrest k)].
  destruct (match_len r (c :: s)) as [n|] eqn:E; [|now apply (Hrest 0)].
  destruct H as [H|H]; [|now apply (Hrest (n - 1))].
  inversion H; subst start whole.
  exists [], (skipn n (c :: s)). destruct (match_len_sound _ _ E) as [_ Hm].
  repeat split; [now rewrite app_nil_l, firstn_skipn | cbn; lia | exact Hm].
Qed.

Lemma count_char_app (c : char) (a b : str) :
  count_char c (a ++ b) = count_char c a + count_char c b.
Proof. unfold count_char. now rewrite filter_app, length_app. Qed.

Lemma length_split_lines (s : str) :
  length (split_lines s) = count_char newline s + 1.
Proof.
  unfold count_char. induction s as [|c s IH]; [reflexivity|].
  cbn [split_lines filter]. rewrite (N.eqb_sym newline c).
  destruct (N.eqb c newline).
  - cbn [length]. now rewrite IH.
  - destruct (split_lines_cons s) as [l [ls E]]. rewrite E in *.
    cbn [length] in *. exact IH.
Qed.

Lemma firstn_exact (A : Type) (a b : list A) : firstn (length a) (a ++ b) = a.
Proof.
  rewrite firstn_app, firstn_all, Nat.sub_diag. cbn [firstn]. apply app_nil_r.
Qed.

Lemma extract_with_sound (q : char) (content text : str) (line_num : nat) :
  In (text, line_num) (extract_with q content) ->
  contains (q :: text ++ [q]) content = true
  /\ should_skip_string text = false
  /\ 1 <= line_num <= length (split_lines content).
Proof.
  unfold extract_with. intros H. apply in_flat_map in H.
  destruct H as [[start whole] [Hm Hv]].
  apply finditer_spec in Hm. destruct Hm as [a [b [Hc [Hs Hw]]]].
  cbn [Nat.add] in Hs. subst start.
  apply literal_words in Hw. destruct Hw as [body ->].
  unfold visit_match in Hv. cbn [fst snd tl] in Hv.
  rewrite removelast_last in Hv.
  destruct (contains marker _); [contradiction|].
  destruct (should_skip_string body) eqn:Esk; [contradiction|].
  destruct Hv as [Hv|[]]. inversion Hv; subst text line_num.
  split; [apply contains_iff; now exists a, b|]. split; [exact Esk|].
  rewrite length_split_lines, Hc, firstn_exact, count_char_app. lia.
Qed.

(** X25: every reported string stands in the file between two single
    or two double quotes, is not one that the skip predicate rejects,
    and its line number is a line of the file. *)
Theorem extracted_strings_sound (content text : str) (line_num : nat) :
  In (text, line_num) (extract_strings content) ->
  (contains (squote :: text ++ [squote]) content = true
   \/ contains (dquote :: text ++ [dquote]) content = true)
  /\ should_skip_string text = false
  /\ 1 <= line_num <= length (split_lines content).
Proof.
  unfold extract_strings. intros H. apply in_app_or in H.
  destruct H as [H|H]; apply extract_with_sound in H;
    destruct H as [H1 H2]; (split; [|exact H2]); [now left | now right].
Qed.

Lemma extracted_strings_sound_witness :
  In (lit "Hello world", 2)
     (extract_strings (join_lines [lit "// greeting"; lit "Text('Hello world'),"]))
  /\ contains (squote :: lit "Hello world" ++ [squote])
       (join_lines [lit "// greeting"; lit "Text('Hello world'),"]) = true.
Proof.
  assert (H : In (lit "Hello world", 2)
     (extract_strings (join_lines [lit "// greeting"; lit "Text('Hello world'),"])))
    by (vm_compute; tauto).
  split; [exact H|].
  destruct (@extracted_strings_sound _ _ _ H) as [[Hs|Hd] _]; [exact Hs|].
  vm_compute in Hd. discriminate.
Defined.

Lemma other_quote_absent (q q' : char) (a text post : str) :
  q' <> q -> ~ In q' a -> ~ In q' text -> ~ In q' post ->
  extract_with q' (a ++ q :: text ++ q :: post) = [].
Proof.
  intros Hne Ha Ht Hp. unfold extract_with.
  rewrite finditer_no_quote; [reflexivity|].
  intros H. apply in_app_or in H. destruct H as [H|[H|H]]; [tauto | congruence|].
  apply in_app_or in H. destruct H as [H|[H|H]]; [tauto | congruence | tauto].
Qed.

Lemma extract_one (q : char) (a text post : str) :
  ~ In q a -> ~ In q text -> ~ In backslash text -> ~ In q post ->
  extract_with q (a ++ q :: text ++ q :: post)
  = if contains marker (skipn (length a - 100) a) then []
    else if should_skip_string text then []
    else [(text, count_char newline a + 1)].
Proof.
  intros Ha Ht Hb Hp. unfold extract_with.
  rewrite finditer_one_literal by assumption.
  cbn [flat_map]. rewrite app_nil_r. unfold visit_match. cbn [fst snd tl].
  now rewrite removelast_last, firstn_exact.
Qed.

(** X26: a literal without quotes and backslashes, in a file that has
    no other quote, is reported once, with the number of its line, when
    the skip predicate lets it pass and the 100 characters before it
    hold no lookup. *)
Theorem single_literal_extracted (q : char) (pre text post : str) :
  q = squote \/ q = dquote ->
  quote_free pre -> quote_free text -> ~ In backslash text -> quote_free post ->
  contains marker (skipn (length pre - 100) pre) = false ->
  should_skip_string text = false ->
  extract_strings (pre ++ q :: text ++ q :: post)
  = [(text, count_char newline pre + 1)].
Proof.
  intros Hq [Ps Pd] [Ts Td] Hb [Os Od] Hw Hsk. unfold extract_strings.
  destruct Hq as [-> | ->].
  - rewrite extract_one by assumption. rewrite Hw, Hsk.
    rewrite (@other_quote_absent squote dquote) by (assumption || discriminate).
    reflexivity.
  - rewrite (@other_quote_absent dquote squote) by (assumption || discriminate).
    rewrite extract_one by assumption. now rewrite Hw, Hsk.
Qed.

Lemma single_literal_extracted_witness :
  extract_strings (lit "// greeting" ++ newline :: lit "Text('Hello world'),")
  = [(lit "Hello world", 2)].
Proof.
  apply (@single_literal_extracted squote
           (lit "// greeting" ++ newline :: lit "Text(") (lit "Hello world")
           (lit "),"));
    vm_compute; intuition discriminate.
Defined.

Lemma window_holds_marker (pre key : str) :
  length key <= 66 ->
  contains marker
    (skipn (length (pre ++ marker ++ lit "?." ++ key ++ lit " ?? ") - 100)
           (pre ++ marker ++ lit "?." ++ key ++ lit " ?? "))
  = true.
Proof.
  intros Hk. rewrite skipn_app.
  replace (length (pre ++ marker ++ lit "?." ++ key ++ lit " ?? ") - 100
           - length pre) with 0.
  - cbn [skipn]. apply contains_app_r. apply contains_iff.
    now exists [], (lit "?." ++ key ++ lit " ?? ").
  - rewrite !length_app.
    change (length marker) with 28. change (length (lit "?.")) with 2.
    change (length (lit " ?? ")) with 4. lia.
Qed.

(** X27: the extraction does not report the fallback literal of a
    lookup that the rewrite has written, when the key has at most 66
    characters: the lookup then lies within the 100 characters before
    the literal. *)
Theorem fallback_not_extracted (q : char) (pre key text post : str) :
  q = squote \/ q = dquote ->
  quote_free pre -> quote_free key -> quote_free text ->
  ~ In backslash text -> quote_free post ->
  length key <= 66 ->
  extract_strings (pre ++ replacement q key text ++ post) = [].
Proof.
  intros Hq [Ps Pd] [Ks Kd] [Ts Td] Hb [Os Od] Hk.
  set (a := pre ++ marker ++ lit "?." ++ key ++ lit " ?? ").
  assert (E : pre ++ replacement q key text ++ post = a ++ q :: text ++ q :: post).
  { unfold a, replacement, quoted. rewrite <- !app_assoc. cbn [app].
    now rewrite <- !app_assoc. }
  assert (As : ~ In squote a /\ ~ In dquote a).
  { unfold a. split; intros H;
      repeat (apply in_app_or in H; destruct H as [H|H]);
      try contradiction; vm_compute in H; intuition discriminate. }
  destruct As as [As Ad]. rewrite E. unfold extract_strings.
  destruct Hq as [-> | ->].
  - rewrite extract_one by assumption.
    unfold a at 1 2. rewrite window_holds_marker by assumption.
    now rewrite (@other_quote_absent squote dquote)
      by (assumption || discriminate).
  - rewrite (@other_quote_absent dquote squote) by (assumption || discriminate).
    rewrite extract_one by assumption.
    unfold a at 1 2. now rewrite window_holds_marker by assumption.
Qed.

Lemma fallback_not_extracted_witness :
  extract_strings
    (lit "child: Text(AppLocalizations.of(context)?.save ?? 'Save it'),")
  = [].
Proof.
  apply (@fallback_not_extracted squote (lit "child: Text(") (lit "save")
           (lit "Save it") (lit "),"));
    try (vm_compute; intuition discriminate).
  change (length (lit "save")) with 4. lia.
Defined.

End ExtractClaims.

(** ** The filter on numbers and the cap of a run
    (apply_localization_suggestions.py) *)

Section FilterCap.
Import Py Dart Applier.

(** X28: when the threshold and the confidences are numbers (no NaN),
    the filtered dictionary holds exactly the input suggestions that
    pass the five rules; every retained suggestion reaches the
    threshold, and the key of a suggestion below the threshold is not in
    the filtered dictionary. *)
Theorem filter_exact_on_numbers (self : applier)
    (suggestions : dict suggestion) (min_confidence : number) :
  NoDup (dict_keys suggestions) ->
  min_confidence <> NaN ->
  (forall key data, In (key, data) suggestions -> confidence data <> Some NaN) ->
  let filtered :=
    filter_high_confidence_suggestions self suggestions min_confidence in
  (forall key data,
      In (key, data) filtered
      <-> In (key, data) suggestions
          /\ FilterSpec.passes_all_rules (existing_en_keys self)
               min_confidence key data)
  /\ (forall key data,
      In (key, data) filtered ->
      num_geb (get_default (confidence data) (Num 0)) min_confidence = true)
  /\ (forall key data,
      In (key, data) suggestions ->
      num_ltb (get_default (confidence data) (Num 0)) min_confidence = true ->
      ~ In key (dict_keys filtered)).
Proof.
  intros Hnd Hm Hc filtered. subst filtered.
  rewrite filter_is_filter by assumption.
  assert (Hiff : forall key data,
    In (key, data)
       (filter (fun kd => retained self min_confidence (fst kd) (snd kd)) suggestions)
    <-> In (key, data) suggestions
        /\ FilterSpec.passes_all_rules (existing_en_keys self) min_confidence key data).
  { intros key data. rewrite filter_In. cbn [fst snd]. split.
    - intros [Hin Hr]. split; [exact Hin|].
      apply retained_rules; [assumption | now apply (Hc key data) | assumption].
    - intros [Hin Hr]. split; [exact Hin|].
      apply retained_rules; [assumption | now apply (Hc key data) | assumption]. }
  split; [exact Hiff|]. split.
  - intros key data Hin. apply Hiff in Hin. destruct Hin as [_ [H _]]. exact H.
  - intros key data Hin Hlt Hkey.
    unfold dict_keys in Hkey. apply in_map_iff in Hkey.
    destruct Hkey as [[key' data'] [Hk Hin']]. simpl in Hk. subst key'.
    apply filter_In in Hin'. destruct Hin' as [Hin' Hr]. cbn [fst snd] in Hr.
    assert (data' = data)
      by exact (@dict_entry_unique _ suggestions key data' data Hnd Hin' Hin).
    subst data'. apply retained_tests in Hr. destruct Hr as [Hr _]. congruence.
Qed.

(** The sample suggestion with the confidence 0.5 is not in the result
    for the threshold 0.8. *)
Lemma filter_exact_on_numbers_witness :
  ~ In (lit "maybe")
       (dict_keys
          (filter_high_confidence_suggestions Sample.fresh Sample.suggestions
             (8 # 10)%Q)).
Proof.
  assert (Hnd : NoDup (dict_keys Sample.suggestions)).
  { apply distinct_NoDup. vm_compute. reflexivity. }
  assert (Hc : forall key data,
             In (key, data) Sample.suggestions -> confidence data <> Some NaN).
  { intros key data [H|[H|[H|[H|[]]]]]; inversion H; simpl; discriminate. }
  destruct (@filter_exact_on_numbers Sample.fresh Sample.suggestions (8 # 10)%Q
              Hnd ltac:(discriminate) Hc) as [_ [_ Hbelow]].
  apply (Hbelow (lit "maybe") (snd Sample.unsure)).
  - right. now left.
  - vm_compute. reflexivity.
Defined.

(** X29: for a cap that is not negative a run applies the first
    [max_changes] entries of the filtered dictionary and no other: with
    them it rewrites every file and updates both catalogs, so a key that
    is new in a catalog is the key of one of them, and a file that none
    of them names keeps its text. *)
Theorem cap_bounds_a_run (self : applier) (w w' : world)
    (min_confidence : number) (max_changes : Z) :
  (0 <= max_changes)%Z ->
  apply_suggestions self w min_confidence max_changes = Some w' ->
  let filtered :=
    filter_high_confidence_suggestions self
      (get_default (suggestions_doc w) []) min_confidence in
  let applied := firstn (Z.to_nat max_changes) filtered in
  (Z.of_nat (length applied) <= max_changes)%Z
  /\ lib w' = map (rewrite_file applied) (lib w)
  /\ en_arb w' = add_keys_to_arb_file (en_arb w) applied (lit "en")
  /\ ru_arb w' = add_keys_to_arb_file (ru_arb w) applied (lit "ru")
  /\ (forall k, In k (load_existing_arb_keys (en_arb w')) ->
        In k (load_existing_arb_keys (en_arb w)) \/ In k (dict_keys applied))
  /\ (forall p fl,
        In (p, fl) (lib w) ->
        (forall key data, In (key, data) applied ->
           contains p (get_default (description data) []) = false) ->
        In (p, fl) (lib w')).
Proof.
  intros Hcap Hrun filtered applied.
  assert (Hb : backup_ok w = true).
  { unfold apply_suggestions in Hrun. now destruct (backup_ok w). }
  destruct (@apply_suggestions_applied self w min_confidence max_changes Hb)
    as [w'' [Hrun' [Hlib [Hen Hru]]]].
  rewrite Hrun in Hrun'. inversion Hrun'; subst w''. clear Hrun'.
  fold filtered in Hlib, Hen, Hru.
  rewrite (@limit_changes_firstn filtered max_changes) in Hlib, Hen, Hru
    by (apply dict_select_NoDup || assumption).
  fold applied in Hlib, Hen, Hru.
  split; [unfold applied; rewrite length_firstn; lia|].
  repeat split; try assumption.
  - intros k Hk. rewrite Hen in Hk. apply updated_keys_origin in Hk. tauto.
  - intros p fl Hin Hun. rewrite Hlib. apply in_map_iff. exists (p, fl).
    split; [now apply rewrite_file_unnamed | exact Hin].
Qed.

(** With the cap 2 the run on the sample project applies the first two
    of the three accepted suggestions. *)
Lemma cap_bounds_a_run_witness :
  exists w',
    apply_suggestions (init Sample.three_literals) Sample.three_literals
      (8 # 10)%Q 2%Z = Some w'
    /\ load_existing_arb_keys (en_arb w')
       = [lit "save_button"; lit "cancel_button"]
    /\ In (lit "lib/main.dart",
           {| content := lit "Text('Welcome'),"; writable := true |}) (lib w').
Proof.
  destruct (apply_suggestions (init Sample.three_literals) Sample.three_literals
              (8 # 10)%Q 2%Z) as [w'|] eqn:E;
    [|vm_compute in E; discriminate].
  destruct (@cap_bounds_a_run (init Sample.three_literals) Sample.three_literals
              w' (8 # 10)%Q 2%Z ltac:(lia) E) as [_ [_ [Hen [_ [_ Hkeep]]]]].
  exists w'. split; [reflexivity|]. split.
  - rewrite Hen. vm_compute. reflexivity.
  - apply Hkeep; [right; now left|].
    intros key data Hin. vm_compute in Hin.
    destruct Hin as [Hin|[Hin|[]]]; inversion Hin; vm_compute; reflexivity.
Defined.

End FilterCap.
